(** * Private-NFT: the client mint / transfer / reveal workflow, its local
    message cache, the image upload policy, the plaintext packing of
    [encryptMessage] and the [HiddenAttributeNFT] contract.

    The development is a shallow embedding of

    - [frontend/src/utils/fheEncryption.ts]   (module [FheEncryption]),
    - [frontend/src/utils/imageUpload.ts]     (module [ImageUpload]),
    - [frontend/src/components/HiddenNFTAppV2Simple.tsx] (module [V2Simple]),
    - [frontend/src/components/HiddenNFTApp.tsx]         (module [HiddenNFTApp]),
    - the Solidity contract [HiddenAttributeNFT]  (module [HiddenAttributeNFT]).

    Asynchronous functions are programs of a small free monad whose only
    suspension points are the calls to the outside world; they are run
    either to completion against an oracle that answers those calls, or
    step by step by a scheduler that interleaves several of them. *)

From Stdlib Require Import ZArith List Lia Bool Ascii String Sorted.
From stdpp Require Import gmap strings list list_numbers pretty.

Local Open Scope Z_scope.

(** ** JavaScript strings

    A JavaScript string is a sequence of UTF-16 code units; [length],
    [trim] and regular expressions without the [u] flag all work on code
    units. Texts that the program only displays (status lines, error
    messages) are kept as Rocq strings. *)

Abbreviation jsstring := (list Z).

Definition code_unit (u : Z) : Prop := 0 <= u < 65536.

Definition js_wf (s : jsstring) : Prop := Forall code_unit s.

(** An ASCII literal of the source as a JavaScript string. *)
Definition js (s : string) : jsstring :=
  map (fun a => Z.of_N (N_of_ascii a)) (list_ascii_of_string s).

(** [White_Space] and [LineTerminator] of ECMAScript, as stripped by
    [String.prototype.trim]. *)
Definition is_js_space (u : Z) : bool :=
  (u =? 9) || (u =? 10) || (u =? 11) || (u =? 12) || (u =? 13) || (u =? 32)
  || (u =? 160) || (u =? 5760) || ((8192 <=? u) && (u <=? 8202))
  || (u =? 8232) || (u =? 8233) || (u =? 8239) || (u =? 8287)
  || (u =? 12288) || (u =? 65279).

Fixpoint trimStart (s : jsstring) : jsstring :=
  match s with
  | u :: s' => if is_js_space u then trimStart s' else s
  | [] => []
  end.

Definition trimEnd (s : jsstring) : jsstring := rev (trimStart (rev s)).

Definition trim (s : jsstring) : jsstring := trimEnd (trimStart s).

(** Truthiness of a string: the empty string is the only falsy one. *)
Definition truthy (s : jsstring) : bool :=
  match s with [] => false | _ => true end.

Definition truthy_str (s : string) : bool :=
  match s with EmptyString => false | _ => true end.

(** ** [TextEncoder.encode]: UTF-16 to UTF-8

    Surrogate pairs are combined, lone surrogates become U+FFFD, and each
    scalar value is written on one to four bytes. *)

Definition is_lead (u : Z) : bool := (55296 <=? u) && (u <=? 56319).
Definition is_trail (u : Z) : bool := (56320 <=? u) && (u <=? 57343).

Fixpoint scalar_values (s : jsstring) : list Z :=
  match s with
  | [] => []
  | u :: rest =>
      if is_lead u then
        match rest with
        | v :: rest' =>
            if is_trail v
            then (65536 + (u - 55296) * 1024 + (v - 56320)) :: scalar_values rest'
            else 65533 :: scalar_values rest
        | [] => [65533]
        end
      else if is_trail u then 65533 :: scalar_values rest
      else u :: scalar_values rest
  end.

Definition utf8 (c : Z) : list Z :=
  if c <? 128 then [c]
  else if c <? 2048 then [192 + c / 64; 128 + c mod 64]
  else if c <? 65536 then
    [224 + c / 4096; 128 + (c / 64) mod 64; 128 + c mod 64]
  else
    [240 + c / 262144; 128 + (c / 4096) mod 64; 128 + (c / 64) mod 64;
     128 + c mod 64].

Definition TextEncoder_encode (s : jsstring) : list Z :=
  flat_map utf8 (scalar_values s).

Definition is_byte (b : Z) : Prop := 0 <= b < 256.


(** [s.startsWith(prefix)] *)
Fixpoint startsWith (s prefix : jsstring) : bool :=
  match prefix, s with
  | [], _ => true
  | p :: prefix', u :: s' => (u =? p) && startsWith s' prefix'
  | _ :: _, [] => false
  end.

Definition is_digit (u : Z) : bool := (48 <=? u) && (u <=? 57).

Definition is_hex_digit (u : Z) : bool :=
  is_digit u || ((65 <=? u) && (u <=? 70)) || ((97 <=? u) && (u <=? 102)).

Definition hex_value (u : Z) : Z :=
  if is_digit u then u - 48
  else if (65 <=? u) && (u <=? 70) then u - 55
  else u - 87.

(** The regular expression [/^0x[a-fA-F0-9]{40}$/] (named [ZERO_ADDRESS]
    in the components), applied with [.test]. *)
Definition ZERO_ADDRESS_test (s : jsstring) : bool :=
  match s with
  | a :: b :: digits =>
      (a =? 48) && (b =? 120) && (length digits =? 40)%nat
      && forallb is_hex_digit digits
  | _ => false
  end.

(** ** JavaScript numbers

    A [number] is either [NaN] or a value; the token identifiers handled
    here are integers below 2^53, where [number] arithmetic is exact. *)

Inductive jsnumber := NaN | Num (n : Z).

Definition digits_value (base : Z) (ds : jsstring) : Z :=
  fold_left (fun acc d => acc * base + hex_value d) ds 0.

(** [Number(s)] for the strings that reach it: an event topic
    ([0x] followed by hexadecimal digits) or the digits typed in the
    token field; the empty (or blank) string is [0]. Signed, fractional
    and exponent literals are not produced by either source and are read
    as [NaN]. The result is the integer that is written: this is
    [Number] of the text as long as that integer is below 2^53, as it
    is for up to 15 decimal digits. Above, [Number] rounds, and from
    about 309 digits on it is [Infinity]; what is proved of a text
    through this function is limited to texts within the bound. *)
Definition Number_of_string (s : jsstring) : jsnumber :=
  match trim s with
  | [] => Num 0
  | a :: b :: (d :: _) as ds =>
      if (a =? 48) && ((b =? 120) || (b =? 88)) then
        if forallb is_hex_digit ds then Num (digits_value 16 ds) else NaN
      else if forallb is_digit (a :: b :: ds)
           then Num (digits_value 10 (a :: b :: ds)) else NaN
  | ds => if forallb is_digit ds then Num (digits_value 10 ds) else NaN
  end.

(** [Number.isInteger(n)]: every [Num] of this model is an integer. *)
Definition Number_isInteger (n : jsnumber) : bool :=
  match n with NaN => false | Num _ => true end.

(** [`${n}`] and [n.toString()] *)
Definition Number_toString (n : jsnumber) : jsstring :=
  match n with NaN => js "NaN" | Num z => js (pretty z) end.

(** ** Errors, files and the values exchanged with the collaborators *)

(** What is thrown, or what a promise rejects with: whether it is an
    [Error] object, its [message], and the [reason] that ethers adds to
    reverted calls (both empty when absent). *)
Record JsError := mkError {
  err_instanceof_Error : bool;
  err_reason : string;
  err_message : string
}.

(** [new Error(msg)] *)
Definition Error_ (msg : string) : JsError := mkError true EmptyString msg.

(** [error instanceof Error ? error.message : otherwise] *)
Definition message_or (error : JsError) (otherwise : string) : string :=
  if err_instanceof_Error error then err_message error else otherwise.

(** [a || b] on display strings *)
Definition or_else (a b : string) : string := if truthy_str a then a else b.

Record File := { file_name : jsstring; file_type : jsstring; file_size : Z }.

Record UploadResult := { imageUri : jsstring; previewUrl : jsstring }.

Record Signer := { signer_id : Z }.
Record FhevmInstance := { instance_chainId : Z }.
Record Tx := { tx_hash : jsstring }.
Record Log := { topics : list jsstring }.
Record Receipt := { logs : list Log }.
Record Encrypted := { handles : list (list Z); inputProof : list Z }.
Record Keypair := { publicKey : jsstring; privateKey : jsstring }.
Record EIP712 := { eip712_payload : jsstring }.

(** [import.meta.env] and [config/contracts.ts]. The deployed address is
    a constant of a file outside this development and is a parameter. *)
Record Config := {
  VITE_PINATA_API_KEY : option jsstring;
  VITE_PINATA_API_SECRET : option jsstring;
  VITE_PINATA_GATEWAY : option jsstring;
  CONTRACT_ADDRESS : jsstring
}.

Definition truthy_opt (o : option jsstring) : bool :=
  match o with Some s => truthy s | None => false end.

(** [`${x}`] of a [string | undefined] *)
Definition show_opt (o : option jsstring) (absent : string) : jsstring :=
  match o with Some s => s | None => js absent end.

(** ** Calls to the outside world

    Every [await] (and every synchronous call into the SDK) of the
    modelled functions is one of these; [resp] is the type of the value a
    call resolves to. *)

Inductive Call :=
| AxiosPostPinata (file : File) (apiKey apiSecret : jsstring)
| FileReaderReadAsDataURL (file : File)
| InitSDK
| ProviderGetNetwork
| CreateInstance (chainId : Z)
| ProviderGetSigner
| SignerGetAddress (signer : Signer)
| EncryptedInputEncrypt (instance : FhevmInstance)
    (contractAddress userAddress : jsstring) (value : Z)
| ContractMint (signer : Signer) (encryptedMessage inputProof imageUri : jsstring)
| ContractTransferFrom (signer : Signer) (from to : jsstring) (tokenId : jsnumber)
| TxWait (tx : Tx)
| ContractGetEncryptedMessage (tokenId : Z)
| PublicClientReadEncryptedMessage (tokenId : Z)
| InstanceGenerateKeypair (instance : FhevmInstance)
| DateNow
| InstanceCreateEIP712 (instance : FhevmInstance) (publicKey : jsstring)
    (contractAddresses : list jsstring) (startTimestamp durationDays : jsstring)
| SignerPromise
| SignerSignTypedData (signer : Signer) (eip712 : EIP712)
| InstanceUserDecrypt (instance : FhevmInstance) (handle contractAddress : jsstring)
    (keypair : Keypair) (signature : jsstring) (userAddress : jsstring)
    (startTimestamp durationDays : jsstring).

Definition resp (c : Call) : Type :=
  match c with
  | AxiosPostPinata _ _ _ => jsstring
  | FileReaderReadAsDataURL _ => jsstring
  | InitSDK => unit
  | ProviderGetNetwork => Z
  | CreateInstance _ => FhevmInstance
  | ProviderGetSigner => Signer
  | SignerGetAddress _ => jsstring
  | EncryptedInputEncrypt _ _ _ _ => Encrypted
  | ContractMint _ _ _ _ => Tx
  | ContractTransferFrom _ _ _ _ => Tx
  | TxWait _ => option Receipt
  | ContractGetEncryptedMessage _ => jsstring
  | PublicClientReadEncryptedMessage _ => jsstring
  | InstanceGenerateKeypair _ => Keypair
  | DateNow => Z
  | InstanceCreateEIP712 _ _ _ _ _ => EIP712
  | SignerPromise => option Signer
  | SignerSignTypedData _ _ => jsstring
  | InstanceUserDecrypt _ _ _ _ _ _ _ _ => option jsstring
  end.

(** Effects of the program itself that the properties speak about. *)
Inductive Action :=
| LocalStorage_setItem (key value : jsstring)
| Enter_decryptUint256 (encryptedHandle contractAddress : jsstring).

Inductive Event := Called (c : Call) | Did (a : Action).

(** The outside world: what a call resolves to (or rejects with), given
    everything that happened before it. *)
Definition Oracle := list Event -> forall c : Call, JsError + resp c.

(** ** Programs

    [S] is the mutable state the program lives in (component state,
    [localStorage], module variables). *)

Inductive prog (S A : Type) : Type :=
| Ret (a : A)
| Throw (e : JsError)
| Upd (f : S -> S) (k : prog S A)
| Look (k : S -> prog S A)
| Mark (a : Action) (k : prog S A)
| Await (c : Call) (k : JsError + resp c -> prog S A).

Arguments Ret {S A} a.
Arguments Throw {S A} e.
Arguments Upd {S A} f k.
Arguments Look {S A} k.
Arguments Mark {S A} a k.
Arguments Await {S A} c k.

Fixpoint bind {S A B} (p : prog S A) (f : A -> prog S B) : prog S B :=
  match p with
  | Ret a => f a
  | Throw e => Throw e
  | Upd g k => Upd g (bind k f)
  | Look k => Look (fun s => bind (k s) f)
  | Mark a k => Mark a (bind k f)
  | Await c k => Await c (fun r => bind (k r) f)
  end.

(** [try { p } catch (error) { h error }] *)
Fixpoint try_catch {S A} (p : prog S A) (h : JsError -> prog S A) : prog S A :=
  match p with
  | Ret a => Ret a
  | Throw e => h e
  | Upd g k => Upd g (try_catch k h)
  | Look k => Look (fun s => try_catch (k s) h)
  | Mark a k => Mark a (try_catch k h)
  | Await c k => Await c (fun r => try_catch (k r) h)
  end.

Notation "x <- p ;; q" := (bind p (fun x => q))
  (at level 100, p at next level, right associativity).
Notation "p ;;; q" := (bind p (fun _ => q))
  (at level 100, right associativity).

(** [try { p } finally { fin }] *)
Definition finally {S A} (p : prog S A) (fin : prog S unit) : prog S A :=
  r <- try_catch (a <- p ;; Ret (inr a)) (fun e => Ret (inl e)) ;;
  fin ;;;
  match r with inl e => Throw e | inr a => Ret a end.

(** [await c] *)
Definition call {S} (c : Call) : prog S (resp c) :=
  Await c (fun r => match r with inl e => Throw e | inr v => Ret v end).

Definition modify {S} (f : S -> S) : prog S unit := Upd f (Ret tt).
Definition note {S} (a : Action) : prog S unit := Mark a (Ret tt).
Definition skip {S} : prog S unit := Ret tt.

(** Running a program to completion against an oracle. The trace lists,
    oldest first, the calls made and the marked actions. *)
Fixpoint run {S A} (o : Oracle) (p : prog S A) (s : S) (t : list Event)
  : (JsError + A) * S * list Event :=
  match p with
  | Ret a => (inr a, s, t)
  | Throw e => (inl e, s, t)
  | Upd f k => run o k (f s) t
  | Look k => run o (k s) s t
  | Mark a k => run o k s (t ++ [Did a])
  | Await c k => run o (k (o t c)) s (t ++ [Called c])
  end.

Definition outcome {S A} (r : (JsError + A) * S * list Event) : JsError + A := r.1.1.
Definition final {S A} (r : (JsError + A) * S * list Event) : S := r.1.2.
Definition events {S A} (r : (JsError + A) * S * list Event) : list Event := r.2.

(** Running a program up to its next suspension point. *)
Inductive status (S A : Type) : Type :=
| Done (r : JsError + A)
| Waiting (c : Call) (k : JsError + resp c -> prog S A).

Arguments Done {S A} r.
Arguments Waiting {S A} c k.

Fixpoint advance {S A} (p : prog S A) (s : S) (t : list Event)
  : status S A * S * list Event :=
  match p with
  | Ret a => (Done (inr a), s, t)
  | Throw e => (Done (inl e), s, t)
  | Upd f k => advance k (f s) t
  | Look k => advance (k s) s t
  | Mark a k => advance k s (t ++ [Did a])
  | Await c k => (Waiting c k, s, t ++ [Called c])
  end.

(** ** The browser: [localStorage] and the module variable
    [fhevmInstance] of [fheEncryption.ts], around the state [C] of the
    mounted component. [Array_from_undefined] is the message of the
    [TypeError] that the browser's engine throws for
    [Array.from(undefined)]; its wording differs from engine to
    engine. *)

Record Browser (C : Type) := {
  component : C;
  localStorage : gmap jsstring jsstring;
  fhevmInstance : option FhevmInstance;
  window_ethereum : bool;
  Array_from_undefined : string
}.

Arguments component {C} _.
Arguments localStorage {C} _.
Arguments fhevmInstance {C} _.
Arguments window_ethereum {C} _.
Arguments Array_from_undefined {C} _.

Definition set_component {C} (f : C -> C) (b : Browser C) : Browser C :=
  {| component := f (component b); localStorage := localStorage b;
     fhevmInstance := fhevmInstance b; window_ethereum := window_ethereum b;
     Array_from_undefined := Array_from_undefined b |}.

Definition set_fhevmInstance {C} (i : FhevmInstance) (b : Browser C) : Browser C :=
  {| component := component b; localStorage := localStorage b;
     fhevmInstance := Some i; window_ethereum := window_ethereum b;
     Array_from_undefined := Array_from_undefined b |}.

Definition store_item {C} (key value : jsstring) (b : Browser C) : Browser C :=
  {| component := component b;
     localStorage := <[key := value]> (localStorage b);
     fhevmInstance := fhevmInstance b; window_ethereum := window_ethereum b;
     Array_from_undefined := Array_from_undefined b |}.

(** [localStorage.setItem(key, value)] *)
Definition localStorage_setItem {C} (key value : jsstring) : prog (Browser C) unit :=
  Mark (LocalStorage_setItem key value) (modify (store_item key value)).

(** [localStorage.getItem(key)]: [null] is [None]. *)
Definition localStorage_getItem {C} (key : jsstring) : prog (Browser C) (option jsstring) :=
  Look (fun b => Ret (localStorage b !! key)).

(** ** [frontend/src/utils/imageUpload.ts] *)

Module ImageUpload.
Section WithConfig.
Context (cfg : Config) {S : Type}.

Definition default_gateway : string := "https://gateway.pinata.cloud".

Definition gateway : jsstring :=
  if truthy_opt (VITE_PINATA_GATEWAY cfg)
  then show_opt (VITE_PINATA_GATEWAY cfg) EmptyString else js default_gateway.

Definition uploadToPinata (file : File) : prog S UploadResult :=
  let apiKey := VITE_PINATA_API_KEY cfg in
  let apiSecret := VITE_PINATA_API_SECRET cfg in
  if negb (truthy_opt apiKey) || negb (truthy_opt apiSecret) then
    Throw (Error_ "Pinata API credentials not configured")
  else
    ipfsHash <- call (AxiosPostPinata file (show_opt apiKey EmptyString) (show_opt apiSecret EmptyString)) ;;
    Ret {| imageUri := js "ipfs://" ++ ipfsHash;
           previewUrl := gateway ++ js "/ipfs/" ++ ipfsHash |}.

(** [reader.onerror] rejects with a fixed error. *)
Definition uploadAsBase64 (file : File) : prog S UploadResult :=
  Await (FileReaderReadAsDataURL file) (fun r =>
    match r with
    | inl _ => Throw (Error_ "Failed to read file")
    | inr base64String =>
        Ret {| imageUri := base64String; previewUrl := base64String |}
    end).

Definition maxSize : Z := 10 * 1024 * 1024.
Definition maxBase64Size : Z := 100 * 1024.

(** [Math.round(file.size / 1024)] for a non-negative integer size. *)
Definition rounded_KB (size : Z) : Z := (size + 512) / 1024.

Definition too_large_message (file : File) : string :=
  ("Image too large for on-chain storage (" ++ pretty (rounded_KB (file_size file))
     ++ "KB). " ++ "Please use an image under 100KB, or configure Pinata IPFS in .env file. "
     ++ "See .env.example for setup instructions.")%string.

Definition uploadImage (file : File) : prog S UploadResult :=
  if negb (startsWith (file_type file) (js "image/")) then
    Throw (Error_ "File must be an image")
  else if file_size file >? maxSize then
    Throw (Error_ "Image must be less than 10MB")
  else
    pinned <- try_catch
                (if truthy_opt (VITE_PINATA_API_KEY cfg)
                 then (result <- uploadToPinata file ;; Ret (Some result))
                 else Ret None)
                (fun _ => Ret None) ;;
    match pinned with
    | Some result => Ret result
    | None =>
        if file_size file >? maxBase64Size then
          Throw (Error_ (too_large_message file))
        else uploadAsBase64 file
    end.

(** [getImageUrl]; [uri.replace('ipfs://', '')] removes the prefix the
    test has just found. *)
Definition getImageUrl (uri : jsstring) : jsstring :=
  if startsWith uri (js "ipfs://")
  then gateway ++ js "/ipfs/" ++ drop 7 uri
  else uri.

End WithConfig.
End ImageUpload.

(** The other copy of [imageUpload.ts] in the repository (an unnamed
    source file): the same upload with no ceiling on the inline path. *)

Module ImageUploadCopy.
Section WithConfig.
Context (cfg : Config) {S : Type}.

Definition uploadToPinata (file : File) : prog S UploadResult :=
  let apiKey := VITE_PINATA_API_KEY cfg in
  let apiSecret := VITE_PINATA_API_SECRET cfg in
  if negb (truthy_opt apiKey) || negb (truthy_opt apiSecret) then
    Throw (Error_ "Pinata API credentials not configured")
  else
    ipfsHash <- call (AxiosPostPinata file (show_opt apiKey EmptyString) (show_opt apiSecret EmptyString)) ;;
    Ret {| imageUri := js "ipfs://" ++ ipfsHash;
           previewUrl := js "https://gateway.pinata.cloud/ipfs/" ++ ipfsHash |}.

Definition uploadImage (file : File) : prog S UploadResult :=
  if negb (startsWith (file_type file) (js "image/")) then
    Throw (Error_ "File must be an image")
  else if file_size file >? ImageUpload.maxSize then
    Throw (Error_ "Image must be less than 10MB")
  else
    pinned <- try_catch
                (if truthy_opt (VITE_PINATA_API_KEY cfg)
                 then (result <- uploadToPinata file ;; Ret (Some result))
                 else Ret None)
                (fun _ => Ret None) ;;
    match pinned with
    | Some result => Ret result
    | None => ImageUpload.uploadAsBase64 file
    end.

End WithConfig.
End ImageUploadCopy.

(** ** [frontend/src/utils/fheEncryption.ts] *)

Module FheEncryption.

(** [messageNum | (BigInt(messageBytes[i]) << BigInt(i * 8))], one turn
    of the loop. *)
Definition pack_step (messageBytes : list Z) (messageNum : Z) (i : nat) : Z :=
  Z.lor messageNum (Z.shiftl (nth i messageBytes 0) (Z.of_nat (i * 8))).

(** [for (let i = 0; i < Math.min(messageBytes.length, 32); i++)],
    started from [BigInt(0)]. *)
Definition pack_bytes (messageBytes : list Z) : Z :=
  fold_left (pack_step messageBytes)
            (seq 0 (Nat.min (length messageBytes) 32)) 0.

Definition messageNum (message : jsstring) : Z :=
  pack_bytes (TextEncoder_encode message).

Definition hex_digit (d : Z) : Z := if d <? 10 then 48 + d else 87 + d.

(** [b.toString(16).padStart(2, '0')] joined behind ['0x'] *)
Definition toHexString (bytes : list Z) : jsstring :=
  js "0x" ++ flat_map (fun b => [hex_digit (b / 16); hex_digit (b mod 16)]) bytes.

Record EncryptedMessage := {
  encryptedMessage : jsstring;
  inputProof_hex : jsstring
}.

Section WithConfig.
Context (cfg : Config) {C : Type}.

Definition initializeFHE : prog (Browser C) FhevmInstance :=
  Look (fun b =>
    match fhevmInstance b with
    | Some instance => Ret instance
    | None =>
        try_catch
          (if negb (window_ethereum b) then Throw (Error_ "MetaMask not found")
           else
             call InitSDK ;;;
             chainId <- call ProviderGetNetwork ;;
             instance <- call (CreateInstance chainId) ;;
             modify (set_fhevmInstance instance) ;;;
             Ret instance)
          (fun error => Throw error)
    end).

(** [createEncryptedInput], [add256] and [encrypt] are one call to the
    SDK; it carries the integer that is encrypted. With an empty
    [handles], [toHexString(encrypted.handles[0])] is
    [Array.from(undefined)], which throws the engine's [TypeError]. *)
Definition encryptMessage (message : jsstring) : prog (Browser C) EncryptedMessage :=
  try_catch
    (instance <- initializeFHE ;;
     signer <- call ProviderGetSigner ;;
     userAddress <- call (SignerGetAddress signer) ;;
     encrypted <- call (EncryptedInputEncrypt instance (CONTRACT_ADDRESS cfg)
                          userAddress (messageNum message)) ;;
     match handles encrypted with
     | handle :: _ =>
         Ret {| encryptedMessage := toHexString handle;
                inputProof_hex := toHexString (inputProof encrypted) |}
     | [] => Look (fun b => Throw (Error_ (Array_from_undefined b)))
     end)
    (fun error =>
       Throw (Error_ ("Failed to encrypt message: "
                        ++ message_or error "Unknown error")%string)).

(** The decryption stub: it always rejects. Entering it is marked in
    the trace. *)
Definition decryptUint256 (_encryptedHandle _contractAddress : jsstring)
  : prog (Browser C) jsstring :=
  note (Enter_decryptUint256 _encryptedHandle _contractAddress) ;;;
  Throw (Error_ ("FHE decryption requires Zama KMS integration. "
                   ++ "Message is securely encrypted on-chain.")%string).

End WithConfig.
End FheEncryption.

(** ** [frontend/src/components/HiddenNFTAppV2Simple.tsx] *)

Module V2Simple.

Inductive Tab := TabMint | TabTransfer | TabGallery.

Record NFTItem := {
  nft_tokenId : Z;
  nft_owner : jsstring;
  nft_imageUri : jsstring;
  nft_message : string
}.

(** The [useState] cells of the component, and the wallet of
    [useSimpleWallet]. *)
Record State := {
  wallet_address : option jsstring;
  wallet_isConnected : bool;
  mintValue : jsstring;
  selectedImage : option File;
  minting : bool;
  mintStatus : string;
  transferToken : jsstring;
  transferAddress : jsstring;
  transferring : bool;
  transferStatus : string;
  decryptedAttributes : gmap jsstring jsstring;
  activeDecrypt : option Z;
  decryptStatus : string;
  nfts : list NFTItem;
  activeTab : Tab;
  loadingNFTs : bool
}.

(** Writing one cell. *)

Definition with_mintValue (v : jsstring) (s : State) : State :=
  {| wallet_address := wallet_address s; wallet_isConnected := wallet_isConnected s;
     mintValue := v; selectedImage := selectedImage s;
     minting := minting s; mintStatus := mintStatus s;
     transferToken := transferToken s; transferAddress := transferAddress s;
     transferring := transferring s; transferStatus := transferStatus s;
     decryptedAttributes := decryptedAttributes s; activeDecrypt := activeDecrypt s;
     decryptStatus := decryptStatus s; nfts := nfts s;
     activeTab := activeTab s; loadingNFTs := loadingNFTs s |}.

Definition with_selectedImage (v : option File) (s : State) : State :=
  {| wallet_address := wallet_address s; wallet_isConnected := wallet_isConnected s;
     mintValue := mintValue s; selectedImage := v;
     minting := minting s; mintStatus := mintStatus s;
     transferToken := transferToken s; transferAddress := transferAddress s;
     transferring := transferring s; transferStatus := transferStatus s;
     decryptedAttributes := decryptedAttributes s; activeDecrypt := activeDecrypt s;
     decryptStatus := decryptStatus s; nfts := nfts s;
     activeTab := activeTab s; loadingNFTs := loadingNFTs s |}.

Definition with_minting (v : bool) (s : State) : State :=
  {| wallet_address := wallet_address s; wallet_isConnected := wallet_isConnected s;
     mintValue := mintValue s; selectedImage := selectedImage s;
     minting := v; mintStatus := mintStatus s;
     transferToken := transferToken s; transferAddress := transferAddress s;
     transferring := transferring s; transferStatus := transferStatus s;
     decryptedAttributes := decryptedAttributes s; activeDecrypt := activeDecrypt s;
     decryptStatus := decryptStatus s; nfts := nfts s;
     activeTab := activeTab s; loadingNFTs := loadingNFTs s |}.

Definition with_mintStatus (v : string) (s : State) : State :=
  {| wallet_address := wallet_address s; wallet_isConnected := wallet_isConnected s;
     mintValue := mintValue s; selectedImage := selectedImage s;
     minting := minting s; mintStatus := v;
     transferToken := transferToken s; transferAddress := transferAddress s;
     transferring := transferring s; transferStatus := transferStatus s;
     decryptedAttributes := decryptedAttributes s; activeDecrypt := activeDecrypt s;
     decryptStatus := decryptStatus s; nfts := nfts s;
     activeTab := activeTab s; loadingNFTs := loadingNFTs s |}.

Definition with_transferToken (v : jsstring) (s : State) : State :=
  {| wallet_address := wallet_address s; wallet_isConnected := wallet_isConnected s;
     mintValue := mintValue s; selectedImage := selectedImage s;
     minting := minting s; mintStatus := mintStatus s;
     transferToken := v; transferAddress := transferAddress s;
     transferring := transferring s; transferStatus := transferStatus s;
     decryptedAttributes := decryptedAttributes s; activeDecrypt := activeDecrypt s;
     decryptStatus := decryptStatus s; nfts := nfts s;
     activeTab := activeTab s; loadingNFTs := loadingNFTs s |}.

Definition with_transferAddress (v : jsstring) (s : State) : State :=
  {| wallet_address := wallet_address s; wallet_isConnected := wallet_isConnected s;
     mintValue := mintValue s; selectedImage := selectedImage s;
     minting := minting s; mintStatus := mintStatus s;
     transferToken := transferToken s; transferAddress := v;
     transferring := transferring s; transferStatus := transferStatus s;
     decryptedAttributes := decryptedAttributes s; activeDecrypt := activeDecrypt s;
     decryptStatus := decryptStatus s; nfts := nfts s;
     activeTab := activeTab s; loadingNFTs := loadingNFTs s |}.

Definition with_transferring (v : bool) (s : State) : State :=
  {| wallet_address := wallet_address s; wallet_isConnected := wallet_isConnected s;
     mintValue := mintValue s; selectedImage := selectedImage s;
     minting := minting s; mintStatus := mintStatus s;
     transferToken := transferToken s; transferAddress := transferAddress s;
     transferring := v; transferStatus := transferStatus s;
     decryptedAttributes := decryptedAttributes s; activeDecrypt := activeDecrypt s;
     decryptStatus := decryptStatus s; nfts := nfts s;
     activeTab := activeTab s; loadingNFTs := loadingNFTs s |}.

Definition with_transferStatus (v : string) (s : State) : State :=
  {| wallet_address := wallet_address s; wallet_isConnected := wallet_isConnected s;
     mintValue := mintValue s; selectedImage := selectedImage s;
     minting := minting s; mintStatus := mintStatus s;
     transferToken := transferToken s; transferAddress := transferAddress s;
     transferring := transferring s; transferStatus := v;
     decryptedAttributes := decryptedAttributes s; activeDecrypt := activeDecrypt s;
     decryptStatus := decryptStatus s; nfts := nfts s;
     activeTab := activeTab s; loadingNFTs := loadingNFTs s |}.

Definition with_decryptedAttributes (v : gmap jsstring jsstring) (s : State) : State :=
  {| wallet_address := wallet_address s; wallet_isConnected := wallet_isConnected s;
     mintValue := mintValue s; selectedImage := selectedImage s;
     minting := minting s; mintStatus := mintStatus s;
     transferToken := transferToken s; transferAddress := transferAddress s;
     transferring := transferring s; transferStatus := transferStatus s;
     decryptedAttributes := v; activeDecrypt := activeDecrypt s;
     decryptStatus := decryptStatus s; nfts := nfts s;
     activeTab := activeTab s; loadingNFTs := loadingNFTs s |}.

Definition with_activeDecrypt (v : option Z) (s : State) : State :=
  {| wallet_address := wallet_address s; wallet_isConnected := wallet_isConnected s;
     mintValue := mintValue s; selectedImage := selectedImage s;
     minting := minting s; mintStatus := mintStatus s;
     transferToken := transferToken s; transferAddress := transferAddress s;
     transferring := transferring s; transferStatus := transferStatus s;
     decryptedAttributes := decryptedAttributes s; activeDecrypt := v;
     decryptStatus := decryptStatus s; nfts := nfts s;
     activeTab := activeTab s; loadingNFTs := loadingNFTs s |}.

Definition with_decryptStatus (v : string) (s : State) : State :=
  {| wallet_address := wallet_address s; wallet_isConnected := wallet_isConnected s;
     mintValue := mintValue s; selectedImage := selectedImage s;
     minting := minting s; mintStatus := mintStatus s;
     transferToken := transferToken s; transferAddress := transferAddress s;
     transferring := transferring s; transferStatus := transferStatus s;
     decryptedAttributes := decryptedAttributes s; activeDecrypt := activeDecrypt s;
     decryptStatus := v; nfts := nfts s;
     activeTab := activeTab s; loadingNFTs := loadingNFTs s |}.

Definition with_activeTab (v : Tab) (s : State) : State :=
  {| wallet_address := wallet_address s; wallet_isConnected := wallet_isConnected s;
     mintValue := mintValue s; selectedImage := selectedImage s;
     minting := minting s; mintStatus := mintStatus s;
     transferToken := transferToken s; transferAddress := transferAddress s;
     transferring := transferring s; transferStatus := transferStatus s;
     decryptedAttributes := decryptedAttributes s; activeDecrypt := activeDecrypt s;
     decryptStatus := decryptStatus s; nfts := nfts s;
     activeTab := v; loadingNFTs := loadingNFTs s |}.

Abbreviation World := (Browser State).

(** The [set...] functions of [useState]. *)
Definition setMintValue (v : jsstring) : prog World unit :=
  modify (set_component (with_mintValue v)).
Definition setSelectedImage (v : option File) : prog World unit :=
  modify (set_component (with_selectedImage v)).
Definition setMinting (v : bool) : prog World unit :=
  modify (set_component (with_minting v)).
Definition setMintStatus (v : string) : prog World unit :=
  modify (set_component (with_mintStatus v)).
Definition setTransferToken (v : jsstring) : prog World unit :=
  modify (set_component (with_transferToken v)).
Definition setTransferAddress (v : jsstring) : prog World unit :=
  modify (set_component (with_transferAddress v)).
Definition setTransferring (v : bool) : prog World unit :=
  modify (set_component (with_transferring v)).
Definition setTransferStatus (v : string) : prog World unit :=
  modify (set_component (with_transferStatus v)).
Definition setDecryptedAttributes (v : gmap jsstring jsstring) : prog World unit :=
  modify (set_component (with_decryptedAttributes v)).
Definition setActiveDecrypt (v : option Z) : prog World unit :=
  modify (set_component (with_activeDecrypt v)).
Definition setDecryptStatus (v : string) : prog World unit :=
  modify (set_component (with_decryptStatus v)).
Definition setActiveTab (v : Tab) : prog World unit :=
  modify (set_component (with_activeTab v)).

(** [setDecryptedAttributes(prev => f prev)] *)
Definition updateDecryptedAttributes
    (f : gmap jsstring jsstring -> gmap jsstring jsstring) : prog World unit :=
  modify (set_component (fun s => with_decryptedAttributes (f (decryptedAttributes s)) s)).

Section WithConfig.
Context (cfg : Config).

(** [`nft_message_${wallet.address}_${tokenId}`] *)
Definition cache_key (address : option jsstring) (tokenId : jsnumber) : jsstring :=
  js "nft_message_" ++ show_opt address "null" ++ js "_" ++ Number_toString tokenId.

(** [receipt.logs[0]?.topics[3]] *)
Definition mint_event_tokenId (receipt : Receipt) : option jsstring :=
  match logs receipt with
  | log :: _ => topics log !! 3%nat
  | [] => None
  end.

Definition connected (s : State) : bool :=
  wallet_isConnected s && truthy_opt (wallet_address s).

(** [handleMint], with the state [s] of the render the form was
    submitted from. [setTimeout(() => loadNFTs(), 2000)] only schedules
    a later read of the chain and is left out. *)
Definition handleMint (s : State) : prog World unit :=
  setMintStatus EmptyString ;;;
  if negb (connected s) then
    setMintStatus "💼 Please connect your wallet first."
  else
    match selectedImage s with
    | None => setMintStatus "Please select an image for the NFT."
    | Some image =>
        if negb (truthy (trim (mintValue s))) then
          setMintStatus "Please enter a message for the NFT."
        else
          finally
            (try_catch
               (setMinting true ;;;
                setMintStatus "📤 Uploading image..." ;;;
                uploaded <- ImageUpload.uploadImage cfg image ;;
                setMintStatus "🔐 Encrypting message with FHE..." ;;;
                encrypted <- FheEncryption.encryptMessage cfg (mintValue s) ;;
                setMintStatus "🙋 Awaiting wallet confirmation..." ;;;
                signer <- call ProviderGetSigner ;;
                tx <- call (ContractMint signer
                              (FheEncryption.encryptedMessage encrypted)
                              (FheEncryption.inputProof_hex encrypted)
                              (imageUri uploaded)) ;;
                setMintStatus "⏳ Waiting for blockchain confirmation... Check Etherscan for your transaction." ;;;
                receipt <- call (TxWait tx) ;;
                match receipt with
                | Some receipt =>
                    match mint_event_tokenId receipt with
                    | Some tokenId =>
                        if truthy tokenId then
                          let tokenIdNum := Number_of_string tokenId in
                          localStorage_setItem
                            (cache_key (wallet_address s) tokenIdNum) (mintValue s)
                        else skip
                    | None => skip
                    end ;;;
                    setMintStatus "✅ NFT minted successfully! Check Etherscan for your transaction." ;;;
                    setMintValue [] ;;;
                    setSelectedImage None ;;;
                    setActiveTab TabGallery
                | None => skip
                end)
               (fun error =>
                  setMintStatus
                    ("❌ " ++ or_else (err_reason error)
                                (or_else (err_message error) "Mint failed"))%string))
            (setMinting false)
    end.

(** [handleTransfer], with the state [s] of the render. *)
Definition handleTransfer (s : State) : prog World unit :=
  setTransferStatus EmptyString ;;;
  if negb (connected s) then
    setTransferStatus "💼 Please connect your wallet first."
  else if negb (ZERO_ADDRESS_test (trim (transferAddress s))) then
    setTransferStatus "Enter a valid Ethereum address (0x...)"
  else
    let tokenId := Number_of_string (transferToken s) in
    if negb (Number_isInteger tokenId)
       || match tokenId with Num n => n <? 0 | NaN => false end then
      setTransferStatus "Enter a valid token ID (must be a number)"
    else
      finally
        (try_catch
           (setTransferring true ;;;
            setTransferStatus "🙋 Awaiting wallet confirmation..." ;;;
            signer <- call ProviderGetSigner ;;
            tx <- call (ContractTransferFrom signer
                          (show_opt (wallet_address s) "null")
                          (transferAddress s) tokenId) ;;
            setTransferStatus "⏳ Transaction submitted! Waiting for confirmation..." ;;;
            receipt <- call (TxWait tx) ;;
            match receipt with
            | Some _ =>
                setTransferStatus "✅ Transfer completed! Check Etherscan for your transaction." ;;;
                setTransferToken [] ;;;
                setTransferAddress []
            | None => skip
            end)
           (fun error =>
              setTransferStatus
                ("❌ " ++ or_else (err_reason error)
                            (or_else (err_message error) "Transfer failed"))%string))
        (setTransferring false).

(** ['🔒 Message encrypted on-chain. Only owner with local key can view.'] *)
Definition encrypted_placeholder : jsstring :=
  [55357; 56594]
    ++ js " Message encrypted on-chain. Only owner with local key can view.".

(** [decryptMessage(tokenId)], with the state [s] of the render whose
    Reveal button was clicked. *)
Definition decryptMessage (s : State) (tokenId : Z) : prog World unit :=
  finally
    (try_catch
       (setActiveDecrypt (Some tokenId) ;;;
        setDecryptStatus EmptyString ;;;
        match find (fun n => nft_tokenId n =? tokenId) (nfts s) with
        | None => Throw (Error_ "NFT not found")
        | Some nft =>
            localMessage <- localStorage_getItem
                              (cache_key (wallet_address s) (Num tokenId)) ;;
            if truthy_opt localMessage then
              updateDecryptedAttributes
                (insert (Number_toString (Num tokenId)) (show_opt localMessage EmptyString)) ;;;
              setDecryptStatus "✅ Message revealed from local storage!" ;;;
              setActiveDecrypt None
            else
              setDecryptStatus "🔐 Decrypting with FHE..." ;;;
              encryptedHandle <- call (ContractGetEncryptedMessage tokenId) ;;
              try_catch
                (decryptedMessage <- FheEncryption.decryptUint256
                                       encryptedHandle (CONTRACT_ADDRESS cfg) ;;
                 updateDecryptedAttributes
                   (insert (Number_toString (Num tokenId)) decryptedMessage) ;;;
                 setDecryptStatus "✅ Message decrypted!")
                (fun decryptError =>
                   updateDecryptedAttributes
                     (insert (Number_toString (Num tokenId)) encrypted_placeholder) ;;;
                   setDecryptStatus "ℹ️ Message is FHE-encrypted on blockchain")
        end)
       (fun error =>
          setDecryptStatus
            ("❌ " ++ or_else (err_message error) "Reveal failed")%string))
    (setActiveDecrypt None).

(** *** The gallery as the user sees it *)

(** The message box of a card: the revealed text, or "Message hidden". *)
Definition displayed (s : State) (tokenId : Z) : option jsstring :=
  match decryptedAttributes s !! Number_toString (Num tokenId) with
  | Some text => if truthy text then Some text else None
  | None => None
  end.

(** The Reveal button of token [tokenId] is on the page and enabled. *)
Definition reveal_enabled (s : State) (tokenId : Z) : bool :=
  match activeTab s with
  | TabGallery =>
      wallet_isConnected s && negb (loadingNFTs s)
      && existsb (fun n => nft_tokenId n =? tokenId) (nfts s)
      && negb match activeDecrypt s with
              | Some active => active =? tokenId
              | None => false
              end
  | _ => false
  end.

(** *** Reveals in flight

    A reveal that waits for an answer is a task: the token it was
    started for, the call it waits on, the trace at the time of the
    call, and what it does with the answer. *)

Record Task := {
  task_token : Z;
  task_call : Call;
  task_asked : list Event;
  task_cont : JsError + resp task_call -> prog World unit
}.

Record Page := {
  browser : World;
  history : list Event;
  pending : list Task
}.

Inductive Input :=
| ClickReveal (tokenId : Z)
| Settle (n : nat).

(** Run [p] until it finishes or waits, and file it under [tokenId]. *)
Definition proceed (tokenId : Z) (p : prog World unit) (w : World)
    (t : list Event) (others : list Task) : Page :=
  match advance p w t with
  | (Done _, w', t') => {| browser := w'; history := t'; pending := others |}
  | (Waiting c k, w', t') =>
      {| browser := w'; history := t';
         pending := others ++ [{| task_token := tokenId; task_call := c;
                                  task_asked := t; task_cont := k |}] |}
  end.

(** One turn of the event loop: a click on an enabled Reveal button
    starts [decryptMessage]; the [n]-th pending call settles and its
    reveal goes on. *)
Definition step (o : Oracle) (i : Input) (pg : Page) : option Page :=
  match i with
  | ClickReveal tokenId =>
      let s := component (browser pg) in
      if reveal_enabled s tokenId
      then Some (proceed tokenId (decryptMessage s tokenId)
                   (browser pg) (history pg) (pending pg))
      else None
  | Settle n =>
      match pending pg !! n with
      | Some task =>
          Some (proceed (task_token task)
                  (task_cont task (o (task_asked task) (task_call task)))
                  (browser pg) (history pg)
                  (take n (pending pg) ++ drop (S n) (pending pg)))
      | None => None
      end
  end.

Fixpoint steps (o : Oracle) (inputs : list Input) (pg : Page) : option Page :=
  match inputs with
  | [] => Some pg
  | i :: rest =>
      match step o i pg with
      | Some pg' => steps o rest pg'
      | None => None
      end
  end.

(** The tokens with a reveal in flight, one entry per reveal. *)
Definition in_flight (pg : Page) : list Z := map task_token (pending pg).

End WithConfig.
End V2Simple.

(** ** [frontend/src/components/HiddenNFTApp.tsx]: the reveal *)

Module HiddenNFTApp.

(** The hooks the reveal reads ([useAccount], [usePublicClient],
    [useZamaInstance]) and its [useState] cells. *)
Record State := {
  address : option jsstring;
  isConnected : bool;
  publicClient : bool;
  instance : option FhevmInstance;
  decryptedAttributes : gmap jsstring jsstring;
  activeDecrypt : option Z;
  decryptStatus : string
}.

Definition with_decryptedAttributes (v : gmap jsstring jsstring) (s : State) : State :=
  {| address := address s; isConnected := isConnected s;
     publicClient := publicClient s; instance := instance s;
     decryptedAttributes := v; activeDecrypt := activeDecrypt s;
     decryptStatus := decryptStatus s |}.

Definition with_activeDecrypt (v : option Z) (s : State) : State :=
  {| address := address s; isConnected := isConnected s;
     publicClient := publicClient s; instance := instance s;
     decryptedAttributes := decryptedAttributes s; activeDecrypt := v;
     decryptStatus := decryptStatus s |}.

Definition with_decryptStatus (v : string) (s : State) : State :=
  {| address := address s; isConnected := isConnected s;
     publicClient := publicClient s; instance := instance s;
     decryptedAttributes := decryptedAttributes s;
     activeDecrypt := activeDecrypt s; decryptStatus := v |}.

Abbreviation World := (Browser State).

Definition setActiveDecrypt (v : option Z) : prog World unit :=
  modify (set_component (with_activeDecrypt v)).
Definition setDecryptStatus (v : string) : prog World unit :=
  modify (set_component (with_decryptStatus v)).
Definition updateDecryptedAttributes
    (f : gmap jsstring jsstring -> gmap jsstring jsstring) : prog World unit :=
  modify (set_component (fun s => with_decryptedAttributes (f (decryptedAttributes s)) s)).

(** [Boolean(isConnected && address)] *)
Definition hasWallet (s : State) : bool :=
  isConnected s && truthy_opt (address s).

(** [!handle || handle === '0x' || handle === '0x00'] *)
Definition empty_handle (handle : jsstring) : bool :=
  negb (truthy handle)
  || bool_decide (handle = js "0x") || bool_decide (handle = js "0x00").

(** [signature.replace(/^0x/, '')] *)
Definition strip_0x (s : jsstring) : jsstring :=
  if startsWith s (js "0x") then drop 2 s else s.

Section WithConfig.
Context (cfg : Config).

Definition decryptMessage (s : State) (tokenId : Z) : prog World unit :=
  match instance s with
  | Some instance =>
      if negb (hasWallet s) || negb (publicClient s) then
        setDecryptStatus "Encryption service is not ready."
      else
        finally
          (try_catch
             (setActiveDecrypt (Some tokenId) ;;;
              setDecryptStatus EmptyString ;;;
              handle <- call (PublicClientReadEncryptedMessage tokenId) ;;
              if empty_handle handle then
                Throw (Error_ "Message is empty for this token.")
              else
                keypair <- call (InstanceGenerateKeypair instance) ;;
                now <- call DateNow ;;
                let startTimestamp := js (pretty (now / 1000)) in
                let durationDays := js "7" in
                let contractAddresses := [CONTRACT_ADDRESS cfg] in
                eip712 <- call (InstanceCreateEIP712 instance (publicKey keypair)
                                  contractAddresses startTimestamp durationDays) ;;
                signer <- call SignerPromise ;;
                match signer with
                | None => Throw (Error_ "Wallet signer unavailable")
                | Some signer =>
                    signature <- call (SignerSignTypedData signer eip712) ;;
                    decryptedValue <-
                      call (InstanceUserDecrypt instance handle (CONTRACT_ADDRESS cfg)
                              keypair (strip_0x signature)
                              (show_opt (address s) "null")
                              startTimestamp durationDays) ;;
                    if truthy_opt decryptedValue then
                      updateDecryptedAttributes
                        (insert (js (pretty tokenId)) (show_opt decryptedValue EmptyString))
                    else Throw (Error_ "Decryption did not return a value.")
                end)
             (fun error => setDecryptStatus (message_or error "Decryption failed")))
          (setActiveDecrypt None)
  | None => setDecryptStatus "Encryption service is not ready."
  end.

End WithConfig.

(** The calls into the FHE collaborator that make up a decryption. *)
Definition is_decryption (e : Event) : bool :=
  match e with
  | Called (InstanceGenerateKeypair _) => true
  | Called (InstanceCreateEIP712 _ _ _ _ _) => true
  | Called (InstanceUserDecrypt _ _ _ _ _ _ _ _) => true
  | _ => false
  end.

End HiddenNFTApp.

(** ** The contract [HiddenAttributeNFT]

    State and entry points of the contract. The ERC-721 base it inherits
    (OpenZeppelin 5) is written out for ownership and approvals; the
    index kept by [ERC721Enumerable] and events are not part of the
    model. A call either reverts, leaving the storage as it was, or
    returns with a new storage. The callback [onERC721Received] of a
    receiver is here its answer only: these entry points are the calls
    of receivers that do not call the contract back. The calls a
    receiver makes from its callback are followed in [Reentrancy]
    below. *)

Module HiddenAttributeNFT.

Abbreviation address := Z.

Definition uint256 (x : Z) : Z := x mod 2 ^ 256.

Inductive Revert :=
| AttributeNotInitialized (tokenId : Z)
| ERC721NonexistentToken (tokenId : Z)
| ERC721InvalidReceiver (receiver : address)
| ERC721InvalidSender (sender : address)
| ERC721IncorrectOwner (sender : address) (tokenId : Z) (owner : address)
| ERC721InsufficientApproval (operator : address) (tokenId : Z)
| ERC721InvalidApprover (approver : address)
| ERC721InvalidOperator (operator : address)
| OwnableUnauthorizedAccount (account : address)
| OwnableInvalidOwner (owner : address)
| InvalidInputProof.

(** Storage of the ERC-721 base. A Solidity mapping reads as zero where
    nothing was written. *)
Record ERC721 := {
  _owners : gmap Z address;
  _balances : gmap address Z;
  _tokenApprovals : gmap Z address;
  _operatorApprovals : gset (address * address)
}.

(** Storage of the contract; [acl] is the access list kept by the FHE
    library: the (handle, account) pairs allowed to decrypt. *)
Record Storage := {
  erc721 : ERC721;
  _owner : address;
  _nextTokenId : Z;
  _baseTokenURI : jsstring;
  _tokenMessages : gmap Z Z;
  _tokenImageURIs : gmap Z jsstring;
  acl : gset (Z * address)
}.

(** What the contract relies on from outside: its own address, the FHE
    library's check of an external input, and whether a receiver
    accepts a safe transfer. *)
Record Host := {
  this : address;
  FHE_fromExternal : Z -> list Z -> address -> option Z;
  onERC721Received : address -> Z -> bool
}.

Definition result (A : Type) : Type := Revert + A.

(** [FHE.isInitialized] *)
Definition FHE_isInitialized (handle : Z) : bool := negb (handle =? 0).

Definition message_of (s : Storage) (tokenId : Z) : Z :=
  default 0 (_tokenMessages s !! tokenId).

Definition imageURI_of (s : Storage) (tokenId : Z) : jsstring :=
  default [] (_tokenImageURIs s !! tokenId).

Definition _ownerOf (e : ERC721) (tokenId : Z) : address :=
  default 0 (_owners e !! tokenId).

Definition balance (e : ERC721) (a : address) : Z :=
  default 0 (_balances e !! a).

Definition _getApproved (e : ERC721) (tokenId : Z) : address :=
  default 0 (_tokenApprovals e !! tokenId).

Definition isApprovedForAll (e : ERC721) (owner operator : address) : bool :=
  bool_decide ((owner, operator) ∈ _operatorApprovals e).

Definition exists_token (s : Storage) (tokenId : Z) : Prop :=
  _ownerOf (erc721 s) tokenId <> 0.

(** [ownerOf]: [_requireOwned] *)
Definition ownerOf (s : Storage) (tokenId : Z) : result address :=
  let owner := _ownerOf (erc721 s) tokenId in
  if owner =? 0 then inl (ERC721NonexistentToken tokenId) else inr owner.

Definition _isAuthorized (e : ERC721) (owner spender : address) (tokenId : Z) : bool :=
  negb (spender =? 0)
  && ((owner =? spender) || isApprovedForAll e owner spender
      || (_getApproved e tokenId =? spender)).

(** [ERC721._update] *)
Definition super_update (to : address) (tokenId : Z) (auth : address) (e : ERC721)
  : result (address * ERC721) :=
  let from := _ownerOf e tokenId in
  if negb (auth =? 0) && negb (_isAuthorized e from auth tokenId) then
    if from =? 0 then inl (ERC721NonexistentToken tokenId)
    else inl (ERC721InsufficientApproval auth tokenId)
  else
    let approvals :=
      if from =? 0 then _tokenApprovals e else delete tokenId (_tokenApprovals e) in
    let balances1 :=
      if from =? 0 then _balances e
      else <[from := uint256 (balance e from - 1)]> (_balances e) in
    let balances2 :=
      if to =? 0 then balances1
      else <[to := uint256 (default 0 (balances1 !! to) + 1)]> balances1 in
    inr (from, {| _owners := <[tokenId := to]> (_owners e);
                  _balances := balances2;
                  _tokenApprovals := approvals;
                  _operatorApprovals := _operatorApprovals e |}).

Definition with_erc721 (e : ERC721) (s : Storage) : Storage :=
  {| erc721 := e; _owner := _owner s; _nextTokenId := _nextTokenId s;
     _baseTokenURI := _baseTokenURI s; _tokenMessages := _tokenMessages s;
     _tokenImageURIs := _tokenImageURIs s; acl := acl s |}.

(** [FHE.allow(handle, account)] *)
Definition FHE_allow (handle : Z) (account : address) (s : Storage) : Storage :=
  {| erc721 := erc721 s; _owner := _owner s; _nextTokenId := _nextTokenId s;
     _baseTokenURI := _baseTokenURI s; _tokenMessages := _tokenMessages s;
     _tokenImageURIs := _tokenImageURIs s;
     acl := {[ (handle, account) ]} ∪ acl s |}.

Section WithHost.
Context (host : Host).

(** [FHE.allowThis(handle)] *)
Definition FHE_allowThis (handle : Z) (s : Storage) : Storage :=
  FHE_allow handle (this host) s.

(** The override of [_update]: the inherited bookkeeping, then the new
    owner is allowed on the stored message. *)
Definition _update (to : address) (tokenId : Z) (auth : address) (s : Storage)
  : result (address * Storage) :=
  match super_update to tokenId auth (erc721 s) with
  | inl r => inl r
  | inr (previousOwner, e) =>
      let s1 := with_erc721 e s in
      let s2 :=
        if negb (to =? 0) then
          let message := message_of s1 tokenId in
          if FHE_isInitialized message
          then FHE_allowThis message (FHE_allow message to s1)
          else s1
        else s1 in
      inr (previousOwner, s2)
  end.

Definition _mint (to : address) (tokenId : Z) (s : Storage) : result Storage :=
  if to =? 0 then inl (ERC721InvalidReceiver 0)
  else
    match _update to tokenId 0 s with
    | inl r => inl r
    | inr (previousOwner, s') =>
        if negb (previousOwner =? 0) then inl (ERC721InvalidSender 0) else inr s'
    end.

(** [_safeMint]: [_mint], then the answer of the receiver's callback
    (an account without code has none and is accepted). *)
Definition _safeMint (to : address) (tokenId : Z) (s : Storage) : result Storage :=
  match _mint to tokenId s with
  | inl r => inl r
  | inr s' =>
      if onERC721Received host to tokenId then inr s'
      else inl (ERC721InvalidReceiver to)
  end.

(** [mint(encryptedMessage, inputProof, imageURI)] sent by [sender],
    for a sender whose callback, if it has one, does not call the
    contract back ([Reentrancy.run] is the general case: the callback
    runs inside [_safeMint], before the message is stored). *)
Definition mint (sender : address) (encryptedMessage : Z) (inputProof : list Z)
    (imageURI : jsstring) (s : Storage) : result (Z * Storage) :=
  let tokenId := _nextTokenId s in
  let s1 := {| erc721 := erc721 s; _owner := _owner s;
               _nextTokenId := uint256 (tokenId + 1);
               _baseTokenURI := _baseTokenURI s;
               _tokenMessages := _tokenMessages s;
               _tokenImageURIs := _tokenImageURIs s; acl := acl s |} in
  match _safeMint sender tokenId s1 with
  | inl r => inl r
  | inr s2 =>
      match FHE_fromExternal host encryptedMessage inputProof sender with
      | None => inl InvalidInputProof
      | Some message =>
          let s3 := {| erc721 := erc721 s2; _owner := _owner s2;
                       _nextTokenId := _nextTokenId s2;
                       _baseTokenURI := _baseTokenURI s2;
                       _tokenMessages := <[tokenId := message]> (_tokenMessages s2);
                       _tokenImageURIs := <[tokenId := imageURI]> (_tokenImageURIs s2);
                       acl := acl s2 |} in
          inr (tokenId, FHE_allow message sender (FHE_allowThis message s3))
      end
  end.

(** [getEncryptedMessage(tokenId)] *)
Definition getEncryptedMessage (s : Storage) (tokenId : Z) : result Z :=
  match ownerOf s tokenId with
  | inl r => inl r
  | inr _ =>
      let message := message_of s tokenId in
      if negb (FHE_isInitialized message) then inl (AttributeNotInitialized tokenId)
      else inr message
  end.

(** [getTokenImageURI(tokenId)] *)
Definition getTokenImageURI (s : Storage) (tokenId : Z) : result jsstring :=
  match ownerOf s tokenId with
  | inl r => inl r
  | inr _ => inr (imageURI_of s tokenId)
  end.

(** [transferFrom(from, to, tokenId)] sent by [sender] *)
Definition transferFrom (sender from to : address) (tokenId : Z) (s : Storage)
  : result Storage :=
  if to =? 0 then inl (ERC721InvalidReceiver 0)
  else
    match _update to tokenId sender s with
    | inl r => inl r
    | inr (previousOwner, s') =>
        if negb (previousOwner =? from)
        then inl (ERC721IncorrectOwner from tokenId previousOwner)
        else inr s'
    end.

(** [safeTransferFrom]: [transferFrom], then the answer of the
    receiver's callback. *)
Definition safeTransferFrom (sender from to : address) (tokenId : Z) (s : Storage)
  : result Storage :=
  match transferFrom sender from to tokenId s with
  | inl r => inl r
  | inr s' =>
      if onERC721Received host to tokenId then inr s'
      else inl (ERC721InvalidReceiver to)
  end.

(** [approve(to, tokenId)] sent by [sender] *)
Definition approve (sender to : address) (tokenId : Z) (s : Storage) : result Storage :=
  match ownerOf s tokenId with
  | inl r => inl r
  | inr owner =>
      if negb (sender =? 0) && negb (owner =? sender)
         && negb (isApprovedForAll (erc721 s) owner sender)
      then inl (ERC721InvalidApprover sender)
      else
        let e := erc721 s in
        inr (with_erc721 {| _owners := _owners e; _balances := _balances e;
                            _tokenApprovals := <[tokenId := to]> (_tokenApprovals e);
                            _operatorApprovals := _operatorApprovals e |} s)
  end.

(** [setApprovalForAll(operator, approved)] sent by [sender] *)
Definition setApprovalForAll (sender operator : address) (approved : bool) (s : Storage)
  : result Storage :=
  if operator =? 0 then inl (ERC721InvalidOperator operator)
  else
    let e := erc721 s in
    let ops := if approved then {[ (sender, operator) ]} ∪ _operatorApprovals e
               else _operatorApprovals e ∖ {[ (sender, operator) ]} in
    inr (with_erc721 {| _owners := _owners e; _balances := _balances e;
                        _tokenApprovals := _tokenApprovals e;
                        _operatorApprovals := ops |} s).

Definition with_owner_and_uri (owner : address) (uri : jsstring) (s : Storage) : Storage :=
  {| erc721 := erc721 s; _owner := owner; _nextTokenId := _nextTokenId s;
     _baseTokenURI := uri; _tokenMessages := _tokenMessages s;
     _tokenImageURIs := _tokenImageURIs s; acl := acl s |}.

(** [setBaseTokenURI(newBaseURI)], [onlyOwner] *)
Definition setBaseTokenURI (sender : address) (newBaseURI : jsstring) (s : Storage)
  : result Storage :=
  if negb (_owner s =? sender) then inl (OwnableUnauthorizedAccount sender)
  else inr (with_owner_and_uri (_owner s) newBaseURI s).

(** [Ownable.transferOwnership] and [renounceOwnership] *)
Definition transferOwnership (sender newOwner : address) (s : Storage) : result Storage :=
  if negb (_owner s =? sender) then inl (OwnableUnauthorizedAccount sender)
  else if newOwner =? 0 then inl (OwnableInvalidOwner 0)
  else inr (with_owner_and_uri newOwner (_baseTokenURI s) s).

Definition renounceOwnership (sender : address) (s : Storage) : result Storage :=
  if negb (_owner s =? sender) then inl (OwnableUnauthorizedAccount sender)
  else inr (with_owner_and_uri 0 (_baseTokenURI s) s).

(** The state-changing entry points. *)
Inductive Msg :=
| Mint (encryptedMessage : Z) (inputProof : list Z) (imageURI : jsstring)
| TransferFrom (from to : address) (tokenId : Z)
| SafeTransferFrom (from to : address) (tokenId : Z)
| Approve (to : address) (tokenId : Z)
| SetApprovalForAll (operator : address) (approved : bool)
| SetBaseTokenURI (newBaseURI : jsstring)
| TransferOwnership (newOwner : address)
| RenounceOwnership.

Definition execute (sender : address) (m : Msg) (s : Storage) : result Storage :=
  match m with
  | Mint encryptedMessage inputProof imageURI =>
      match mint sender encryptedMessage inputProof imageURI s with
      | inl r => inl r
      | inr (_, s') => inr s'
      end
  | TransferFrom from to tokenId => transferFrom sender from to tokenId s
  | SafeTransferFrom from to tokenId => safeTransferFrom sender from to tokenId s
  | Approve to tokenId => approve sender to tokenId s
  | SetApprovalForAll operator approved => setApprovalForAll sender operator approved s
  | SetBaseTokenURI newBaseURI => setBaseTokenURI sender newBaseURI s
  | TransferOwnership newOwner => transferOwnership sender newOwner s
  | RenounceOwnership => renounceOwnership sender s
  end.

(** A block of transactions; a reverted one changes nothing. *)
Fixpoint execute_all (txs : list (address * Msg)) (s : Storage) : Storage :=
  match txs with
  | [] => s
  | (sender, m) :: rest =>
      match execute sender m s with
      | inl _ => execute_all rest s
      | inr s' => execute_all rest s'
      end
  end.

End WithHost.

(** The storage left by the constructor, deployed by [deployer]. *)
Definition deployed (deployer : address) (baseTokenURI_ : jsstring) : Storage :=
  {| erc721 := {| _owners := ∅; _balances := ∅; _tokenApprovals := ∅;
                  _operatorApprovals := ∅ |};
     _owner := deployer; _nextTokenId := 1; _baseTokenURI := baseTokenURI_;
     _tokenMessages := ∅; _tokenImageURIs := ∅; acl := ∅ |}.

Definition revert_name (r : Revert) : string :=
  match r with
  | AttributeNotInitialized _ => "AttributeNotInitialized"
  | ERC721NonexistentToken _ => "ERC721NonexistentToken"
  | ERC721InvalidReceiver _ => "ERC721InvalidReceiver"
  | ERC721InvalidSender _ => "ERC721InvalidSender"
  | ERC721IncorrectOwner _ _ _ => "ERC721IncorrectOwner"
  | ERC721InsufficientApproval _ _ => "ERC721InsufficientApproval"
  | ERC721InvalidApprover _ => "ERC721InvalidApprover"
  | ERC721InvalidOperator _ => "ERC721InvalidOperator"
  | OwnableUnauthorizedAccount _ => "OwnableUnauthorizedAccount"
  | OwnableInvalidOwner _ => "OwnableInvalidOwner"
  | InvalidInputProof => "InvalidInputProof"
  end.

(** A [bytes32] as the client library returns it: [0x] and 64 digits. *)
Definition bytes32_hex (value : Z) : jsstring :=
  FheEncryption.toHexString (rev (Z_to_little_endian 32 8 value)).

End HiddenAttributeNFT.

(** ** The client reading the chain

    The read of [getEncryptedMessage] made by the reveal resolves to what
    the contract returns on the storage [s], and rejects with the name
    of the custom error when the contract reverts. *)

Definition read_encrypted_message
    (s : HiddenAttributeNFT.Storage) (tokenId : Z) : JsError + jsstring :=
  match HiddenAttributeNFT.getEncryptedMessage s tokenId with
  | inl r =>
      inl (Error_ ("The contract function getEncryptedMessage reverted: "
                     ++ HiddenAttributeNFT.revert_name r)%string)
  | inr handle => inr (HiddenAttributeNFT.bytes32_hex handle)
  end.

Definition reads_chain (o : Oracle) (s : HiddenAttributeNFT.Storage) : Prop :=
  forall t tokenId,
    o t (PublicClientReadEncryptedMessage tokenId) = read_encrypted_message s tokenId
    /\ o t (ContractGetEncryptedMessage tokenId) = read_encrypted_message s tokenId.

(** ** What the properties observe in a trace *)

Definition rejected {A} (r : JsError + A) : Prop :=
  match r with inl _ => True | inr _ => False end.

(** [P before e after] for every event [e] of [new], where [before] is
    the whole trace up to [e] and [after] what follows it in [new]. *)
Fixpoint each_event (P : list Event -> Event -> list Event -> Prop)
    (t new : list Event) : Prop :=
  match new with
  | [] => True
  | e :: rest => P t e rest /\ each_event P (t ++ [e]) rest
  end.

(** The steps of one mint. Asking the wallet for its signer is done both
    while encrypting and before submitting and is no step of its own. *)
Inductive MintStep :=
| UploadImage | EncryptMessage | SubmitTransaction | AwaitConfirmation | WriteCache.

Definition rank (st : MintStep) : nat :=
  match st with
  | UploadImage => 0 | EncryptMessage => 1 | SubmitTransaction => 2
  | AwaitConfirmation => 3 | WriteCache => 4
  end.

Definition mint_step (e : Event) : option MintStep :=
  match e with
  | Called (AxiosPostPinata _ _ _) => Some UploadImage
  | Called (FileReaderReadAsDataURL _) => Some UploadImage
  | Called InitSDK => Some EncryptMessage
  | Called ProviderGetNetwork => Some EncryptMessage
  | Called (CreateInstance _) => Some EncryptMessage
  | Called (SignerGetAddress _) => Some EncryptMessage
  | Called (EncryptedInputEncrypt _ _ _ _) => Some EncryptMessage
  | Called (ContractMint _ _ _ _) => Some SubmitTransaction
  | Called (TxWait _) => Some AwaitConfirmation
  | Did (LocalStorage_setItem _ _) => Some WriteCache
  | _ => None
  end.

(** [a] may be followed by [b]: a later step, or one more call of the
    upload or of the encryption. *)
Definition precedes (a b : MintStep) : Prop :=
  (rank a < rank b)%nat \/ (a = b /\ (rank a <= 1)%nat).

(** The event belongs to a step after [st]. *)
Definition later_than (st : MintStep) (e : Event) : Prop :=
  match mint_step e with
  | Some st' => (rank st < rank st')%nat
  | None => False
  end.

(** The upload falls back to the inline encoding when the pinning
    service fails: the only rejected call that a mint survives. *)
Definition falls_back (c : Call) : Prop :=
  match c with AxiosPostPinata _ _ _ => True | _ => False end.

Definition is_decryptUint256 (e : Event) : bool :=
  match e with Did (Enter_decryptUint256 _ _) => true | _ => false end.

Definition is_chain_read (e : Event) : bool :=
  match e with
  | Called (ContractGetEncryptedMessage _) => true
  | Called (PublicClientReadEncryptedMessage _) => true
  | _ => false
  end.

(** The steps a trace goes through, in the order of its events. *)
Fixpoint mint_steps (new : list Event) : list MintStep :=
  match new with
  | [] => []
  | e :: rest =>
      match mint_step e with
      | Some st => st :: mint_steps rest
      | None => mint_steps rest
      end
  end.

(** The token is on the gallery of the render [s]. *)
Definition listed (s : V2Simple.State) (tokenId : Z) : Prop :=
  exists n, In n (V2Simple.nfts s) /\ V2Simple.nft_tokenId n = tokenId.

(** The two errors of [uploadImage] that speak of the size of the file. *)
Definition size_error (file : File) : JsError :=
  Error_ (if file_size file >? ImageUpload.maxSize
          then "Image must be less than 10MB"
          else ImageUpload.too_large_message file).

Definition mintStatus_after (r : (JsError + unit) * V2Simple.World * list Event) : string :=
  V2Simple.mintStatus (component (final r)).

Definition transferStatus_after (r : (JsError + unit) * V2Simple.World * list Event) : string :=
  V2Simple.transferStatus (component (final r)).

(** Token [tokenId] is still there in [s'], with the message and the
    image it had in [s]. *)
Definition kept (s s' : HiddenAttributeNFT.Storage) (tokenId : Z) : Prop :=
  HiddenAttributeNFT.exists_token s' tokenId
  /\ HiddenAttributeNFT.message_of s' tokenId = HiddenAttributeNFT.message_of s tokenId
  /\ HiddenAttributeNFT.imageURI_of s' tokenId = HiddenAttributeNFT.imageURI_of s tokenId.


(** ** Concrete data for the examples *)

Module Sample.

(** No pinning service configured; the contract of the README. *)
Definition cfg : Config :=
  {| VITE_PINATA_API_KEY := None; VITE_PINATA_API_SECRET := None;
     VITE_PINATA_GATEWAY := None;
     CONTRACT_ADDRESS := js "0xb23e1c3E307C161bc97cF1540e730e36d98755e2" |}.

Definition alice : jsstring := js "0x1111111111111111111111111111111111111111".
Definition bob : jsstring := js "0x2222222222222222222222222222222222222222".

Definition png (size : Z) : File :=
  {| file_name := js "picture.png"; file_type := js "image/png"; file_size := size |}.

Definition data_url : jsstring := js "data:image/png;base64,iVBORw0KGgo=".

(** The 32-byte topic of token [3]. *)
Definition topic3 : jsstring := js "0x" ++ repeat 48 63 ++ js "3".

Definition mint_receipt : Receipt :=
  {| logs := [ {| topics := [js "0xddf252ad"; js "0x0"; alice; topic3] |} ] |}.

(** The ciphertext handle stored for [tokenId]. *)
Definition handle (tokenId : Z) : jsstring :=
  js "0x" ++ repeat 55 60 ++ js (pretty (1000 + tokenId)).

(** A world in which every collaborator answers. *)
Definition helpful : Oracle :=
  fun _ c =>
    match c return JsError + resp c with
    | AxiosPostPinata _ _ _ => inr (js "QmHash")
    | FileReaderReadAsDataURL _ => inr data_url
    | InitSDK => inr tt
    | ProviderGetNetwork => inr 11155111
    | CreateInstance chainId => inr {| instance_chainId := chainId |}
    | ProviderGetSigner => inr {| signer_id := 1 |}
    | SignerGetAddress _ => inr alice
    | EncryptedInputEncrypt _ _ _ _ =>
        inr {| handles := [[171; 205]]; inputProof := [1; 2; 3] |}
    | ContractMint _ _ _ _ => inr {| tx_hash := js "0xaaaa" |}
    | ContractTransferFrom _ _ _ _ => inr {| tx_hash := js "0xbbbb" |}
    | TxWait _ => inr (Some mint_receipt)
    | ContractGetEncryptedMessage tokenId => inr (handle tokenId)
    | PublicClientReadEncryptedMessage tokenId => inr (handle tokenId)
    | InstanceGenerateKeypair _ => inr {| publicKey := js "pk"; privateKey := js "sk" |}
    | DateNow => inr 1700000000000
    | InstanceCreateEIP712 _ _ _ _ _ => inr {| eip712_payload := js "typed" |}
    | SignerPromise => inr (Some {| signer_id := 1 |})
    | SignerSignTypedData _ _ => inr (js "0xsigned")
    | InstanceUserDecrypt _ _ _ _ _ _ _ _ => inr (Some (js "42"))
    end.

Definition nft (tokenId : Z) : V2Simple.NFTItem :=
  {| V2Simple.nft_tokenId := tokenId; V2Simple.nft_owner := alice;
     V2Simple.nft_imageUri := data_url;
     V2Simple.nft_message := "[Encrypted on-chain with FHE]" |}.

(** The component as mounted, with [alice] connected. *)
Definition mounted : V2Simple.State :=
  {| V2Simple.wallet_address := Some alice; V2Simple.wallet_isConnected := true;
     V2Simple.mintValue := []; V2Simple.selectedImage := None;
     V2Simple.minting := false; V2Simple.mintStatus := EmptyString;
     V2Simple.transferToken := []; V2Simple.transferAddress := [];
     V2Simple.transferring := false; V2Simple.transferStatus := EmptyString;
     V2Simple.decryptedAttributes := ∅; V2Simple.activeDecrypt := None;
     V2Simple.decryptStatus := EmptyString;
     V2Simple.nfts := []; V2Simple.activeTab := V2Simple.TabMint;
     V2Simple.loadingNFTs := false |}.

Definition browser_of {C} (c : C) (store : gmap jsstring jsstring) : Browser C :=
  {| component := c; localStorage := store; fhevmInstance := None;
     window_ethereum := true;
     Array_from_undefined := "undefined is not iterable" |}.

(** The mint form filled in with [message] and [image]. *)
Definition mint_form (message : jsstring) (image : File) : V2Simple.State :=
  V2Simple.with_selectedImage (Some image) (V2Simple.with_mintValue message mounted).

(** The transfer tab, its form filled in. *)
Definition transfer_form (token address : jsstring) (s : V2Simple.State) : V2Simple.State :=
  V2Simple.with_activeTab V2Simple.TabTransfer
    (V2Simple.with_transferAddress address (V2Simple.with_transferToken token s)).

(** The gallery tab showing [tokens]. *)
Definition gallery (tokens : list Z) (revealed : gmap jsstring jsstring) : V2Simple.State :=
  {| V2Simple.wallet_address := Some alice; V2Simple.wallet_isConnected := true;
     V2Simple.mintValue := []; V2Simple.selectedImage := None;
     V2Simple.minting := false; V2Simple.mintStatus := EmptyString;
     V2Simple.transferToken := []; V2Simple.transferAddress := [];
     V2Simple.transferring := false; V2Simple.transferStatus := EmptyString;
     V2Simple.decryptedAttributes := revealed; V2Simple.activeDecrypt := None;
     V2Simple.decryptStatus := EmptyString;
     V2Simple.nfts := map nft tokens; V2Simple.activeTab := V2Simple.TabGallery;
     V2Simple.loadingNFTs := false |}.

(** As [helpful], with a wallet library that refuses a recipient
    which is not exactly an address. *)
Definition strict : Oracle :=
  fun t c =>
    match c return JsError + resp c with
    | ContractTransferFrom _ _ to _ =>
        if ZERO_ADDRESS_test to then inr {| tx_hash := js "0xbbbb" |}
        else inl (Error_ "invalid address")
    | c => helpful t c
    end.

(** The gallery of two tokens, nothing cached, nothing in flight. *)
Definition two_tokens : V2Simple.Page :=
  {| V2Simple.browser := browser_of (gallery [1; 2] ∅) ∅;
     V2Simple.history := []; V2Simple.pending := [] |}.

(** A chain where handles are checked by nobody and every receiver
    accepts. *)
Definition host : HiddenAttributeNFT.Host :=
  {| HiddenAttributeNFT.this := 999;
     HiddenAttributeNFT.FHE_fromExternal := fun external _ _ => Some (external + 1);
     HiddenAttributeNFT.onERC721Received := fun _ _ => true |}.

(** Account 17 mints token 1, then hands it over to account 18. *)
Definition mint_by_17 : list (Z * HiddenAttributeNFT.Msg) :=
  [ (17, HiddenAttributeNFT.Mint 4242 [1; 2] data_url) ].

Definition send_to_18 : list (Z * HiddenAttributeNFT.Msg) :=
  [ (17, HiddenAttributeNFT.TransferFrom 17 18 1) ].

(** A storage in which token 1 has an owner and no message. *)
Definition bare_token : HiddenAttributeNFT.Storage :=
  {| HiddenAttributeNFT.erc721 :=
       {| HiddenAttributeNFT._owners := {[ 1 := 17 ]};
          HiddenAttributeNFT._balances := {[ 17 := 1 ]};
          HiddenAttributeNFT._tokenApprovals := ∅;
          HiddenAttributeNFT._operatorApprovals := ∅ |};
     HiddenAttributeNFT._owner := 17; HiddenAttributeNFT._nextTokenId := 2;
     HiddenAttributeNFT._baseTokenURI := [];
     HiddenAttributeNFT._tokenMessages := ∅;
     HiddenAttributeNFT._tokenImageURIs := ∅;
     HiddenAttributeNFT.acl := ∅ |}.

(** The collaborators of [helpful], reading the chain [chain]. *)
Definition reading (chain : HiddenAttributeNFT.Storage) : Oracle :=
  fun t c =>
    match c return JsError + resp c with
    | ContractGetEncryptedMessage tokenId => read_encrypted_message chain tokenId
    | PublicClientReadEncryptedMessage tokenId => read_encrypted_message chain tokenId
    | c => helpful t c
    end.

(** [HiddenNFTApp] with the wallet connected and the SDK ready. *)
Definition app_ready : HiddenNFTApp.State :=
  {| HiddenNFTApp.address := Some alice; HiddenNFTApp.isConnected := true;
     HiddenNFTApp.publicClient := true;
     HiddenNFTApp.instance := Some {| instance_chainId := 11155111 |};
     HiddenNFTApp.decryptedAttributes := ∅; HiddenNFTApp.activeDecrypt := None;
     HiddenNFTApp.decryptStatus := EmptyString |}.

End Sample.

(** * The rest of the client and of the contract *)

(** ** [frontend/src/utils/fheEncryption.ts]: [isFHEInitialized] *)


(** The configuration with the keys of the pinning service taken out. *)
Definition without_pinata (cfg : Config) : Config :=
  {| VITE_PINATA_API_KEY := None; VITE_PINATA_API_SECRET := None;
     VITE_PINATA_GATEWAY := VITE_PINATA_GATEWAY cfg;
     CONTRACT_ADDRESS := CONTRACT_ADDRESS cfg |}.

(** The events a run adds to the trace it started on. *)
Definition added {S A} (t : list Event) (r : (JsError + A) * S * list Event) : list Event :=
  drop (length t) (events r).

Definition is_pinata_call (e : Event) : bool :=
  match e with Called (AxiosPostPinata _ _ _) => true | _ => false end.

(** The calls that set up the SDK. *)
Definition is_sdk_setup (e : Event) : bool :=
  match e with
  | Called InitSDK => true
  | Called ProviderGetNetwork => true
  | Called (CreateInstance _) => true
  | _ => false
  end.

(** The status line of a mint that went through. *)
Definition mint_succeeded : string :=
  "✅ NFT minted successfully! Check Etherscan for your transaction.".

(** [event.target.value.replace(/[^0-9]/g, '')], the [onChange] of the
    token field of the transfer form. *)
Definition onChange_transferToken (value : jsstring) : jsstring :=
  List.filter is_digit value.

(** ** Programs that talk to the other collaborators

    The workflow above calls the pinning service, the SDK, the wallet
    and the contract through [Call]. The rest of the code also lists the
    tokens of an owner, reads the image of a token, has the token list
    refetched, asks the wallet for its accounts, encrypts a string, and
    waits on a timer. [Request] adds these to the calls of the workflow.
    A [script] is a program over [Request] (the same constructs as
    [prog], under the names [Return], [Raise], [Update], [Read], [Note]
    and [Ask]), sequenced with stdpp's [x ← p; q]; a program of the
    workflow is a script through [lift]. *)

Module Remote.

Inductive Request :=
| Workflow (c : Call)
| ContractTokensOfOwner (owner : jsstring)
| ContractGetTokenImageURI (tokenId : Z)
| PublicClientReadTokenImageURI (tokenId : Z)
| RefetchTokens
| EthRequestAccounts
| ProviderListAccounts
| EncryptedInputEncryptString (instance : FhevmInstance)
    (contractAddress : jsstring) (userAddress : option jsstring) (value : jsstring)
| ContractMintBytes (signer : Signer) (handle : option (list Z))
    (inputProof : list Z) (imageUri : jsstring)
| ContractTransferFromBigInt (signer : Signer) (from : option jsstring)
    (to : jsstring) (tokenId : Z)
| SetTimeout (ms : Z).

Definition reply (q : Request) : Type :=
  match q with
  | Workflow c => resp c
  | ContractTokensOfOwner _ => list Z
  | ContractGetTokenImageURI _ => jsstring
  | PublicClientReadTokenImageURI _ => jsstring
  | RefetchTokens => unit
  | EthRequestAccounts => list jsstring
  | ProviderListAccounts => list jsstring
  | EncryptedInputEncryptString _ _ _ _ => Encrypted
  | ContractMintBytes _ _ _ _ => Tx
  | ContractTransferFromBigInt _ _ _ _ => Tx
  | SetTimeout _ => unit
  end.

Inductive Happening := Asked (q : Request) | Noted (a : Action).

Definition Answers := list Happening -> forall q : Request, JsError + reply q.

Inductive script (S A : Type) : Type :=
| Return (a : A)
| Raise (e : JsError)
| Update (f : S -> S) (k : script S A)
| Read (k : S -> script S A)
| Note (a : Action) (k : script S A)
| Ask (q : Request) (k : JsError + reply q -> script S A).

Arguments Return {S A} a.
Arguments Raise {S A} e.
Arguments Update {S A} f k.
Arguments Read {S A} k.
Arguments Note {S A} a k.
Arguments Ask {S A} q k.

Fixpoint then_ {S A B} (f : A -> script S B) (p : script S A) : script S B :=
  match p with
  | Return a => f a
  | Raise e => Raise e
  | Update g k => Update g (then_ f k)
  | Read k => Read (fun s => then_ f (k s))
  | Note a k => Note a (then_ f k)
  | Ask q k => Ask q (fun r => then_ f (k r))
  end.

#[export] Instance script_ret {S} : MRet (script S) := fun A a => Return a.
#[export] Instance script_bind {S} : MBind (script S) := fun A B f p => then_ f p.

(** [try { p } catch (error) { h error }] *)
Fixpoint catch {S A} (p : script S A) (h : JsError -> script S A) : script S A :=
  match p with
  | Return a => Return a
  | Raise e => h e
  | Update g k => Update g (catch k h)
  | Read k => Read (fun s => catch (k s) h)
  | Note a k => Note a (catch k h)
  | Ask q k => Ask q (fun r => catch (k r) h)
  end.

(** [try { p } finally { fin }] *)
Definition ensure {S A} (p : script S A) (fin : script S unit) : script S A :=
  r ← catch (a ← p; Return (inr a)) (fun e => Return (inl e));
  fin;;
  match r with inl e => Raise e | inr a => Return a end.

(** [await q] *)
Definition ask {S} (q : Request) : script S (reply q) :=
  Ask q (fun r => match r with inl e => Raise e | inr v => Return v end).

(** [await new Promise(resolve => setTimeout(resolve, ms))]: a timer
    does not reject. *)
Definition sleep {S} (ms : Z) : script S unit :=
  Ask (SetTimeout ms) (fun _ => Return tt).

Definition update {S} (f : S -> S) : script S unit := Update f (Return tt).

(** A program of the workflow, as a script. *)
Fixpoint lift {S A} (p : prog S A) : script S A :=
  match p with
  | Ret a => Return a
  | Throw e => Raise e
  | Upd f k => Update f (lift k)
  | Look k => Read (fun s => lift (k s))
  | Mark a k => Note a (lift k)
  | Await c k => Ask (Workflow c) (fun r => lift (k r))
  end.

(** Running a script to completion; the trace lists what was asked and
    noted, oldest first. *)
Fixpoint perform {S A} (o : Answers) (p : script S A) (s : S) (t : list Happening)
  : (JsError + A) * S * list Happening :=
  match p with
  | Return a => (inr a, s, t)
  | Raise e => (inl e, s, t)
  | Update f k => perform o k (f s) t
  | Read k => perform o (k s) s t
  | Note a k => perform o k s (t ++ [Noted a])
  | Ask q k => perform o (k (o t q)) s (t ++ [Asked q])
  end.

Definition result {S A} (r : (JsError + A) * S * list Happening) : JsError + A := r.1.1.
Definition state {S A} (r : (JsError + A) * S * list Happening) : S := r.1.2.
Definition trace {S A} (r : (JsError + A) * S * list Happening) : list Happening := r.2.

(** What a run added to the trace it started on. *)
Definition asked {S A} (t : list Happening) (r : (JsError + A) * S * list Happening)
  : list Happening :=
  drop (length t) (trace r).

(** The workflow seen from a script: its events among the happenings,
    and its collaborators behind [Answers], for a program lifted at the
    trace [t]. *)
Definition happening (e : Event) : Happening :=
  match e with Called c => Asked (Workflow c) | Did a => Noted a end.

Definition behind (o : Answers) (t : list Happening) : Oracle :=
  fun events c => o (t ++ map happening events) (Workflow c).

(** The wait for a confirmation that returned, among the new
    happenings of a run started on [t]. *)
Fixpoint confirmed (o : Answers) (t new : list Happening) : bool :=
  match new with
  | [] => false
  | Asked (Workflow (TxWait tx)) :: rest =>
      match o t (Workflow (TxWait tx)) with
      | inr _ => true
      | inl _ => confirmed o (t ++ [Asked (Workflow (TxWait tx))]) rest
      end
  | e :: rest => confirmed o (t ++ [e]) rest
  end.

End Remote.

(** ** [BigInt(string)]

    [StringToBigInt]: blanks are trimmed; the empty text is [0n]; a
    decimal literal may carry a sign; [0x], [0o] and [0b] literals may
    not. Anything else is a [SyntaxError], here [None]. *)

Definition is_octal_digit (u : Z) : bool := (48 <=? u) && (u <=? 55).
Definition is_binary_digit (u : Z) : bool := (48 <=? u) && (u <=? 49).

Definition digits_opt (ok : Z -> bool) (base : Z) (ds : jsstring) : option Z :=
  match ds with
  | [] => None
  | _ => if forallb ok ds then Some (digits_value base ds) else None
  end.

Definition BigInt_of_string (s : jsstring) : option Z :=
  match trim s with
  | [] => Some 0
  | a :: rest =>
      if a =? 43 then digits_opt is_digit 10 rest
      else if a =? 45 then option_map Z.opp (digits_opt is_digit 10 rest)
      else
        match rest with
        | b :: ds =>
            if (a =? 48) && ((b =? 120) || (b =? 88)) then digits_opt is_hex_digit 16 ds
            else if (a =? 48) && ((b =? 111) || (b =? 79))
                 then digits_opt is_octal_digit 8 ds
            else if (a =? 48) && ((b =? 98) || (b =? 66))
                 then digits_opt is_binary_digit 2 ds
            else digits_opt is_digit 10 (a :: rest)
        | [] => digits_opt is_digit 10 [a]
        end
  end.

(** ** [frontend/src/components/HiddenNFTApp.tsx]: the forms *)

Module HiddenNFTAppForms.

(** The [useState] cells of the two forms. *)
Record Forms := {
  mintValue : jsstring;
  selectedImage : option File;
  minting : bool;
  mintStatus : string;
  transferToken : jsstring;
  transferAddress : jsstring;
  transferring : bool;
  transferStatus : string
}.

(** The component: the hooks and the cells of the reveal, and the
    forms. *)
Record State := { app : HiddenNFTApp.State; forms : Forms }.

Definition with_mintValue (v : jsstring) (f : Forms) : Forms :=
  {| mintValue := v; selectedImage := selectedImage f; minting := minting f;
     mintStatus := mintStatus f; transferToken := transferToken f;
     transferAddress := transferAddress f; transferring := transferring f;
     transferStatus := transferStatus f |}.

Definition with_selectedImage (v : option File) (f : Forms) : Forms :=
  {| mintValue := mintValue f; selectedImage := v; minting := minting f;
     mintStatus := mintStatus f; transferToken := transferToken f;
     transferAddress := transferAddress f; transferring := transferring f;
     transferStatus := transferStatus f |}.

Definition with_minting (v : bool) (f : Forms) : Forms :=
  {| mintValue := mintValue f; selectedImage := selectedImage f; minting := v;
     mintStatus := mintStatus f; transferToken := transferToken f;
     transferAddress := transferAddress f; transferring := transferring f;
     transferStatus := transferStatus f |}.

Definition with_mintStatus (v : string) (f : Forms) : Forms :=
  {| mintValue := mintValue f; selectedImage := selectedImage f; minting := minting f;
     mintStatus := v; transferToken := transferToken f;
     transferAddress := transferAddress f; transferring := transferring f;
     transferStatus := transferStatus f |}.

Definition with_transferToken (v : jsstring) (f : Forms) : Forms :=
  {| mintValue := mintValue f; selectedImage := selectedImage f; minting := minting f;
     mintStatus := mintStatus f; transferToken := v;
     transferAddress := transferAddress f; transferring := transferring f;
     transferStatus := transferStatus f |}.

Definition with_transferAddress (v : jsstring) (f : Forms) : Forms :=
  {| mintValue := mintValue f; selectedImage := selectedImage f; minting := minting f;
     mintStatus := mintStatus f; transferToken := transferToken f;
     transferAddress := v; transferring := transferring f;
     transferStatus := transferStatus f |}.

Definition with_transferring (v : bool) (f : Forms) : Forms :=
  {| mintValue := mintValue f; selectedImage := selectedImage f; minting := minting f;
     mintStatus := mintStatus f; transferToken := transferToken f;
     transferAddress := transferAddress f; transferring := v;
     transferStatus := transferStatus f |}.

Definition with_transferStatus (v : string) (f : Forms) : Forms :=
  {| mintValue := mintValue f; selectedImage := selectedImage f; minting := minting f;
     mintStatus := mintStatus f; transferToken := transferToken f;
     transferAddress := transferAddress f; transferring := transferring f;
     transferStatus := v |}.

Definition on_forms (g : Forms -> Forms) (s : State) : State :=
  {| app := app s; forms := g (forms s) |}.

Definition on_app (g : HiddenNFTApp.State -> HiddenNFTApp.State) (s : State) : State :=
  {| app := g (app s); forms := forms s |}.

Import Remote.

Definition setMintValue (v : jsstring) : script State unit := update (on_forms (with_mintValue v)).
Definition setSelectedImage (v : option File) : script State unit :=
  update (on_forms (with_selectedImage v)).
Definition setMinting (v : bool) : script State unit := update (on_forms (with_minting v)).
Definition setMintStatus (v : string) : script State unit := update (on_forms (with_mintStatus v)).
Definition setTransferToken (v : jsstring) : script State unit :=
  update (on_forms (with_transferToken v)).
Definition setTransferAddress (v : jsstring) : script State unit :=
  update (on_forms (with_transferAddress v)).
Definition setTransferring (v : bool) : script State unit :=
  update (on_forms (with_transferring v)).
Definition setTransferStatus (v : string) : script State unit :=
  update (on_forms (with_transferStatus v)).

(** [setDecryptedAttributes(prev => f prev)] *)
Definition updateDecryptedAttributes
    (f : gmap jsstring jsstring -> gmap jsstring jsstring) : script State unit :=
  update (on_app (fun a =>
    HiddenNFTApp.with_decryptedAttributes (f (HiddenNFTApp.decryptedAttributes a)) a)).

Section WithConfig.
Context (cfg : Config).

(** [handleMint], with the state [s] of the render the form was
    submitted from. [createEncryptedInput], [addString] and [encrypt]
    are one request. *)
Definition handleMint (s : State) : script State unit :=
  setMintStatus EmptyString;;
  match HiddenNFTApp.instance (app s) with
  | Some instance =>
      if negb (HiddenNFTApp.hasWallet (app s)) then
        setMintStatus "Connect a wallet and wait for encryption to be ready."
      else
        match selectedImage (forms s) with
        | None => setMintStatus "Please select an image for the NFT."
        | Some image =>
            if negb (truthy (trim (mintValue (forms s)))) then
              setMintStatus "Please enter a message for the NFT."
            else
              ensure
                (catch
                   (setMinting true;;
                    setMintStatus "Uploading image...";;
                    uploaded ← lift (ImageUpload.uploadImage cfg image);
                    setMintStatus "Image uploaded. Encrypting message...";;
                    encrypted ← ask (EncryptedInputEncryptString instance
                                       (CONTRACT_ADDRESS cfg)
                                       (HiddenNFTApp.address (app s))
                                       (mintValue (forms s)));
                    setMintStatus "Minting NFT...";;
                    signer ← ask (Workflow SignerPromise);
                    match signer with
                    | None => Raise (Error_ "Wallet signer unavailable")
                    | Some signer =>
                        tx ← ask (ContractMintBytes signer (head (handles encrypted))
                                    (inputProof encrypted) (imageUri uploaded));
                        ask (Workflow (TxWait tx));;
                        setMintValue [];;
                        setSelectedImage None;;
                        setMintStatus "Minted successfully.";;
                        ask RefetchTokens
                    end)
                   (fun error => setMintStatus (message_or error "Mint failed")))
                (setMinting false)
        end
  | None => setMintStatus "Connect a wallet and wait for encryption to be ready."
  end.

(** [handleTransfer], with the state [s] of the render. *)
Definition handleTransfer (s : State) : script State unit :=
  setTransferStatus EmptyString;;
  if negb (HiddenNFTApp.hasWallet (app s)) then
    setTransferStatus "Connect a wallet first."
  else if negb (ZERO_ADDRESS_test (trim (transferAddress (forms s)))) then
    setTransferStatus "Enter a valid recipient address."
  else
    match BigInt_of_string (transferToken (forms s)) with
    | None => setTransferStatus "Enter a valid token id."
    | Some tokenId =>
        ensure
          (catch
             (setTransferring true;;
              signer ← ask (Workflow SignerPromise);
              match signer with
              | None => Raise (Error_ "Wallet signer unavailable")
              | Some signer =>
                  tx ← ask (ContractTransferFromBigInt signer
                              (HiddenNFTApp.address (app s))
                              (trim (transferAddress (forms s))) tokenId);
                  ask (Workflow (TxWait tx));;
                  setTransferStatus "Transfer completed.";;
                  setTransferToken [];;
                  setTransferAddress [];;
                  updateDecryptedAttributes (delete (js (pretty tokenId)));;
                  ask RefetchTokens
              end)
             (fun error => setTransferStatus (message_or error "Transfer failed")))
          (setTransferring false)
    end.

End WithConfig.

(** What the card of a token shows as its message
    ([decryptedAttributes[tokenId.toString()]]). *)
Definition decryptedMessage (s : State) (tokenId : Z) : option jsstring :=
  match HiddenNFTApp.decryptedAttributes (app s) !! js (pretty tokenId) with
  | Some text => if truthy text then Some text else None
  | None => None
  end.

End HiddenNFTAppForms.

(** ** [frontend/src/components/HiddenNFTAppV2Simple.tsx]: [loadNFTs] *)

Module V2SimpleGallery.
Import Remote.

Definition with_nfts (v : list V2Simple.NFTItem) (s : V2Simple.State) : V2Simple.State :=
  {| V2Simple.wallet_address := V2Simple.wallet_address s;
     V2Simple.wallet_isConnected := V2Simple.wallet_isConnected s;
     V2Simple.mintValue := V2Simple.mintValue s;
     V2Simple.selectedImage := V2Simple.selectedImage s;
     V2Simple.minting := V2Simple.minting s; V2Simple.mintStatus := V2Simple.mintStatus s;
     V2Simple.transferToken := V2Simple.transferToken s;
     V2Simple.transferAddress := V2Simple.transferAddress s;
     V2Simple.transferring := V2Simple.transferring s;
     V2Simple.transferStatus := V2Simple.transferStatus s;
     V2Simple.decryptedAttributes := V2Simple.decryptedAttributes s;
     V2Simple.activeDecrypt := V2Simple.activeDecrypt s;
     V2Simple.decryptStatus := V2Simple.decryptStatus s; V2Simple.nfts := v;
     V2Simple.activeTab := V2Simple.activeTab s;
     V2Simple.loadingNFTs := V2Simple.loadingNFTs s |}.

Definition with_loadingNFTs (v : bool) (s : V2Simple.State) : V2Simple.State :=
  {| V2Simple.wallet_address := V2Simple.wallet_address s;
     V2Simple.wallet_isConnected := V2Simple.wallet_isConnected s;
     V2Simple.mintValue := V2Simple.mintValue s;
     V2Simple.selectedImage := V2Simple.selectedImage s;
     V2Simple.minting := V2Simple.minting s; V2Simple.mintStatus := V2Simple.mintStatus s;
     V2Simple.transferToken := V2Simple.transferToken s;
     V2Simple.transferAddress := V2Simple.transferAddress s;
     V2Simple.transferring := V2Simple.transferring s;
     V2Simple.transferStatus := V2Simple.transferStatus s;
     V2Simple.decryptedAttributes := V2Simple.decryptedAttributes s;
     V2Simple.activeDecrypt := V2Simple.activeDecrypt s;
     V2Simple.decryptStatus := V2Simple.decryptStatus s; V2Simple.nfts := V2Simple.nfts s;
     V2Simple.activeTab := V2Simple.activeTab s; V2Simple.loadingNFTs := v |}.

Definition setNfts (v : list V2Simple.NFTItem) : script V2Simple.World unit :=
  update (set_component (with_nfts v)).
Definition setLoadingNFTs (v : bool) : script V2Simple.World unit :=
  update (set_component (with_loadingNFTs v)).

(** The promises of [tokenIds.map(async tokenId => ...)]: every read of
    an image is started, in the order of the list. *)
Fixpoint read_images {S} (tokenIds : list Z) : script S (list (JsError + jsstring)) :=
  match tokenIds with
  | [] => Return []
  | tokenId :: rest =>
      Ask (ContractGetTokenImageURI tokenId) (fun r =>
        settled ← read_images rest; Return (r :: settled))
  end.

(** [Promise.all]: the values when every promise is fulfilled, else a
    rejection (the first of the list here; [loadNFTs] only logs it). *)
Fixpoint all_fulfilled {A} (settled : list (JsError + A)) : JsError + list A :=
  match settled with
  | [] => inr []
  | inl e :: _ => inl e
  | inr a :: rest =>
      match all_fulfilled rest with
      | inl e => inl e
      | inr values => inr (a :: values)
      end
  end.

(** The card built for a token; [Number(tokenId)] is the identifier
    itself below 2^53. *)
Definition loaded (owner : jsstring) (tokenId : Z) (imageUri : jsstring) : V2Simple.NFTItem :=
  {| V2Simple.nft_tokenId := tokenId; V2Simple.nft_owner := owner;
     V2Simple.nft_imageUri := imageUri;
     V2Simple.nft_message := "[Encrypted on-chain with FHE]" |}.

(** [loadNFTs], with the state [s] of the render it was created in.
    [new BrowserProvider(undefined)] throws. *)
Definition loadNFTs (s : V2Simple.State) : script V2Simple.World unit :=
  match V2Simple.wallet_address s with
  | Some address =>
      if negb (truthy address) then Return tt
      else
        ensure
          (catch
             (setLoadingNFTs true;;
              Read (fun b =>
                if negb (window_ethereum b)
                then Raise (Error_ "invalid EIP-1193 provider")
                else
                  tokenIds ← ask (ContractTokensOfOwner address);
                  settled ← read_images tokenIds;
                  match all_fulfilled settled with
                  | inl e => Raise e
                  | inr imageUris =>
                      setNfts (zip_with (loaded address) tokenIds imageUris)
                  end))
             (fun _ => Return tt))
          (setLoadingNFTs false)
  | None => Return tt
  end.

End V2SimpleGallery.

(** ** [frontend/src/components/NFTCard.tsx] *)

Module NFTCard.
Import Remote.

Record State := { imageUrl : jsstring; loadingImage : bool; imageError : bool }.

(** The card as mounted. *)
Definition mounted : State :=
  {| imageUrl := []; loadingImage := true; imageError := false |}.

Definition setImageUrl (v : jsstring) : script State unit :=
  update (fun s => {| imageUrl := v; loadingImage := loadingImage s;
                      imageError := imageError s |}).
Definition setLoadingImage (v : bool) : script State unit :=
  update (fun s => {| imageUrl := imageUrl s; loadingImage := v;
                      imageError := imageError s |}).
Definition setImageError (v : bool) : script State unit :=
  update (fun s => {| imageUrl := imageUrl s; loadingImage := loadingImage s;
                      imageError := v |}).

(** [fetchImageUri] of the effect, for the card of [tokenId];
    [publicClient] tells whether the hook returned a client. *)
Definition fetchImageUri (cfg : Config) (publicClient : bool) (tokenId : Z)
  : script State unit :=
  if negb publicClient then Return tt
  else
    ensure
      (catch
         (setLoadingImage true;;
          uri ← ask (PublicClientReadTokenImageURI tokenId);
          setImageUrl (ImageUpload.getImageUrl cfg uri);;
          setImageError false)
         (fun _ => setImageError true))
      (setLoadingImage false).

(** What stands in the image box of the card. *)
Inductive ImageBox := Spinner | NoImage | Image (src : jsstring).

Definition image_box (s : State) : ImageBox :=
  if loadingImage s then Spinner
  else if imageError s || negb (truthy (imageUrl s)) then NoImage
  else Image (imageUrl s).

End NFTCard.

(** ** The hook [useSimpleWallet] (an unnamed source file) *)

Module UseSimpleWallet.
Import Remote.

Record WalletState := {
  address : option jsstring;
  isConnected : bool;
  isLoading : bool;
  error : option string
}.

Definition disconnected : WalletState :=
  {| address := None; isConnected := false; isLoading := false; error := None |}.

Definition connected_as (account : jsstring) : WalletState :=
  {| address := Some account; isConnected := true; isLoading := false; error := None |}.

Abbreviation World := (Browser WalletState).

Definition setWallet (f : WalletState -> WalletState) : script World unit :=
  update (set_component f).

(** [checkConnection] of the effect run on mount *)
Definition checkConnection : script World unit :=
  catch
    (Read (fun b =>
       if window_ethereum b then
         accounts ← ask ProviderListAccounts;
         match accounts with
         | account :: _ => setWallet (fun _ => connected_as account)
         | [] => Return tt
         end
       else Return tt))
    (fun _ => Return tt).

(** The listener of ['accountsChanged'] *)
Definition accountsChanged (accounts : list jsstring) : script World unit :=
  match accounts with
  | account :: _ => setWallet (fun _ => connected_as account)
  | [] => setWallet (fun _ => disconnected)
  end.

Definition connect : script World unit :=
  setWallet (fun prev => {| address := address prev; isConnected := isConnected prev;
                            isLoading := true; error := None |});;
  catch
    (Read (fun b =>
       if negb (window_ethereum b) then
         Raise (Error_ "MetaMask not installed. Please install MetaMask to continue.")
       else
         accounts ← ask EthRequestAccounts;
         match accounts with
         | account :: _ => setWallet (fun _ => connected_as account)
         | [] => Return tt
         end))
    (fun error_ =>
       setWallet (fun prev =>
         {| address := address prev; isConnected := isConnected prev;
            isLoading := false;
            error := Some (or_else (err_message error_) "Failed to connect wallet") |})).

Definition disconnect : script World unit := setWallet (fun _ => disconnected).

(** What the user and the wallet do to the hook, one after the other. *)
Inductive Op :=
| Mount
| AccountsChanged (accounts : list jsstring)
| Connect
| Disconnect.

Definition handler (op : Op) : script World unit :=
  match op with
  | Mount => checkConnection
  | AccountsChanged accounts => accountsChanged accounts
  | Connect => connect
  | Disconnect => disconnect
  end.

Fixpoint play (o : Answers) (ops : list Op) (w : World) (t : list Happening)
  : World * list Happening :=
  match ops with
  | [] => (w, t)
  | op :: rest =>
      let r := perform o (handler op) w t in
      play o rest (state r) (trace r)
  end.

End UseSimpleWallet.

(** ** [frontend/src/components/HiddenNFTAppV2.tsx]: the component that
    keeps the tokens in memory *)

Module V2Mock.
Import Remote.

Record NFTItem := {
  nft_tokenId : Z;
  nft_owner : jsstring;
  nft_imageUri : jsstring;
  nft_message : jsstring
}.

(** [useAccount] and the [useState] cells; the cells of the two forms
    are those of [HiddenNFTApp]. *)
Record State := {
  address : option jsstring;
  isConnected : bool;
  forms : HiddenNFTAppForms.Forms;
  decryptedAttributes : gmap jsstring jsstring;
  activeDecrypt : option Z;
  decryptStatus : string;
  nfts : list NFTItem;
  nextTokenId : Z;
  activeTab : V2Simple.Tab
}.

Definition on_forms (g : HiddenNFTAppForms.Forms -> HiddenNFTAppForms.Forms) (s : State)
  : State :=
  {| address := address s; isConnected := isConnected s; forms := g (forms s);
     decryptedAttributes := decryptedAttributes s; activeDecrypt := activeDecrypt s;
     decryptStatus := decryptStatus s; nfts := nfts s; nextTokenId := nextTokenId s;
     activeTab := activeTab s |}.

Definition with_decryptedAttributes (v : gmap jsstring jsstring) (s : State) : State :=
  {| address := address s; isConnected := isConnected s; forms := forms s;
     decryptedAttributes := v; activeDecrypt := activeDecrypt s;
     decryptStatus := decryptStatus s; nfts := nfts s; nextTokenId := nextTokenId s;
     activeTab := activeTab s |}.

Definition with_activeDecrypt (v : option Z) (s : State) : State :=
  {| address := address s; isConnected := isConnected s; forms := forms s;
     decryptedAttributes := decryptedAttributes s; activeDecrypt := v;
     decryptStatus := decryptStatus s; nfts := nfts s; nextTokenId := nextTokenId s;
     activeTab := activeTab s |}.

Definition with_decryptStatus (v : string) (s : State) : State :=
  {| address := address s; isConnected := isConnected s; forms := forms s;
     decryptedAttributes := decryptedAttributes s; activeDecrypt := activeDecrypt s;
     decryptStatus := v; nfts := nfts s; nextTokenId := nextTokenId s;
     activeTab := activeTab s |}.

Definition with_nfts (v : list NFTItem) (s : State) : State :=
  {| address := address s; isConnected := isConnected s; forms := forms s;
     decryptedAttributes := decryptedAttributes s; activeDecrypt := activeDecrypt s;
     decryptStatus := decryptStatus s; nfts := v; nextTokenId := nextTokenId s;
     activeTab := activeTab s |}.

Definition with_nextTokenId (v : Z) (s : State) : State :=
  {| address := address s; isConnected := isConnected s; forms := forms s;
     decryptedAttributes := decryptedAttributes s; activeDecrypt := activeDecrypt s;
     decryptStatus := decryptStatus s; nfts := nfts s; nextTokenId := v;
     activeTab := activeTab s |}.

Definition with_activeTab (v : V2Simple.Tab) (s : State) : State :=
  {| address := address s; isConnected := isConnected s; forms := forms s;
     decryptedAttributes := decryptedAttributes s; activeDecrypt := activeDecrypt s;
     decryptStatus := decryptStatus s; nfts := nfts s; nextTokenId := nextTokenId s;
     activeTab := v |}.

Definition setMintValue (v : jsstring) : script State unit :=
  update (on_forms (HiddenNFTAppForms.with_mintValue v)).
Definition setSelectedImage (v : option File) : script State unit :=
  update (on_forms (HiddenNFTAppForms.with_selectedImage v)).
Definition setMinting (v : bool) : script State unit :=
  update (on_forms (HiddenNFTAppForms.with_minting v)).
Definition setMintStatus (v : string) : script State unit :=
  update (on_forms (HiddenNFTAppForms.with_mintStatus v)).
Definition setTransferToken (v : jsstring) : script State unit :=
  update (on_forms (HiddenNFTAppForms.with_transferToken v)).
Definition setTransferAddress (v : jsstring) : script State unit :=
  update (on_forms (HiddenNFTAppForms.with_transferAddress v)).
Definition setTransferring (v : bool) : script State unit :=
  update (on_forms (HiddenNFTAppForms.with_transferring v)).
Definition setTransferStatus (v : string) : script State unit :=
  update (on_forms (HiddenNFTAppForms.with_transferStatus v)).
Definition setActiveDecrypt (v : option Z) : script State unit :=
  update (with_activeDecrypt v).
Definition setDecryptStatus (v : string) : script State unit :=
  update (with_decryptStatus v).
Definition setNfts (v : list NFTItem) : script State unit := update (with_nfts v).
Definition setNextTokenId (v : Z) : script State unit := update (with_nextTokenId v).
Definition setActiveTab (v : V2Simple.Tab) : script State unit := update (with_activeTab v).

(** [setDecryptedAttributes(prev => f prev)] *)
Definition updateDecryptedAttributes
    (f : gmap jsstring jsstring -> gmap jsstring jsstring) : script State unit :=
  update (fun s => with_decryptedAttributes (f (decryptedAttributes s)) s).

(** [Boolean(isConnected && address)] *)
Definition hasWallet (s : State) : bool := isConnected s && truthy_opt (address s).

(** [nft.tokenId === tokenId] for a [number] *)
Definition is_token (tokenId : jsnumber) (n : NFTItem) : bool :=
  match tokenId with Num id => nft_tokenId n =? id | NaN => false end.

Definition with_owner (v : jsstring) (n : NFTItem) : NFTItem :=
  {| nft_tokenId := nft_tokenId n; nft_owner := v; nft_imageUri := nft_imageUri n;
     nft_message := nft_message n |}.

(** [nfts.findIndex(p)]; [None] is [-1]. *)
Fixpoint findIndex {A} (p : A -> bool) (l : list A) : option nat :=
  match l with
  | [] => None
  | x :: rest => if p x then Some 0%nat else option_map S (findIndex p rest)
  end.

Section WithConfig.
Context (cfg : Config).

(** [handleMint], with the state [s] of the render the form was
    submitted from. *)
Definition handleMint (s : State) : script State unit :=
  setMintStatus EmptyString;;
  if negb (hasWallet s) then setMintStatus "Connect a wallet to mint."
  else
    match HiddenNFTAppForms.selectedImage (forms s) with
    | None => setMintStatus "Please select an image for the NFT."
    | Some image =>
        if negb (truthy (trim (HiddenNFTAppForms.mintValue (forms s)))) then
          setMintStatus "Please enter a message for the NFT."
        else
          ensure
            (catch
               (setMinting true;;
                setMintStatus "Uploading image...";;
                uploaded ← lift (ImageUpload.uploadImage cfg image);
                setMintStatus "Creating your NFT...";;
                sleep 1000;;
                let newNFT :=
                  {| nft_tokenId := nextTokenId s;
                     nft_owner := show_opt (address s) "undefined";
                     nft_imageUri := imageUri uploaded;
                     nft_message := HiddenNFTAppForms.mintValue (forms s) |} in
                setNfts (nfts s ++ [newNFT]);;
                setNextTokenId (nextTokenId s + 1);;
                setMintValue [];;
                setSelectedImage None;;
                setMintStatus "✅ NFT minted successfully!";;
                setActiveTab V2Simple.TabGallery)
               (fun error => setMintStatus (message_or error "Mint failed")))
            (setMinting false)
    end.

End WithConfig.

(** [handleTransfer], with the state [s] of the render. [Number] does
    not throw, so the [catch] around it is never entered. The
    assignment to [owner] changes the item in place; the array that is
    stored is the copy holding it. *)
Definition handleTransfer (s : State) : script State unit :=
  setTransferStatus EmptyString;;
  if negb (hasWallet s) then setTransferStatus "Connect a wallet first."
  else if negb (ZERO_ADDRESS_test (trim (HiddenNFTAppForms.transferAddress (forms s)))) then
    setTransferStatus "Enter a valid recipient address."
  else
    let tokenId := Number_of_string (HiddenNFTAppForms.transferToken (forms s)) in
    ensure
      (catch
         (setTransferring true;;
          match findIndex (is_token tokenId) (nfts s) with
          | None => setTransferStatus "Token not found."
          | Some nftIndex =>
              setNfts (alter (with_owner (trim (HiddenNFTAppForms.transferAddress (forms s))))
                         nftIndex (nfts s));;
              setTransferStatus "✅ Transfer completed!";;
              setTransferToken [];;
              setTransferAddress [];;
              updateDecryptedAttributes (delete (Number_toString tokenId))
          end)
         (fun error => setTransferStatus (message_or error "Transfer failed")))
      (setTransferring false).

(** [decryptMessage(tokenId)], with the state [s] of the render. *)
Definition decryptMessage (s : State) (tokenId : Z) : script State unit :=
  ensure
    (catch
       (setActiveDecrypt (Some tokenId);;
        setDecryptStatus EmptyString;;
        match find (fun n => nft_tokenId n =? tokenId) (nfts s) with
        | None => Raise (Error_ "NFT not found.")
        | Some nft =>
            sleep 500;;
            updateDecryptedAttributes
              (insert (Number_toString (Num tokenId)) (nft_message nft));;
            setDecryptStatus "✅ Message decrypted!"
        end)
       (fun error => setDecryptStatus (message_or error "Decryption failed")))
    (setActiveDecrypt None).

(** The message box of a card: the decrypted text, if any. *)
Definition decrypted (s : State) (tokenId : Z) : option jsstring :=
  match decryptedAttributes s !! Number_toString (Num tokenId) with
  | Some text => if truthy text then Some text else None
  | None => None
  end.

(** The identifiers in use are positive, different from each other and
    below the next one. *)
Definition fresh_ids (s : State) : Prop :=
  Forall (fun n => 0 < nft_tokenId n < nextTokenId s) (nfts s)
  /\ NoDup (nft_tokenId <$> nfts s).

(** The component as mounted. *)
Definition mounted (account : option jsstring) (connected : bool) : State :=
  {| address := account; isConnected := connected;
     forms := {| HiddenNFTAppForms.mintValue := [];
                 HiddenNFTAppForms.selectedImage := None;
                 HiddenNFTAppForms.minting := false;
                 HiddenNFTAppForms.mintStatus := EmptyString;
                 HiddenNFTAppForms.transferToken := [];
                 HiddenNFTAppForms.transferAddress := [];
                 HiddenNFTAppForms.transferring := false;
                 HiddenNFTAppForms.transferStatus := EmptyString |};
     decryptedAttributes := ∅; activeDecrypt := None; decryptStatus := EmptyString;
     nfts := []; nextTokenId := 1; activeTab := V2Simple.TabMint |}.

End V2Mock.

(** ** The image picker ([ImageUpload.tsx], inside an unnamed source
    file) *)

Module ImagePicker.

(** What [handleFile] does with a file: nothing, an [alert], or the
    call of [onImageSelect] from [reader.onload]. *)
Inductive Picked :=
| Nothing
| Alert (text : string)
| Selected (file : File) (previewUrl : jsstring).

Definition handleFile {S} (file : option File) : prog S Picked :=
  match file with
  | None => Ret Nothing
  | Some file =>
      if negb (startsWith (file_type file) (js "image/")) then
        Ret (Alert "Please select an image file")
      else if file_size file >? ImageUpload.maxSize then
        Ret (Alert "Image must be less than 10MB")
      else
        Await (FileReaderReadAsDataURL file) (fun r =>
          match r with
          | inr previewUrl => Ret (Selected file previewUrl)
          | inl _ => Ret Nothing
          end)
  end.

End ImagePicker.

(** ** Sample data for the wider requests *)

Module Demo.

(** Collaborators that answer every request. *)
Definition answers : Remote.Answers :=
  fun _ q =>
    match q return JsError + Remote.reply q with
    | Remote.Workflow c => Sample.helpful [] c
    | Remote.ContractTokensOfOwner _ => inr [1; 2]
    | Remote.ContractGetTokenImageURI _ => inr Sample.data_url
    | Remote.PublicClientReadTokenImageURI _ => inr Sample.data_url
    | Remote.RefetchTokens => inr tt
    | Remote.EthRequestAccounts => inr [Sample.alice]
    | Remote.ProviderListAccounts => inr [Sample.alice]
    | Remote.EncryptedInputEncryptString _ _ _ _ =>
        inr {| handles := [[171; 205]]; inputProof := [1; 2; 3] |}
    | Remote.ContractMintBytes _ _ _ _ => inr {| tx_hash := js "0xaaaa" |}
    | Remote.ContractTransferFromBigInt _ _ _ _ => inr {| tx_hash := js "0xbbbb" |}
    | Remote.SetTimeout _ => inr tt
    end.

(** Both keys of the pinning service configured. *)
Definition pinned_cfg : Config :=
  {| VITE_PINATA_API_KEY := Some (js "key"); VITE_PINATA_API_SECRET := Some (js "secret");
     VITE_PINATA_GATEWAY := None; CONTRACT_ADDRESS := CONTRACT_ADDRESS Sample.cfg |}.

(** The key without the secret. *)
Definition half_cfg : Config :=
  {| VITE_PINATA_API_KEY := Some (js "key"); VITE_PINATA_API_SECRET := None;
     VITE_PINATA_GATEWAY := None; CONTRACT_ADDRESS := CONTRACT_ADDRESS Sample.cfg |}.

(** The pinning service rejecting every upload. *)
Definition pinata_down : Oracle :=
  fun t c =>
    match c return JsError + resp c with
    | AxiosPostPinata _ _ _ => inl (Error_ "Request failed with status code 401")
    | other => Sample.helpful t other
    end.

(** The SDK answering an encryption without any handle. *)
Definition no_handle : Oracle :=
  fun t c =>
    match c return JsError + resp c with
    | EncryptedInputEncrypt _ _ _ _ => inr {| handles := []; inputProof := [1; 2; 3] |}
    | other => Sample.helpful t other
    end.

(** The in-memory component with [alice] connected and the mint form
    filled in. *)
Definition mock_form (message : jsstring) (image : File) : V2Mock.State :=
  V2Mock.on_forms
    (fun f => HiddenNFTAppForms.with_selectedImage (Some image)
                (HiddenNFTAppForms.with_mintValue message f))
    (V2Mock.mounted (Some Sample.alice) true).

(** The same component holding [tokens], its transfer form filled
    in. *)
Definition mock_transfer (tokens : list V2Mock.NFTItem) (token address : jsstring)
  : V2Mock.State :=
  V2Mock.with_nfts tokens
    (V2Mock.with_nextTokenId (1 + Z.of_nat (length tokens))
       (V2Mock.on_forms
          (fun f => HiddenNFTAppForms.with_transferAddress address
                      (HiddenNFTAppForms.with_transferToken token f))
          (V2Mock.mounted (Some Sample.alice) true))).

End Demo.

(** ** Calls made from a receiver's callback

    [_safeMint] and [safeTransferFrom] call [onERC721Received] of a
    receiver that is a contract, and until it answers the receiver can
    call the contract back. In [safeTransferFrom] the callback is the
    last step. In [mint] it runs inside [_safeMint]: after the token
    has been assigned to the sender, and before the message and the
    image are stored and the sender is allowed on the message.

    An [Invocation] is a call together with what the callback does if
    the call gets as far as the callback: the calls that reach the
    contract while it runs, in order and from whichever contracts are
    involved (one that reverts is caught and changes nothing), and
    whether the callback returns the selector in the end. An account
    without code has no callback: no calls, accepted. A callback that
    fails makes the whole call revert; the reason it then reverts with
    is not modelled, the storage is what it was. *)

Module Reentrancy.
Import HiddenAttributeNFT.

#[warnings="-register-all"] Inductive Invocation :=
| invoke (sender : address) (m : Msg) (callback : list Invocation) (accepts : bool).

Section WithHost.
Context (host : Host).

Fixpoint run (c : Invocation) (s : Storage) : result Storage :=
  match c with
  | invoke sender m callback accepts =>
      let during (s0 : Storage) : Storage :=
        fold_left (fun st c' => match run c' st with inl _ => st | inr st' => st' end)
                  callback s0 in
      match m with
      | Mint encryptedMessage inputProof imageURI =>
          let tokenId := _nextTokenId s in
          let s1 := {| erc721 := erc721 s; _owner := _owner s;
                       _nextTokenId := uint256 (tokenId + 1);
                       _baseTokenURI := _baseTokenURI s;
                       _tokenMessages := _tokenMessages s;
                       _tokenImageURIs := _tokenImageURIs s; acl := acl s |} in
          match _mint host sender tokenId s1 with
          | inl r => inl r
          | inr minted =>
              let s2 := during minted in
              if negb accepts then inl (ERC721InvalidReceiver sender)
              else
                match FHE_fromExternal host encryptedMessage inputProof sender with
                | None => inl InvalidInputProof
                | Some message =>
                    let s3 := {| erc721 := erc721 s2; _owner := _owner s2;
                                 _nextTokenId := _nextTokenId s2;
                                 _baseTokenURI := _baseTokenURI s2;
                                 _tokenMessages := <[tokenId := message]> (_tokenMessages s2);
                                 _tokenImageURIs
                                   := <[tokenId := imageURI]> (_tokenImageURIs s2);
                                 acl := acl s2 |} in
                    inr (FHE_allow message sender (FHE_allowThis host message s3))
                end
          end
      | SafeTransferFrom from to tokenId =>
          match transferFrom host sender from to tokenId s with
          | inl r => inl r
          | inr transferred =>
              if accepts then inr (during transferred)
              else inl (ERC721InvalidReceiver to)
          end
      | _ => execute host sender m s
      end
  end.

(** A block of calls; a reverted one changes nothing. *)
Definition run_all (calls : list Invocation) (s : Storage) : Storage :=
  fold_left (fun st c => match run c st with inl _ => st | inr st' => st' end) calls s.

End WithHost.

(** No callback of a mint calls the contract back, at any depth. *)
Fixpoint quiet_mints (c : Invocation) : bool :=
  match c with
  | invoke _ m callback _ =>
      match m with
      | Mint _ _ _ => match callback with [] => true | _ :: _ => false end
      | _ => forallb quiet_mints callback
      end
  end.

Fixpoint depth (c : Invocation) : nat :=
  match c with
  | invoke _ _ callback _ => S (fold_right (fun c' n => Nat.max (depth c') n) 0%nat callback)
  end.

(** Account 17 mints token 1 and sends it to the contract 50, which
    passes it on to account 18 from its callback. *)
Definition forwarded_on_receipt : list Invocation :=
  [ invoke 17 (Mint 4242 [1; 2] Sample.data_url) [] true;
    invoke 17 (SafeTransferFrom 17 50 1) [invoke 50 (TransferFrom 50 18 1) [] true] true ].

(** The contract 50 mints token 1 and passes it on to account 18 from
    the callback of the mint. *)
Definition forwarded_while_minted : list Invocation :=
  [ invoke 50 (Mint 4242 [1; 2] Sample.data_url) [invoke 50 (TransferFrom 50 18 1) [] true]
      true ].

End Reentrancy.

(** ** Invariants of the contract's bookkeeping *)

Module ContractInvariant.
Import HiddenAttributeNFT.

(** Every token that has an encrypted message has its owner, and the
    contract, on the access list of that message. *)
Definition owner_allowed (host : Host) (s : Storage) : Prop :=
  forall tokenId,
    FHE_isInitialized (message_of s tokenId) = true ->
    (message_of s tokenId, _ownerOf (erc721 s) tokenId) ∈ acl s
    /\ (message_of s tokenId, this host) ∈ acl s.



End ContractInvariant.

(** * Properties *)

(** ** Running programs *)

Lemma run_bind {S A B} (o : Oracle) (p : prog S A) (f : A -> prog S B) s t :
  run o (bind p f) s t
  = match run o p s t with
    | (inr a, s', t') => run o (f a) s' t'
    | (inl e, s', t') => (inl e, s', t')
    end.
Proof.
  revert s t. induction p as [a|e|g k IH|k IH|a k IH|c k IH]; intros s t;
    cbn [bind run]; auto.
Qed.

Lemma run_try_catch {S A} (o : Oracle) (p : prog S A) (h : JsError -> prog S A) s t :
  run o (try_catch p h) s t
  = match run o p s t with
    | (inr a, s', t') => (inr a, s', t')
    | (inl e, s', t') => run o (h e) s' t'
    end.
Proof.
  revert s t. induction p as [a|e|g k IH|k IH|a k IH|c k IH]; intros s t;
    cbn [try_catch run]; auto.
Qed.

(** The trace only grows. *)
Lemma run_extends {S A} (o : Oracle) (p : prog S A) s t :
  exists new, events (run o p s t) = t ++ new.
Proof.
  revert s t. induction p as [a|e|g k IH|k IH|a k IH|c k IH]; intros s t; cbn [run].
  - exists []. cbn. by rewrite app_nil_r.
  - exists []. cbn. by rewrite app_nil_r.
  - apply IH.
  - apply IH.
  - destruct (IH s (t ++ [Did a])) as [new ->]. exists (Did a :: new).
    by rewrite <- app_assoc.
  - destruct (IH (o t c) s (t ++ [Called c])) as [new ->]. exists (Called c :: new).
    by rewrite <- app_assoc.
Qed.

Lemma each_event_at (P : list Event -> Event -> list Event -> Prop)
    (before : list Event) (e : Event) (after t : list Event) :
  each_event P t (before ++ e :: after) -> P (t ++ before) e after.
Proof.
  revert t. induction before as [|x before IH]; intros t; cbn [each_event app].
  - rewrite app_nil_r. intros [H _]. exact H.
  - intros [_ H]. apply IH in H. rewrite <- app_assoc in H. exact H.
Qed.

Lemma at_call (o : Oracle) (before : list Event) (c0 : Call) (Q : Call -> Prop) :
  (rejected (o before c0) -> Q c0) ->
  forall c, Called c0 = Called c -> rejected (o before c) -> Q c.
Proof. intros H c [= <-]. exact H. Qed.

Lemma at_write (key0 value0 : jsstring) (Q : jsstring -> jsstring -> Prop) :
  Q key0 value0 ->
  forall key value,
    Did (LocalStorage_setItem key0 value0) = Did (LocalStorage_setItem key value) ->
    Q key value.
Proof. intros H key value [= <- <-]. exact H. Qed.

(** *** Tactics: a program is run by unfolding it and by cases on what
    the oracle answers and on the tests it makes. *)

Ltac run_simpl :=
  cbn [run bind try_catch finally call modify note skip
       localStorage_setItem localStorage_getItem events outcome final fst snd
       negb andb orb imageUri previewUrl rejected
       set_component set_fhevmInstance store_item fhevmInstance window_ethereum
       Array_from_undefined
       FheEncryption.encryptedMessage FheEncryption.inputProof_hex].

Ltac advance_simpl :=
  cbn [advance bind try_catch finally call modify note skip
       localStorage_setItem localStorage_getItem fst snd negb andb orb].

Ltac world_simpl :=
  cbn [component localStorage set_component store_item set_fhevmInstance
       V2Simple.with_mintValue V2Simple.with_selectedImage V2Simple.with_minting
       V2Simple.with_mintStatus V2Simple.with_transferToken V2Simple.with_transferAddress
       V2Simple.with_transferring V2Simple.with_transferStatus
       V2Simple.with_decryptedAttributes V2Simple.with_activeDecrypt
       V2Simple.with_decryptStatus V2Simple.with_activeTab
       V2Simple.mintStatus V2Simple.transferStatus V2Simple.decryptedAttributes
       V2Simple.activeDecrypt V2Simple.decryptStatus V2Simple.nfts
       V2Simple.wallet_address V2Simple.wallet_isConnected V2Simple.loadingNFTs
       V2Simple.activeTab V2Simple.transferring].

Ltac app_simpl :=
  cbn [component localStorage set_component
       HiddenNFTApp.with_decryptedAttributes HiddenNFTApp.with_activeDecrypt
       HiddenNFTApp.with_decryptStatus HiddenNFTApp.decryptedAttributes
       HiddenNFTApp.activeDecrypt HiddenNFTApp.decryptStatus].

Ltac next_answer o :=
  match goal with
  | |- context [o ?t ?c] =>
      let E := fresh "Hanswer" in
      destruct (o t c) eqn:E; run_simpl
  end.

Ltac next_cond :=
  match goal with
  | |- context [if ?b then _ else _] =>
      lazymatch b with
      | context [if _ then _ else _] => fail
      | context [match _ with _ => _ end] => fail
      | _ => destruct b eqn:?; run_simpl
      end
  | |- context [match ?x with Some _ => _ | None => _ end] =>
      lazymatch x with
      | context [if _ then _ else _] => fail
      | _ => destruct x eqn:?; run_simpl
      end
  | |- context [match ?x with inl _ => _ | inr _ => _ end] =>
      destruct x eqn:?; run_simpl
  | |- context [match ?x with [] => _ | _ :: _ => _ end] =>
      destruct x eqn:?; run_simpl
  end.

Ltac upload_unfold :=
  unfold ImageUpload.uploadImage, ImageUpload.uploadToPinata, ImageUpload.uploadAsBase64.

Ltac encrypt_unfold :=
  unfold FheEncryption.encryptMessage, FheEncryption.initializeFHE.

Ltac state_unfold :=
  unfold V2Simple.setMintStatus, V2Simple.setMinting, V2Simple.setMintValue,
    V2Simple.setSelectedImage, V2Simple.setActiveTab.

Ltac mint_unfold :=
  unfold V2Simple.handleMint; upload_unfold; encrypt_unfold; state_unfold.

Ltac transfer_unfold :=
  unfold V2Simple.handleTransfer, V2Simple.setTransferStatus, V2Simple.setTransferring,
    V2Simple.setTransferToken, V2Simple.setTransferAddress.

Ltac reveal_unfold :=
  unfold V2Simple.decryptMessage, FheEncryption.decryptUint256,
    V2Simple.setActiveDecrypt, V2Simple.setDecryptStatus,
    V2Simple.updateDecryptedAttributes.

Ltac app_unfold :=
  unfold HiddenNFTApp.decryptMessage, HiddenNFTApp.setActiveDecrypt,
    HiddenNFTApp.setDecryptStatus, HiddenNFTApp.updateDecryptedAttributes.

(** The events of a finished run, split from the trace it started on. *)
Ltac new_events :=
  first [ exists []; split; [symmetry; apply app_nil_r|]
        | rewrite <- ?app_assoc; cbn [app]; eexists; split; [reflexivity|] ].

Ltac in_order :=
  cbn [mint_steps mint_step];
  repeat match goal with
         | |- StronglySorted _ [] => apply SSorted_nil
         | |- StronglySorted _ (_ :: _) => apply SSorted_cons
         | |- Forall _ [] => constructor
         | |- Forall _ (_ :: _) => constructor
         end;
  unfold precedes; cbn [rank];
  first [ left; lia | right; split; [reflexivity|lia] ].

(** ** The plaintext integer *)

Lemma scalar_values_range (s : jsstring) :
  js_wf s -> Forall (fun c => 0 <= c < 1114112) (scalar_values s).
Proof.
  unfold js_wf, code_unit.
  remember (length s) as n eqn:Hn.
  revert s Hn. induction n as [n IH] using lt_wf_ind. intros s Hn Hwf.
  destruct s as [|u rest]; [constructor|].
  inversion Hwf as [|? ? Hu Hrest]; subst.
  cbn [scalar_values].
  destruct (is_lead u) eqn:Hlead.
  - unfold is_lead in Hlead.
    destruct rest as [|v rest'].
    + repeat constructor; lia.
    + inversion Hrest as [|? ? Hv Hrest']; subst.
      destruct (is_trail v) eqn:Htrail.
      * unfold is_trail in Htrail. constructor; [lia|].
        eapply (IH (length rest')); [cbn; lia|reflexivity|assumption].
      * constructor; [lia|].
        eapply (IH (length (v :: rest'))); [cbn; lia|reflexivity|assumption].
  - destruct (is_trail u).
    + constructor; [lia|].
      eapply (IH (length rest)); [cbn; lia|reflexivity|assumption].
    + constructor; [lia|].
      eapply (IH (length rest)); [cbn; lia|reflexivity|assumption].
Qed.

Lemma utf8_bytes (c : Z) : 0 <= c < 1114112 -> Forall is_byte (utf8 c).
Proof.
  intros Hc. unfold utf8, is_byte.
  repeat match goal with
         | |- context [?a <? ?b] => destruct (Z.ltb_spec a b)
         end;
    repeat constructor;
    try (pose proof (Z.mod_pos_bound c 64 ltac:(lia));
         pose proof (Z.mod_pos_bound (c / 64) 64 ltac:(lia));
         pose proof (Z.mod_pos_bound (c / 4096) 64 ltac:(lia)); lia);
    try (apply Z.add_nonneg_nonneg; [lia|apply Z.div_pos; lia]).
  - assert (c / 64 < 32) by (apply Z.div_lt_upper_bound; lia). lia.
  - assert (c / 4096 < 16) by (apply Z.div_lt_upper_bound; lia). lia.
  - assert (c / 262144 < 8) by (apply Z.div_lt_upper_bound; lia). lia.
Qed.

Lemma TextEncoder_encode_bytes (s : jsstring) :
  js_wf s -> Forall is_byte (TextEncoder_encode s).
Proof.
  intros Hwf. unfold TextEncoder_encode.
  pose proof (scalar_values_range s Hwf) as Hr.
  induction Hr as [|c cs Hc _ IH]; cbn [flat_map]; [constructor|].
  apply Forall_app. split; [apply utf8_bytes; exact Hc|exact IH].
Qed.

Lemma js_wf_ascii (s : string) : js_wf (js s).
Proof.
  unfold js_wf, js. apply Forall_forall. intros u Hu.
  apply list_elem_of_In, in_map_iff in Hu. destruct Hu as [a [<- _]].
  pose proof (N_ascii_bounded a). unfold code_unit. lia.
Qed.

Lemma little_endian_snoc (bs : list Z) (b : Z) :
  little_endian_to_Z 8 (bs ++ [b])
  = Z.lor (little_endian_to_Z 8 bs) (Z.shiftl b (Z.of_nat (length bs * 8))).
Proof.
  induction bs as [|b0 bs IH]; cbn [little_endian_to_Z app length].
  - rewrite Z.shiftl_0_l, Z.lor_0_r, Z.lor_0_l. reflexivity.
  - rewrite IH, Z.shiftl_lor, Z.shiftl_shiftl by lia.
    rewrite Z.lor_assoc. do 2 f_equal. lia.
Qed.

(** The loop, turn by turn, builds the little-endian value of the bytes
    it has read. *)
Lemma pack_loop_little_endian (bytes : list Z) (n : nat) :
  (n <= length bytes)%nat ->
  fold_left (FheEncryption.pack_step bytes) (seq 0 n) 0
  = little_endian_to_Z 8 (take n bytes).
Proof.
  induction n as [|n IH]; intros Hn; [reflexivity|].
  rewrite seq_S, fold_left_app. cbn [fold_left Nat.add].
  rewrite IH by lia. unfold FheEncryption.pack_step.
  destruct (lookup_lt_is_Some_2 bytes n ltac:(lia)) as [b Hb].
  rewrite (take_S_r _ _ _ Hb), little_endian_snoc.
  rewrite length_take, Nat.min_l by lia.
  rewrite (nth_lookup_Some _ _ _ _ Hb). reflexivity.
Qed.

Lemma pack_bytes_little_endian (bytes : list Z) :
  FheEncryption.pack_bytes bytes = little_endian_to_Z 8 (take 32 bytes).
Proof.
  unfold FheEncryption.pack_bytes.
  rewrite pack_loop_little_endian by lia.
  f_equal. destruct (Nat.le_ge_cases (length bytes) 32).
  - rewrite Nat.min_l by lia. rewrite !take_ge by lia. reflexivity.
  - rewrite Nat.min_r by lia. reflexivity.
Qed.

Lemma little_endian_byte (bs : list Z) (i : nat) :
  Forall is_byte bs ->
  Z.land (Z.shiftr (little_endian_to_Z 8 bs) (8 * Z.of_nat i)) 255 = nth i bs 0.
Proof.
  intros Hbs.
  assert (Hbs' : Forall (fun b => 0 <= b < 2 ^ 8) bs) by exact Hbs.
  destruct (bs !! i) as [b|] eqn:Hi.
  - rewrite (nth_lookup_Some _ _ _ _ Hi).
    pose proof (Z_to_little_endian_to_Z (Z.of_nat (length bs)) 8 bs eq_refl
                  ltac:(lia) Hbs') as Hround.
    rewrite <- Hround in Hi.
    apply Z_to_little_endian_lookup_Some in Hi; [|lia|lia].
    destruct Hi as [_ ->]. change (Z.ones 8) with 255.
    do 2 f_equal. lia.
  - apply lookup_ge_None_1 in Hi.
    rewrite nth_overflow by lia.
    pose proof (little_endian_to_Z_bound 8 bs ltac:(lia) Hbs') as [Hlo Hhi].
    rewrite Z.shiftr_div_pow2 by lia.
    rewrite Z.div_small; [reflexivity|]. split; [lia|].
    eapply Z.lt_le_trans; [exact Hhi|].
    apply Z.pow_le_mono_r; lia.
Qed.

(** The only integer [encryptMessage] hands to the SDK is [messageNum]. *)
Lemma encryptMessage_value (cfg : Config) {C} (o : Oracle) (message : jsstring)
    (w : Browser C) (t : list Event) inst ca ua v :
  Called (EncryptedInputEncrypt inst ca ua v)
    ∈ events (run o (FheEncryption.encryptMessage cfg message) w t) ->
  Called (EncryptedInputEncrypt inst ca ua v) ∈ t
  \/ (v = FheEncryption.messageNum message /\ ca = CONTRACT_ADDRESS cfg).
Proof.
  encrypt_unfold. run_simpl.
  destruct (fhevmInstance w) as [i|]; run_simpl; [|destruct (window_ethereum w); run_simpl].
  all: repeat (next_answer o).
  all: repeat match goal with |- context [handles ?e] => destruct (handles e); run_simpl end.
  all: rewrite ?elem_of_app, ?elem_of_cons, ?elem_of_nil.
  all: intros Hin; try (left; exact Hin).
  all: decompose [or] Hin; auto; try discriminate; try contradiction.
  all: match goal with H : Called _ = Called _ |- _ => inversion H; subst; auto end.
Qed.

(** A run of [encryptMessage] that returns has called the SDK's
    encryption once, as its last call and with [messageNum], and
    returns the first handle and the proof of the answer, in
    hexadecimal. *)
Lemma encryptMessage_returns (cfg : Config) {C} (o : Oracle) (message : jsstring)
    (w : Browser C) (t : list Event) (encrypted : FheEncryption.EncryptedMessage) :
  outcome (run o (FheEncryption.encryptMessage cfg message) w t) = inr encrypted ->
  exists before instance userAddress answer handle others,
    events (run o (FheEncryption.encryptMessage cfg message) w t)
    = t ++ before
        ++ [Called (EncryptedInputEncrypt instance (CONTRACT_ADDRESS cfg) userAddress
                      (FheEncryption.messageNum message))]
    /\ (forall i ca ua v, Called (EncryptedInputEncrypt i ca ua v) ∉ before)
    /\ o (t ++ before)
         (EncryptedInputEncrypt instance (CONTRACT_ADDRESS cfg) userAddress
            (FheEncryption.messageNum message)) = inr answer
    /\ handles answer = handle :: others
    /\ encrypted = {| FheEncryption.encryptedMessage := FheEncryption.toHexString handle;
                      FheEncryption.inputProof_hex
                        := FheEncryption.toHexString (inputProof answer) |}.
Proof.
  encrypt_unfold. run_simpl.
  destruct (fhevmInstance w) as [i|]; run_simpl; [|destruct (window_ethereum w); run_simpl];
    repeat (next_answer o); try discriminate;
    repeat match goal with
           | |- context [handles ?e] => destruct (handles e) eqn:?; run_simpl
           end; try discriminate;
    intros [= <-];
    match goal with
    | H : _ ?t0 (EncryptedInputEncrypt ?i0 _ ?ua _) = inr ?answer,
      Hh : handles ?answer = ?h :: ?rest |- _ =>
        exists (drop (length t) t0), i0, ua, answer, h, rest
    end;
    rewrite <- ?app_assoc; rewrite ?drop_app_length; cbn [app];
    (split; [reflexivity|]);
    (split;
       [intros ? ? ? ?; rewrite ?not_elem_of_cons; repeat split;
        solve [discriminate | apply not_elem_of_nil]|]);
    (split; [rewrite <- ?app_assoc in *; cbn [app] in *; assumption|]);
    (split; [assumption|reflexivity]).
Qed.

(** With a wallet provider, collaborators that answer every call and an
    encryption that comes with a handle, [encryptMessage] returns. *)
Lemma encryptMessage_succeeds (cfg : Config) {C} (o : Oracle) (message : jsstring)
    (w : Browser C) (t : list Event) :
  fhevmInstance w <> None \/ window_ethereum w = true ->
  (forall t' c, ~ rejected (o t' c)) ->
  (forall t' i ca ua v answer,
      o t' (EncryptedInputEncrypt i ca ua v) = inr answer -> handles answer <> []) ->
  exists encrypted,
    outcome (run o (FheEncryption.encryptMessage cfg message) w t) = inr encrypted.
Proof.
  intros Hready Hanswers Hhandle. encrypt_unfold. run_simpl.
  destruct (fhevmInstance w) as [i|]; run_simpl;
    [|destruct Hready as [Hnone|Hwallet]; [contradiction|rewrite Hwallet]; run_simpl];
    repeat match goal with
           | |- context [o ?t0 ?c] =>
               let E := fresh "Hanswer" in
               pose proof (Hanswers t0 c) as E;
               destruct (o t0 c) eqn:?; [exfalso; apply E; exact I|clear E]; run_simpl
           end;
    match goal with
    | H : _ _ (EncryptedInputEncrypt _ _ _ _) = inr ?answer |- _ =>
        apply Hhandle in H; destruct (handles answer); [contradiction|]
    end;
    run_simpl; eexists; reflexivity.
Qed.

(** What [handleMint] submits to the contract is what the SDK answered
    for [messageNum] of the message of the form. *)
Lemma handleMint_submits_the_encryption (cfg : Config) (o : Oracle) (s : V2Simple.State)
    (w : V2Simple.World) (t : list Event) signer encryptedMessage inputProof_hex imageUri :
  Called (ContractMint signer encryptedMessage inputProof_hex imageUri)
    ∈ drop (length t) (events (run o (V2Simple.handleMint cfg s) w t)) ->
  exists earlier instance userAddress answer handle others,
    o earlier (EncryptedInputEncrypt instance (CONTRACT_ADDRESS cfg) userAddress
                 (FheEncryption.messageNum (V2Simple.mintValue s))) = inr answer
    /\ handles answer = handle :: others
    /\ encryptedMessage = FheEncryption.toHexString handle
    /\ inputProof_hex = FheEncryption.toHexString (inputProof answer).
Proof.
  mint_unfold. run_simpl.
  repeat next_cond;
    rewrite <- ?app_assoc, ?drop_app_length, ?drop_all; cbn [app];
    rewrite ?elem_of_cons, ?elem_of_nil; intros Hin;
    repeat match goal with
           | H : _ \/ _ |- _ => destruct H as [H|H]
           | H : False |- _ => destruct H
           end; try discriminate;
    match goal with
    | H : Called _ = Called _ |- _ => injection H as -> -> -> ->
    end;
    match goal with
    | H : _ ?earlier (EncryptedInputEncrypt ?i _ ?ua _) = inr ?answer,
      Hh : handles ?answer = ?h :: ?rest |- _ =>
        exists earlier, i, ua, answer, h, rest
    end; repeat split; assumption.
Qed.

(** C3. [encryptMessage] packs the first 32 bytes of the UTF-8 encoding
    of the message, little-endian, into the integer it encrypts. The
    integer is below 2^256, its [i]-th byte is the [i]-th byte of the
    encoding (zero past its end), and two messages whose encodings agree
    on their first 32 bytes give the same integer. That integer is what
    [encryptMessage] hands to the SDK: a run that returns has made one
    encryption call, its last call, with that integer for the contract
    of the configuration, and returns the first handle and the proof
    that the SDK answered, in hexadecimal; with a wallet provider and
    collaborators that answer, the run does return. Nothing else of the
    message is used: on two messages that agree on their first 32 bytes
    [encryptMessage] runs alike, call for call, and returns the same.
    And what [handleMint] submits to the contract is the handle and the
    proof that the SDK answered for that integer. *)
Theorem encryptMessage_encodes_first_32_bytes (message : jsstring) :
  js_wf message ->
  FheEncryption.messageNum message
    = little_endian_to_Z 8 (take 32 (TextEncoder_encode message))
  /\ 0 <= FheEncryption.messageNum message < 2 ^ 256
  /\ (forall i : nat, (i < 32)%nat ->
        Z.land (Z.shiftr (FheEncryption.messageNum message) (8 * Z.of_nat i)) 255
        = nth i (TextEncoder_encode message) 0)
  /\ (forall message' : jsstring,
        take 32 (TextEncoder_encode message') = take 32 (TextEncoder_encode message) ->
        FheEncryption.messageNum message' = FheEncryption.messageNum message)
  /\ (forall (cfg : Config) (C : Type) (o : Oracle) (w : Browser C) (t : list Event)
             inst ca ua v,
        Called (EncryptedInputEncrypt inst ca ua v)
          ∈ events (run o (FheEncryption.encryptMessage cfg message) w t) ->
        Called (EncryptedInputEncrypt inst ca ua v) ∈ t
        \/ v = FheEncryption.messageNum message)
  /\ (forall (cfg : Config) (C : Type) (o : Oracle) (w : Browser C) (t : list Event)
             (encrypted : FheEncryption.EncryptedMessage),
        outcome (run o (FheEncryption.encryptMessage cfg message) w t) = inr encrypted ->
        exists before instance userAddress answer handle others,
          events (run o (FheEncryption.encryptMessage cfg message) w t)
          = t ++ before
              ++ [Called (EncryptedInputEncrypt instance (CONTRACT_ADDRESS cfg) userAddress
                            (little_endian_to_Z 8 (take 32 (TextEncoder_encode message))))]
          /\ (forall i ca ua v, Called (EncryptedInputEncrypt i ca ua v) ∉ before)
          /\ o (t ++ before)
               (EncryptedInputEncrypt instance (CONTRACT_ADDRESS cfg) userAddress
                  (little_endian_to_Z 8 (take 32 (TextEncoder_encode message))))
             = inr answer
          /\ handles answer = handle :: others
          /\ encrypted
             = {| FheEncryption.encryptedMessage := FheEncryption.toHexString handle;
                  FheEncryption.inputProof_hex
                    := FheEncryption.toHexString (inputProof answer) |})
  /\ (forall (cfg : Config) (C : Type) (o : Oracle) (w : Browser C) (t : list Event),
        fhevmInstance w <> None \/ window_ethereum w = true ->
        (forall t' c, ~ rejected (o t' c)) ->
        (forall t' i ca ua v answer,
            o t' (EncryptedInputEncrypt i ca ua v) = inr answer -> handles answer <> []) ->
        exists encrypted,
          outcome (run o (FheEncryption.encryptMessage cfg message) w t) = inr encrypted)
  /\ (forall message' : jsstring,
        take 32 (TextEncoder_encode message') = take 32 (TextEncoder_encode message) ->
        forall (cfg : Config) (C : Type) (o : Oracle) (w : Browser C) (t : list Event),
          run o (FheEncryption.encryptMessage cfg message') w t
          = run o (FheEncryption.encryptMessage cfg message) w t)
  /\ (forall (cfg : Config) (o : Oracle) (s : V2Simple.State) (w : V2Simple.World)
             (t : list Event) signer encryptedMessage inputProof_hex imageUri,
        V2Simple.mintValue s = message ->
        Called (ContractMint signer encryptedMessage inputProof_hex imageUri)
          ∈ drop (length t) (events (run o (V2Simple.handleMint cfg s) w t)) ->
        exists earlier instance userAddress answer handle others,
          o earlier
            (EncryptedInputEncrypt instance (CONTRACT_ADDRESS cfg) userAddress
               (little_endian_to_Z 8 (take 32 (TextEncoder_encode message))))
          = inr answer
          /\ handles answer = handle :: others
          /\ encryptedMessage = FheEncryption.toHexString handle
          /\ inputProof_hex = FheEncryption.toHexString (inputProof answer)).
Proof.
  intros Hwf.
  pose proof (TextEncoder_encode_bytes message Hwf) as Hbytes.
  assert (Htake : Forall is_byte (take 32 (TextEncoder_encode message)))
    by (apply Forall_take; exact Hbytes).
  assert (Hnum : FheEncryption.messageNum message
                 = little_endian_to_Z 8 (take 32 (TextEncoder_encode message)))
    by (unfold FheEncryption.messageNum; apply pack_bytes_little_endian).
  assert (Hsame : forall message' : jsstring,
             take 32 (TextEncoder_encode message') = take 32 (TextEncoder_encode message) ->
             FheEncryption.messageNum message' = FheEncryption.messageNum message).
  { intros message' Heq. unfold FheEncryption.messageNum.
    rewrite !pack_bytes_little_endian, Heq. reflexivity. }
  split; [exact Hnum|].
  split; [|split; [|split; [exact Hsame|split; [|split; [|split; [|split]]]]]].
  - rewrite Hnum.
    pose proof (little_endian_to_Z_bound 8 _ ltac:(lia) Htake) as [Hlo Hhi].
    split; [exact Hlo|]. eapply Z.lt_le_trans; [exact Hhi|].
    apply Z.pow_le_mono_r; [lia|]. rewrite length_take. lia.
  - intros i Hi. rewrite Hnum, little_endian_byte by exact Htake.
    destruct (TextEncoder_encode message !! i) as [b|] eqn:Hb.
    + rewrite (nth_lookup_Some _ _ _ b), (nth_lookup_Some _ _ _ _ Hb); [reflexivity|].
      rewrite lookup_take_lt by lia. exact Hb.
    + apply lookup_ge_None_1 in Hb. rewrite !nth_overflow; [reflexivity|lia|].
      rewrite length_take. lia.
  - intros cfg C o w t inst ca ua v Hin.
    destruct (encryptMessage_value cfg o message w t inst ca ua v Hin) as [?|[-> _]]; auto.
  - intros cfg C o w t encrypted Hreturned. rewrite <- Hnum.
    exact (encryptMessage_returns cfg o message w t encrypted Hreturned).
  - intros cfg C o w t. apply encryptMessage_succeeds.
  - intros message' Heq cfg C o w t. unfold FheEncryption.encryptMessage.
    rewrite (Hsame message' Heq). reflexivity.
  - intros cfg o s w t signer encryptedMessage inputProof_hex imageUri Hform Hsent.
    rewrite <- Hnum, <- Hform.
    exact (handleMint_submits_the_encryption cfg o s w t _ _ _ _ Hsent).
Qed.

Lemma encryptMessage_encodes_first_32_bytes_witness :
  let kept := js "0123456789abcdef0123456789abcdef" in
  let message := kept ++ js " and what follows the 32nd byte" in
  let r := run Sample.helpful (FheEncryption.encryptMessage Sample.cfg message)
             (Sample.browser_of Sample.mounted ∅) [] in
  js_wf message
  /\ length kept = 32%nat
  /\ FheEncryption.messageNum message = FheEncryption.messageNum kept
  /\ outcome r = inr {| FheEncryption.encryptedMessage := js "0xabcd";
                        FheEncryption.inputProof_hex := js "0x010203" |}
  /\ last (events r)
     = Some (Called (EncryptedInputEncrypt {| instance_chainId := 11155111 |}
                       (CONTRACT_ADDRESS Sample.cfg) Sample.alice
                       (little_endian_to_Z 8 (TextEncoder_encode kept))))
  /\ r = run Sample.helpful (FheEncryption.encryptMessage Sample.cfg kept)
           (Sample.browser_of Sample.mounted ∅) [].
Proof.
  intros kept message r.
  pose proof (encryptMessage_encodes_first_32_bytes message
                (js_wf_ascii "0123456789abcdef0123456789abcdef and what follows the 32nd byte"))
    as (_ & _ & _ & Hnum & _ & _ & _ & Hrun & _).
  split; [apply (js_wf_ascii "0123456789abcdef0123456789abcdef and what follows the 32nd byte")|].
  split; [vm_compute; reflexivity|].
  split; [symmetry; apply Hnum; vm_compute; reflexivity|].
  split; [vm_compute; reflexivity|].
  split; [vm_compute; reflexivity|].
  symmetry. apply Hrun. vm_compute. reflexivity.
Defined.

(** Two messages of 33 and of 100 characters, both accepted by the form,
    that differ only after their 32nd byte are encrypted as the same
    integer. *)
Example encryptMessage_drops_the_tail :
  let short := js "0123456789abcdef0123456789abcdefX" in
  let long := js "0123456789abcdef0123456789abcdef" ++ repeat 89 68 in
  length short = 33%nat /\ length long = 100%nat /\ short <> long
  /\ FheEncryption.messageNum short = FheEncryption.messageNum long.
Proof. vm_compute. repeat split; congruence. Qed.

(** ** The upload *)

(** The upload neither reads nor changes the state it runs in. *)
Lemma uploadImage_run (cfg : Config) (o : Oracle) (file : File) {S} (s : S) t :
  run o (ImageUpload.uploadImage cfg file) s t
  = (outcome (run o (ImageUpload.uploadImage cfg file) tt t), s,
     events (run o (ImageUpload.uploadImage cfg file) tt t)).
Proof.
  upload_unfold. run_simpl. repeat next_cond; reflexivity.
Qed.

Lemma uploadImage_events (cfg : Config) (o : Oracle) (file : File) t :
  exists new,
    events (run o (ImageUpload.uploadImage cfg file) tt t) = t ++ new
    /\ Forall (fun e => mint_step e = Some UploadImage) new.
Proof.
  upload_unfold. run_simpl. repeat next_cond.
  all: new_events; repeat constructor.
Qed.

(** Rewrites the upload inside a larger run into the upload run alone. *)
Ltac isolate_upload cfg o image t :=
  rewrite run_bind, run_try_catch, run_bind, run_try_catch, run_bind;
  match goal with
  | |- context [run o (ImageUpload.uploadImage cfg image) ?w1 t] =>
      lazymatch w1 with
      | tt => fail
      | _ => rewrite (uploadImage_run cfg o image w1 t)
      end
  end.

(** C5 (as amended). With no pinning service configured, an image file
    larger than the inline ceiling of 100 KB is refused by [uploadImage]
    with an error that names the size; nothing is read or inlined, and a
    mint of that file makes no call at all, so no transaction is sent. *)
Theorem uploadImage_rejects_above_inline_ceiling (cfg : Config) (o : Oracle) (file : File) :
  startsWith (file_type file) (js "image/") = true ->
  truthy_opt (VITE_PINATA_API_KEY cfg) = false ->
  file_size file > ImageUpload.maxBase64Size ->
  (forall (S : Type) (s : S) (t : list Event),
      run o (ImageUpload.uploadImage cfg file) s t = (inl (size_error file), s, t))
  /\ (forall (s : V2Simple.State) (w : V2Simple.World) (t : list Event),
        V2Simple.selectedImage s = Some file ->
        events (run o (V2Simple.handleMint cfg s) w t) = t).
Proof.
  intros Htype Hkey Hsize.
  assert (Hupload : forall (S : Type) (s : S) (t : list Event),
             run o (ImageUpload.uploadImage cfg file) s t = (inl (size_error file), s, t)).
  { intros S s t. unfold ImageUpload.uploadImage, size_error.
    rewrite Htype, Hkey. run_simpl.
    destruct (file_size file >? ImageUpload.maxSize); run_simpl; [reflexivity|].
    destruct (Z.gtb_spec (file_size file) ImageUpload.maxBase64Size); [reflexivity|lia]. }
  split; [exact Hupload|].
  intros s w t Himage. unfold V2Simple.handleMint. rewrite Himage.
  state_unfold. run_simpl.
  destruct (V2Simple.connected s); run_simpl; [|reflexivity].
  destruct (truthy (trim (V2Simple.mintValue s))); run_simpl; [|reflexivity].
  rewrite run_bind, run_try_catch, run_bind, run_try_catch, run_bind, Hupload.
  reflexivity.
Qed.

Lemma uploadImage_rejects_above_inline_ceiling_witness :
  events (run Sample.helpful
            (V2Simple.handleMint Sample.cfg
               (Sample.mint_form (js "hello") (Sample.png 102401)))
            (Sample.browser_of Sample.mounted ∅) []) = [].
Proof.
  apply (uploadImage_rejects_above_inline_ceiling Sample.cfg Sample.helpful
           (Sample.png 102401)).
  - reflexivity.
  - reflexivity.
  - reflexivity.
  - reflexivity.
Defined.

(** C5 as stated fails at the ceiling itself: a file of exactly 100 KB,
    with no pinning service configured, is inlined. *)
Lemma uploadImage_inlines_at_ceiling :
  file_size (Sample.png 102400) >= ImageUpload.maxBase64Size
  /\ startsWith (file_type (Sample.png 102400)) (js "image/") = true
  /\ truthy_opt (VITE_PINATA_API_KEY Sample.cfg) = false
  /\ run Sample.helpful (ImageUpload.uploadImage Sample.cfg (Sample.png 102400)) tt []
     = (inr {| imageUri := Sample.data_url; previewUrl := Sample.data_url |}, tt,
        [Called (FileReaderReadAsDataURL (Sample.png 102400))]).
Proof. vm_compute. repeat split; congruence. Qed.

(** The other copy of the upload has no ceiling on the inline path: it
    inlines any image up to 10 MB. *)
Example uploadImage_copy_inlines_large_file :
  outcome (run Sample.helpful
             (ImageUploadCopy.uploadImage Sample.cfg (Sample.png 5000000)) tt [])
  = inr {| imageUri := Sample.data_url; previewUrl := Sample.data_url |}.
Proof. reflexivity. Qed.

(** ** The mint *)

(** C4 (as amended). [handleMint] refuses, before any call, a mint with
    no connected wallet, with no image, or with a blank message, each
    with its own status line. It makes no test on the length of the
    message: with a wallet, an image and a message that is not blank,
    whatever its length, it goes on to the upload. *)
Theorem handleMint_validation (cfg : Config) (o : Oracle) (s : V2Simple.State)
    (w : V2Simple.World) (t : list Event) :
  let r := run o (V2Simple.handleMint cfg s) w t in
  (V2Simple.connected s = false ->
     events r = t /\ mintStatus_after r = "💼 Please connect your wallet first.")
  /\ (V2Simple.connected s = true -> V2Simple.selectedImage s = None ->
        events r = t /\ mintStatus_after r = "Please select an image for the NFT.")
  /\ (forall image, V2Simple.connected s = true -> V2Simple.selectedImage s = Some image ->
        truthy (trim (V2Simple.mintValue s)) = false ->
        events r = t /\ mintStatus_after r = "Please enter a message for the NFT.")
  /\ (forall image, V2Simple.connected s = true -> V2Simple.selectedImage s = Some image ->
        truthy (trim (V2Simple.mintValue s)) = true ->
        exists rest,
          events r = events (run o (ImageUpload.uploadImage cfg image) tt t) ++ rest).
Proof.
  cbv zeta. unfold mintStatus_after, V2Simple.handleMint. state_unfold.
  split; [|split; [|split]].
  - intros Hc. rewrite Hc. split; reflexivity.
  - intros Hc Hi. rewrite Hc, Hi. split; reflexivity.
  - intros image Hc Hi Hm. rewrite Hc, Hi, Hm. split; reflexivity.
  - intros image Hc Hi Hm. rewrite Hc, Hi, Hm. run_simpl.
    isolate_upload cfg o image t.
    destruct (outcome (run o (ImageUpload.uploadImage cfg image) tt t)) as [e|uploaded];
      run_simpl.
    + exists []. by rewrite app_nil_r.
    + match goal with
      | |- context [run o ?p ?w1 ?t1] =>
          destruct (run_extends o p w1 t1) as [rest Hrest]
      end.
      exists rest.
      match goal with
      | |- context [run o ?p ?w1 ?t1] => destruct (run o p w1 t1) as [[[?|?] ?] ?]
      end; exact Hrest.
Qed.

Lemma handleMint_validation_witness :
  let r := run Sample.helpful
             (V2Simple.handleMint Sample.cfg (Sample.mint_form (js "   ") (Sample.png 51200)))
             (Sample.browser_of Sample.mounted ∅) [] in
  events r = [] /\ mintStatus_after r = "Please enter a message for the NFT.".
Proof.
  apply (handleMint_validation Sample.cfg Sample.helpful
           (Sample.mint_form (js "   ") (Sample.png 51200))
           (Sample.browser_of Sample.mounted ∅) [])
    with (image := Sample.png 51200).
  - reflexivity.
  - reflexivity.
  - reflexivity.
Defined.

(** C4 as stated fails: a message of 101 characters is not rejected; the
    mint runs through the upload, the encryption and the transaction,
    and ends on the success line. *)
Lemma handleMint_accepts_101_characters :
  let message := repeat 97 101 in
  let r := run Sample.helpful
             (V2Simple.handleMint Sample.cfg (Sample.mint_form message (Sample.png 51200)))
             (Sample.browser_of Sample.mounted ∅) [] in
  length message = 101%nat
  /\ mint_steps (events r)
     = [UploadImage; EncryptMessage; EncryptMessage; EncryptMessage; EncryptMessage;
        EncryptMessage; SubmitTransaction; AwaitConfirmation; WriteCache]
  /\ mintStatus_after r
     = "✅ NFT minted successfully! Check Etherscan for your transaction.".
Proof. vm_compute. repeat split. Qed.

(** The calls of a mint come in the order of its steps; a rejected call
    is the last one, the pinning service apart; the cache is written
    right after a confirmation, with the message of the form. *)
Lemma handleMint_trace (cfg : Config) (o : Oracle) (s : V2Simple.State)
    (w : V2Simple.World) (t : list Event) :
  exists new,
    events (run o (V2Simple.handleMint cfg s) w t) = t ++ new
    /\ StronglySorted precedes (mint_steps new)
    /\ each_event (fun before e after =>
                     forall c, e = Called c -> rejected (o before c) ->
                               after = [] \/ falls_back c) t new
    /\ each_event (fun before e after =>
                     forall key value, e = Did (LocalStorage_setItem key value) ->
                       value = V2Simple.mintValue s /\ after = []
                       /\ exists earlier tx receipt,
                            before = earlier ++ [Called (TxWait tx)]
                            /\ o earlier (TxWait tx) = inr (Some receipt)) t new.
Proof.
  mint_unfold. run_simpl.
  repeat next_cond.
  all: new_events.
  all: split; [in_order|].
  all: cbn [each_event]; split.
  all: repeat match goal with |- _ /\ _ => split | |- True => exact I end.
  all: try (intros ? ? Hc; discriminate Hc).
  all: try (intros ? Hc; discriminate Hc).
  all: try (apply (at_call o); intros Hrej;
            first [ left; reflexivity | right; exact I
                  | match goal with
                    | Heq : ?x = inr _, H : rejected ?x |- _ =>
                        rewrite Heq in H; contradiction
                    end ]).
  all: apply at_write.
  all: split; [reflexivity|split; [reflexivity|]].
  all: eexists _, _, _; split; [reflexivity|eassumption].
Qed.

(** The encryption depends on the browser only through the module
    variable [fhevmInstance], the presence of a wallet provider and the
    engine. *)
Lemma encryptMessage_agrees (cfg : Config) (o : Oracle) (message : jsstring)
    {C} (w1 w2 : Browser C) t :
  fhevmInstance w1 = fhevmInstance w2 ->
  window_ethereum w1 = window_ethereum w2 ->
  Array_from_undefined w1 = Array_from_undefined w2 ->
  outcome (run o (FheEncryption.encryptMessage cfg message) w1 t)
  = outcome (run o (FheEncryption.encryptMessage cfg message) w2 t)
  /\ events (run o (FheEncryption.encryptMessage cfg message) w1 t)
     = events (run o (FheEncryption.encryptMessage cfg message) w2 t).
Proof.
  intros Hi He Ha. encrypt_unfold. run_simpl. rewrite Hi, He.
  repeat next_cond; rewrite ?Ha; split; reflexivity.
Qed.

Lemma encryptMessage_events (cfg : Config) (o : Oracle) (message : jsstring)
    {C} (w : Browser C) t :
  exists new,
    events (run o (FheEncryption.encryptMessage cfg message) w t) = t ++ new
    /\ Forall (fun e => ~ later_than EncryptMessage e) new.
Proof.
  encrypt_unfold. run_simpl. repeat next_cond.
  all: new_events; repeat constructor; unfold later_than; cbn [mint_step rank];
    first [lia | tauto].
Qed.

(** When the upload fails the mint stops in the upload; when the
    encryption fails it stops in the encryption. *)
Lemma handleMint_failed_step (cfg : Config) (o : Oracle) (s : V2Simple.State)
    (w : V2Simple.World) (t : list Event) (image : File) :
  V2Simple.selectedImage s = Some image ->
  let upload := run o (ImageUpload.uploadImage cfg image) tt t in
  let new := drop (length t) (events (run o (V2Simple.handleMint cfg s) w t)) in
  (rejected (outcome upload) -> Forall (fun e => ~ later_than UploadImage e) new)
  /\ (rejected (outcome (run o (FheEncryption.encryptMessage cfg (V2Simple.mintValue s))
                           w (events upload))) ->
      Forall (fun e => ~ later_than EncryptMessage e) new).
Proof.
  intros Himage upload new. subst upload new.
  unfold V2Simple.handleMint. rewrite Himage. state_unfold. run_simpl.
  destruct (V2Simple.connected s); run_simpl;
    [|rewrite drop_all; split; intros _; constructor].
  destruct (truthy (trim (V2Simple.mintValue s))); run_simpl;
    [|rewrite drop_all; split; intros _; constructor].
  isolate_upload cfg o image t.
  destruct (uploadImage_events cfg o image t) as [up [Hup Hstage]].
  assert (Hstage' : forall st, Forall (fun e => ~ later_than st e) up).
  { intros st. eapply Forall_impl; [exact Hstage|].
    intros e He. unfold later_than. rewrite He. cbn [rank]. lia. }
  rewrite Hup.
  destruct (outcome (run o (ImageUpload.uploadImage cfg image) tt t)) as [e|uploaded];
    run_simpl.
  - rewrite drop_app_length. split; intros _; apply Hstage'.
  - split; [intros []|].
    rewrite run_bind.
    match goal with
    | |- context [run o (FheEncryption.encryptMessage cfg ?m) ?w1 ?t1] =>
        lazymatch w1 with
        | w => fail
        | _ =>
            destruct (encryptMessage_agrees cfg o m w1 w t1 eq_refl eq_refl eq_refl) as [Ho He];
            destruct (encryptMessage_events cfg o m w1 t1) as [en [Hen Hlater]];
            destruct (run o (FheEncryption.encryptMessage cfg m) w1 t1) as [[r w'] t2]
        end
    end.
    cbn [outcome events fst snd] in Ho, He, Hen. clear He. subst t2. rewrite <- Ho.
    destruct r as [e|encrypted]; run_simpl; [|intros []].
    intros _. rewrite <- app_assoc, drop_app_length.
    apply Forall_app. split; [apply Hstage'|exact Hlater].
Qed.

(** C6. Within one mint the steps run in the order upload, encrypt,
    submit, await confirmation, write the cache. A call that is rejected
    is the last event of the mint (the pinning service apart, whose
    failure falls back to the inline encoding inside the upload step);
    when the upload fails nothing of a later step happens, when the
    encryption fails nothing after the encryption happens, so no
    transaction is submitted; and the cache is written only right after
    the wait for the transaction has returned a receipt, with the
    message of the form. *)
Theorem handleMint_steps_in_order (cfg : Config) (o : Oracle) (s : V2Simple.State)
    (w : V2Simple.World) (t : list Event) :
  exists new,
    events (run o (V2Simple.handleMint cfg s) w t) = t ++ new
    /\ StronglySorted precedes (mint_steps new)
    /\ each_event (fun before e after =>
                     forall c, e = Called c -> rejected (o before c) ->
                               after = [] \/ falls_back c) t new
    /\ each_event (fun before e after =>
                     forall key value, e = Did (LocalStorage_setItem key value) ->
                       value = V2Simple.mintValue s /\ after = []
                       /\ exists earlier tx receipt,
                            before = earlier ++ [Called (TxWait tx)]
                            /\ o earlier (TxWait tx) = inr (Some receipt)) t new
    /\ (forall image, V2Simple.selectedImage s = Some image ->
          let upload := run o (ImageUpload.uploadImage cfg image) tt t in
          (rejected (outcome upload) ->
           Forall (fun e => ~ later_than UploadImage e) new)
          /\ (rejected (outcome (run o (FheEncryption.encryptMessage cfg
                                          (V2Simple.mintValue s)) w (events upload))) ->
              Forall (fun e => ~ later_than EncryptMessage e) new)).
Proof.
  destruct (handleMint_trace cfg o s w t) as (new & Hnew & Hsorted & Habort & Hwrite).
  exists new. repeat (split; [assumption|]).
  intros image Himage.
  pose proof (handleMint_failed_step cfg o s w t image Himage) as Hfailed.
  cbv zeta in Hfailed |- *. rewrite Hnew, drop_app_length in Hfailed. exact Hfailed.
Qed.

Lemma handleMint_steps_in_order_witness :
  exists new,
    events (run Sample.helpful
              (V2Simple.handleMint Sample.cfg (Sample.mint_form (js "hello") (Sample.png 51200)))
              (Sample.browser_of Sample.mounted ∅) []) = new
    /\ StronglySorted precedes (mint_steps new)
    /\ mint_steps new
       = [UploadImage; EncryptMessage; EncryptMessage; EncryptMessage; EncryptMessage;
          EncryptMessage; SubmitTransaction; AwaitConfirmation; WriteCache].
Proof.
  destruct (handleMint_steps_in_order Sample.cfg Sample.helpful
              (Sample.mint_form (js "hello") (Sample.png 51200))
              (Sample.browser_of Sample.mounted ∅) []) as (new & Hnew & Hsorted & _).
  exists new. split; [exact Hnew|]. split; [exact Hsorted|].
  cbn [app] in Hnew. rewrite <- Hnew. vm_compute. reflexivity.
Defined.

(** ** The cache *)

Lemma trim_truthy (s : jsstring) : truthy (trim s) = true -> truthy s = true.
Proof. destruct s; [intros H; exact H|reflexivity]. Qed.

Lemma find_listed (s : V2Simple.State) (tokenId : Z) :
  listed s tokenId ->
  exists n, find (fun n => V2Simple.nft_tokenId n =? tokenId) (V2Simple.nfts s) = Some n.
Proof.
  intros [n [Hin Hid]].
  destruct (find (fun n => V2Simple.nft_tokenId n =? tokenId) (V2Simple.nfts s))
    as [m|] eqn:Hfind.
  - exists m. reflexivity.
  - exfalso. pose proof (find_none _ _ Hfind n Hin) as Hn. cbn in Hn. lia.
Qed.

(** The fast path of a reveal: the cached text is shown and nothing is
    asked of the chain or of the decryption. *)
Lemma decryptMessage_cache_hit (cfg : Config) (o : Oracle) (s : V2Simple.State)
    (w : V2Simple.World) (t : list Event) (tokenId : Z) (m : jsstring) :
  listed s tokenId ->
  localStorage w !! V2Simple.cache_key (V2Simple.wallet_address s) (Num tokenId) = Some m ->
  truthy m = true ->
  let r := run o (V2Simple.decryptMessage cfg s tokenId) w t in
  events r = t
  /\ V2Simple.displayed (component (final r)) tokenId = Some m
  /\ V2Simple.decryptStatus (component (final r)) = "✅ Message revealed from local storage!"
  /\ localStorage (final r) = localStorage w.
Proof.
  intros Hlisted Hcached Hm. cbv zeta.
  destruct (find_listed s tokenId Hlisted) as [n Hn].
  reveal_unfold. run_simpl. rewrite Hn. run_simpl. world_simpl.
  rewrite Hcached. cbn [truthy_opt]. rewrite Hm. run_simpl. world_simpl.
  unfold V2Simple.displayed. world_simpl. rewrite lookup_insert_eq.
  cbn [show_opt]. rewrite Hm. repeat split.
Qed.

(** A confirmed mint whose receipt carries the token identifier leaves
    the message in the cache. *)
Lemma handleMint_caches (cfg : Config) (o : Oracle) (s : V2Simple.State)
    (w : V2Simple.World) (t : list Event) :
  exists new,
    events (run o (V2Simple.handleMint cfg s) w t) = t ++ new
    /\ each_event (fun before e after =>
         forall tx, e = Called (TxWait tx) ->
           forall receipt topic,
             o before (TxWait tx) = inr (Some receipt) ->
             V2Simple.mint_event_tokenId receipt = Some topic /\ truthy topic = true ->
             truthy (V2Simple.mintValue s) = true
             /\ localStorage (final (run o (V2Simple.handleMint cfg s) w t))
                = <[V2Simple.cache_key (V2Simple.wallet_address s) (Number_of_string topic)
                    := V2Simple.mintValue s]> (localStorage w)) t new.
Proof.
  mint_unfold. run_simpl.
  repeat next_cond.
  all: new_events.
  all: cbn [each_event].
  all: repeat match goal with |- _ /\ _ => split | |- True => exact I end.
  all: try (intros ? Hc; discriminate Hc).
  all: intros tx [= <-] receipt topic Hanswer [Htopic Htruthy].
  all: simplify_eq.
  all: try congruence.
  all: split;
    [apply trim_truthy;
     match goal with
     | H : negb ?b = false |- ?b = true => destruct b; [reflexivity|discriminate H]
     end|].
  all: world_simpl; congruence.
Qed.

(** C2. When a mint by the connected account has been confirmed and its
    receipt carries the identifier of the new token, a reveal of that
    token by the same account, on a gallery that lists it and with the
    [localStorage] the mint left, shows exactly the message of the mint,
    taken from the cache: the reveal makes no call at all, neither the
    read of the contract nor the decryption. *)
Theorem mint_then_reveal_round_trip (cfg : Config) (o : Oracle) (s : V2Simple.State)
    (w : V2Simple.World) (t before after : list Event)
    (tx : Tx) (receipt : Receipt) (topic : jsstring) (tokenId : Z) :
  let r := run o (V2Simple.handleMint cfg s) w t in
  events r = (t ++ before) ++ Called (TxWait tx) :: after ->
  o (t ++ before) (TxWait tx) = inr (Some receipt) ->
  V2Simple.mint_event_tokenId receipt = Some topic ->
  truthy topic = true ->
  Number_of_string topic = Num tokenId ->
  forall (s' : V2Simple.State) (w' : V2Simple.World) (t' : list Event),
    V2Simple.wallet_address s' = V2Simple.wallet_address s ->
    listed s' tokenId ->
    localStorage w' = localStorage (final r) ->
    let r' := run o (V2Simple.decryptMessage cfg s' tokenId) w' t' in
    events r' = t'
    /\ V2Simple.displayed (component (final r')) tokenId = Some (V2Simple.mintValue s)
    /\ V2Simple.decryptStatus (component (final r'))
       = "✅ Message revealed from local storage!".
Proof.
  cbv zeta. intros Hevents Hanswer Htopic Htruthy Hid s' w' t' Hwallet Hlisted Hstore.
  destruct (handleMint_caches cfg o s w t) as [new [Hnew Heach]].
  rewrite Hnew, <- app_assoc in Hevents. apply app_inv_head in Hevents. subst new.
  apply each_event_at in Heach.
  destruct (Heach tx eq_refl receipt topic Hanswer (conj Htopic Htruthy)) as [Hm Hfinal].
  rewrite Hid in Hfinal.
  destruct (decryptMessage_cache_hit cfg o s' w' t' tokenId (V2Simple.mintValue s))
    as (Hev & Hdisp & Hstatus & _); auto.
  rewrite Hstore, Hfinal, Hwallet. apply lookup_insert_eq.
Qed.

Lemma mint_then_reveal_round_trip_witness :
  let r := run Sample.helpful
             (V2Simple.handleMint Sample.cfg (Sample.mint_form (js "hello") (Sample.png 51200)))
             (Sample.browser_of Sample.mounted ∅) [] in
  let r' := run Sample.helpful (V2Simple.decryptMessage Sample.cfg (Sample.gallery [3] ∅) 3)
              (Sample.browser_of (Sample.gallery [3] ∅) (localStorage (final r))) [] in
  events r' = []
  /\ V2Simple.displayed (component (final r')) 3 = Some (js "hello")
  /\ V2Simple.decryptStatus (component (final r')) = "✅ Message revealed from local storage!".
Proof.
  cbv zeta.
  eapply (mint_then_reveal_round_trip Sample.cfg Sample.helpful
            (Sample.mint_form (js "hello") (Sample.png 51200))
            (Sample.browser_of Sample.mounted ∅) []
            (take 9 (events (run Sample.helpful
               (V2Simple.handleMint Sample.cfg (Sample.mint_form (js "hello") (Sample.png 51200)))
               (Sample.browser_of Sample.mounted ∅) [])))
            (drop 10 (events (run Sample.helpful
               (V2Simple.handleMint Sample.cfg (Sample.mint_form (js "hello") (Sample.png 51200)))
               (Sample.browser_of Sample.mounted ∅) [])))
            {| tx_hash := js "0xaaaa" |} Sample.mint_receipt Sample.topic3 3).
  - vm_compute. reflexivity.
  - reflexivity.
  - reflexivity.
  - reflexivity.
  - vm_compute. reflexivity.
  - reflexivity.
  - exists (Sample.nft 3). split; [left; reflexivity|reflexivity].
  - reflexivity.
Defined.

(** ** The transfer *)

(** C10 (as amended). A transfer whose target address, once trimmed of
    surrounding blanks, does not match [/^0x[a-fA-F0-9]{40}$/] is
    refused: no call is made, so no transaction is submitted, nothing is
    written, and with a connected wallet the status asks for a valid
    address. *)
Theorem handleTransfer_rejects_malformed_address (o : Oracle) (s : V2Simple.State)
    (w : V2Simple.World) (t : list Event) :
  ZERO_ADDRESS_test (trim (V2Simple.transferAddress s)) = false ->
  let r := run o (V2Simple.handleTransfer s) w t in
  events r = t
  /\ localStorage (final r) = localStorage w
  /\ V2Simple.transferring (component (final r)) = V2Simple.transferring (component w)
  /\ (V2Simple.connected s = true ->
      transferStatus_after r = "Enter a valid Ethereum address (0x...)").
Proof.
  intros Haddr. cbv zeta. unfold transferStatus_after. transfer_unfold.
  rewrite Haddr. run_simpl.
  destruct (V2Simple.connected s); run_simpl; repeat split; try reflexivity;
    intros; discriminate.
Qed.

Lemma handleTransfer_rejects_malformed_address_witness :
  events (run Sample.helpful
            (V2Simple.handleTransfer
               (Sample.transfer_form (js "3") (js "0xZZZZZZZZZZZZZZZZZZZZZZZZZZZZZZZZZZZZZZZZ")
                  (Sample.gallery [3] ∅)))
            (Sample.browser_of (Sample.gallery [3] ∅) ∅) []) = [].
Proof.
  apply (handleTransfer_rejects_malformed_address Sample.helpful).
  reflexivity.
Defined.

(** C10 as stated fails: an address with a blank in front does not match
    the pattern, yet the transfer passes the check and the contract is
    called with the address as typed; it is the wallet library that
    refuses it. *)
Lemma handleTransfer_submits_padded_address :
  let padded := js " 0x2222222222222222222222222222222222222222" in
  let s := Sample.transfer_form (js "3") padded (Sample.gallery [3] ∅) in
  let r := run Sample.strict (V2Simple.handleTransfer s)
             (Sample.browser_of (Sample.gallery [3] ∅) ∅) [] in
  V2Simple.connected s = true
  /\ ZERO_ADDRESS_test padded = false
  /\ events r = [Called ProviderGetSigner;
                 Called (ContractTransferFrom {| signer_id := 1 |} Sample.alice padded (Num 3))]
  /\ transferStatus_after r = "❌ invalid address".
Proof. vm_compute. repeat split. Qed.

(** C1 (as amended). A transfer made through [handleTransfer], confirmed
    or not, leaves [localStorage] as it was: the entry of the
    transferred token is not deleted, and a later reveal of that token
    by the same account, on a gallery that still lists it, shows the
    cached text without any call. *)
Theorem handleTransfer_keeps_cache (cfg : Config) (o : Oracle) (s : V2Simple.State)
    (w : V2Simple.World) (t : list Event) :
  let r := run o (V2Simple.handleTransfer s) w t in
  localStorage (final r) = localStorage w
  /\ (forall (s' : V2Simple.State) (t' : list Event) (tokenId : Z) (m : jsstring),
        listed s' tokenId ->
        localStorage w !! V2Simple.cache_key (V2Simple.wallet_address s') (Num tokenId)
          = Some m ->
        truthy m = true ->
        let r' := run o (V2Simple.decryptMessage cfg s' tokenId) (final r) t' in
        events r' = t' /\ V2Simple.displayed (component (final r')) tokenId = Some m).
Proof.
  cbv zeta.
  assert (Hstore : localStorage (final (run o (V2Simple.handleTransfer s) w t))
                   = localStorage w).
  { transfer_unfold. run_simpl.
    destruct (Number_of_string (V2Simple.transferToken s)) as [|n];
      cbn [Number_isInteger]; run_simpl.
    all: repeat next_cond; world_simpl; reflexivity. }
  split; [exact Hstore|].
  intros s' t' tokenId m Hlisted Hcached Hm.
  rewrite <- Hstore in Hcached.
  destruct (decryptMessage_cache_hit cfg o s' _ t' tokenId m Hlisted Hcached Hm)
    as (Hev & Hdisp & _).
  split; assumption.
Qed.

Lemma handleTransfer_keeps_cache_witness :
  let cached := {[ V2Simple.cache_key (Some Sample.alice) (Num 3) := js "hello" ]} in
  let s := Sample.transfer_form (js "3") Sample.bob (Sample.gallery [3] ∅) in
  let r := run Sample.helpful (V2Simple.handleTransfer s)
             (Sample.browser_of (Sample.gallery [3] ∅) cached) [] in
  let r' := run Sample.helpful (V2Simple.decryptMessage Sample.cfg (Sample.gallery [3] ∅) 3)
              (final r) [] in
  events r' = [] /\ V2Simple.displayed (component (final r')) 3 = Some (js "hello").
Proof.
  cbv zeta.
  apply (handleTransfer_keeps_cache Sample.cfg Sample.helpful
           (Sample.transfer_form (js "3") Sample.bob (Sample.gallery [3] ∅))
           (Sample.browser_of (Sample.gallery [3] ∅)
              {[ V2Simple.cache_key (Some Sample.alice) (Num 3) := js "hello" ]}) []).
  - exists (Sample.nft 3). split; [left; reflexivity|reflexivity].
  - vm_compute. reflexivity.
  - reflexivity.
Defined.

(** C1 as stated fails: after a confirmed transfer of token 3 from the
    account that minted it, the cache entry is still there, the gallery
    still shows the revealed text, and a new reveal returns it. *)
Lemma handleTransfer_does_not_purge :
  let key := V2Simple.cache_key (Some Sample.alice) (Num 3) in
  let shown := {[ Number_toString (Num 3) := js "hello" ]} in
  let s := Sample.transfer_form (js "3") Sample.bob (Sample.gallery [3] shown) in
  let r := run Sample.helpful (V2Simple.handleTransfer s)
             (Sample.browser_of (Sample.gallery [3] shown) {[ key := js "hello" ]}) [] in
  let r' := run Sample.helpful (V2Simple.decryptMessage Sample.cfg (Sample.gallery [3] ∅) 3)
              (Sample.browser_of (Sample.gallery [3] ∅) (localStorage (final r))) [] in
  transferStatus_after r = "✅ Transfer completed! Check Etherscan for your transaction."
  /\ localStorage (final r) !! key = Some (js "hello")
  /\ V2Simple.displayed (component (final r)) 3 = Some (js "hello")
  /\ events r' = []
  /\ V2Simple.displayed (component (final r')) 3 = Some (js "hello").
Proof. vm_compute. repeat split. Qed.

(** ** The contract *)

Section Contract.
Import HiddenAttributeNFT.
Context (host : Host).

Lemma super_update_spec to tokenId auth e previousOwner e' :
  super_update to tokenId auth e = inr (previousOwner, e') ->
  previousOwner = _ownerOf e tokenId
  /\ _owners e' = <[tokenId := to]> (_owners e).
Proof.
  unfold super_update.
  destruct (negb (auth =? 0) && negb (_isAuthorized e (_ownerOf e tokenId) auth tokenId)).
  - destruct (_ownerOf e tokenId =? 0); discriminate.
  - intros [= <- <-]. split; reflexivity.
Qed.

(** The override of [_update] changes the owner of the token and the
    access list, and nothing else of the contract's own storage. *)
Lemma _update_spec to tokenId auth s previousOwner s' :
  _update host to tokenId auth s = inr (previousOwner, s') ->
  previousOwner = _ownerOf (erc721 s) tokenId
  /\ _owners (erc721 s') = <[tokenId := to]> (_owners (erc721 s))
  /\ _tokenMessages s' = _tokenMessages s
  /\ _tokenImageURIs s' = _tokenImageURIs s
  /\ _nextTokenId s' = _nextTokenId s
  /\ acl s ⊆ acl s'
  /\ (to <> 0 -> FHE_isInitialized (message_of s tokenId) = true ->
      (message_of s tokenId, to) ∈ acl s').
Proof.
  unfold _update.
  destruct (super_update to tokenId auth (erc721 s)) as [r|[prev e]] eqn:Hsuper;
    [discriminate|].
  apply super_update_spec in Hsuper. destruct Hsuper as [-> Howners].
  intros [= <- <-].
  change (message_of (with_erc721 e s) tokenId) with (message_of s tokenId).
  destruct (Z.eqb_spec to 0) as [->|Hto]; cbn [negb].
  - cbn. repeat split; try assumption; try reflexivity. intros []. reflexivity.
  - destruct (FHE_isInitialized (message_of s tokenId)) eqn:Hinit; cbn.
    + repeat split; try assumption; try reflexivity; set_solver.
    + repeat split; try assumption; try reflexivity. intros _ [=].
Qed.

Lemma still_owned (e e' : ERC721) (tok tokenId to : Z) :
  _owners e' = <[tok := to]> (_owners e) ->
  to <> 0 -> _ownerOf e tokenId <> 0 -> _ownerOf e' tokenId <> 0.
Proof.
  unfold _ownerOf. intros -> Hto Hown.
  destruct (decide (tok = tokenId)) as [->|Hne].
  - rewrite lookup_insert_eq. exact Hto.
  - rewrite lookup_insert_ne by exact Hne. exact Hown.
Qed.

Lemma _update_keeps to tok auth s previousOwner s' tokenId :
  _update host to tok auth s = inr (previousOwner, s') ->
  to <> 0 -> exists_token s tokenId -> kept s s' tokenId.
Proof.
  intros Hupd Hto Hex. apply _update_spec in Hupd.
  destruct Hupd as (_ & Howners & Hmsg & Huri & _).
  unfold kept, exists_token, message_of, imageURI_of. rewrite Hmsg, Huri.
  split; [|split; reflexivity].
  eapply still_owned; eassumption.
Qed.

Lemma transferFrom_keeps sender from to tok s s' tokenId :
  transferFrom host sender from to tok s = inr s' ->
  exists_token s tokenId -> kept s s' tokenId.
Proof.
  unfold transferFrom. destruct (Z.eqb_spec to 0) as [|Hto]; [discriminate|].
  destruct (_update host to tok sender s) as [r|[prev s1]] eqn:Hupd; [discriminate|].
  destruct (negb (prev =? from)); [discriminate|]. intros [= <-].
  eapply _update_keeps; eassumption.
Qed.

(** A mint writes the message and the image of a token that did not
    exist, and of no other. *)
Lemma mint_spec sender encryptedMessage inputProof imageURI s tokenId s' :
  mint host sender encryptedMessage inputProof imageURI s = inr (tokenId, s') ->
  tokenId = _nextTokenId s
  /\ ~ exists_token s tokenId
  /\ exists_token s' tokenId
  /\ FHE_fromExternal host encryptedMessage inputProof sender = Some (message_of s' tokenId)
  /\ imageURI_of s' tokenId = imageURI
  /\ (forall other, other <> tokenId ->
        _ownerOf (erc721 s') other = _ownerOf (erc721 s) other
        /\ message_of s' other = message_of s other
        /\ imageURI_of s' other = imageURI_of s other).
Proof.
  unfold mint, _safeMint, _mint.
  destruct (Z.eqb_spec sender 0) as [|Hsender]; [discriminate|].
  match goal with
  | |- context [_update host sender ?tok 0 ?s1] =>
      destruct (_update host sender tok 0 s1) as [r|[prev s2]] eqn:Hupd; [discriminate|]
  end.
  apply _update_spec in Hupd. cbn [erc721 _tokenMessages _tokenImageURIs] in Hupd.
  destruct Hupd as (Hprev & Howners & Hmsg & Huri & _).
  destruct (Z.eqb_spec prev 0) as [Hzero|]; cbn [negb]; [|discriminate].
  destruct (onERC721Received host sender (_nextTokenId s)); [|discriminate].
  destruct (FHE_fromExternal host encryptedMessage inputProof sender) as [message|];
    [|discriminate].
  intros [= <- <-].
  unfold exists_token, message_of, imageURI_of, FHE_allowThis, FHE_allow, _ownerOf.
  cbn [erc721 _tokenMessages _tokenImageURIs].
  unfold _ownerOf in Hprev.
  split; [reflexivity|]. split; [rewrite <- Hprev, Hzero; tauto|].
  split; [rewrite Howners, lookup_insert_eq; exact Hsender|].
  split; [rewrite lookup_insert_eq; reflexivity|].
  split; [rewrite lookup_insert_eq; reflexivity|].
  intros other Hother.
  rewrite Howners, Hmsg, Huri, !lookup_insert_ne by congruence.
  repeat split.
Qed.

Lemma execute_keeps sender m s s' tokenId :
  execute host sender m s = inr s' ->
  exists_token s tokenId -> kept s s' tokenId.
Proof.
  destruct m as [encryptedMessage inputProof imageURI|from to tok|from to tok|to tok
                |operator approved|newBaseURI|newOwner|]; cbn [execute].
  - destruct (mint host sender encryptedMessage inputProof imageURI s)
      as [r|[tok s1]] eqn:Hmint; [discriminate|].
    intros [= <-] Hex. apply mint_spec in Hmint.
    destruct Hmint as (_ & Hfresh & _ & _ & _ & Hother).
    assert (Hne : tokenId <> tok) by (intros ->; contradiction).
    destruct (Hother tokenId Hne) as (Ho & Hm & Hu).
    unfold kept, exists_token. rewrite Ho, Hm, Hu. auto.
  - apply transferFrom_keeps.
  - unfold safeTransferFrom.
    destruct (transferFrom host sender from to tok s) as [r|s1] eqn:Ht; [discriminate|].
    destruct (onERC721Received host to tok); [|discriminate].
    intros [= <-]. eapply transferFrom_keeps; eassumption.
  - unfold approve. destruct (ownerOf s tok); [discriminate|].
    match goal with |- context [if ?b then _ else _] => destruct b end; [discriminate|].
    intros [= <-] Hex. repeat split; assumption.
  - unfold setApprovalForAll. destruct (operator =? 0); [discriminate|].
    intros [= <-] Hex. repeat split; assumption.
  - unfold setBaseTokenURI. destruct (negb (_owner s =? sender)); [discriminate|].
    intros [= <-] Hex. repeat split; assumption.
  - unfold transferOwnership. destruct (negb (_owner s =? sender)); [discriminate|].
    destruct (newOwner =? 0); [discriminate|].
    intros [= <-] Hex. repeat split; assumption.
  - unfold renounceOwnership. destruct (negb (_owner s =? sender)); [discriminate|].
    intros [= <-] Hex. repeat split; assumption.
Qed.

Lemma execute_all_keeps txs s tokenId :
  exists_token s tokenId -> kept s (execute_all host txs s) tokenId.
Proof.
  revert s. induction txs as [|[sender m] txs IH]; intros s Hex; cbn [execute_all].
  - repeat split; assumption.
  - destruct (execute host sender m s) as [r|s1] eqn:Hexec; [apply IH; exact Hex|].
    destruct (execute_keeps sender m s s1 tokenId Hexec Hex) as (Hex1 & Hm1 & Hu1).
    destruct (IH s1 Hex1) as (Hex2 & Hm2 & Hu2).
    unfold kept. rewrite Hm2, Hu2. auto.
Qed.

Lemma getEncryptedMessage_uninitialized (s : Storage) (tokenId : Z) :
  message_of s tokenId = 0 ->
  getEncryptedMessage s tokenId
  = inl (if _ownerOf (erc721 s) tokenId =? 0
         then ERC721NonexistentToken tokenId
         else AttributeNotInitialized tokenId).
Proof.
  intros Hzero. unfold getEncryptedMessage, ownerOf.
  destruct (_ownerOf (erc721 s) tokenId =? 0); [reflexivity|].
  rewrite Hzero. reflexivity.
Qed.
End Contract.

(** C9. The transfer path [_update] leaves the stored encrypted messages
    and the image URIs as they are and allows the new owner on the
    message of the token; [mint] writes the message and the image of a
    token that did not exist before; and whatever calls follow, a token
    that exists keeps its message and its image. *)
Theorem ciphertext_handle_written_once (host : HiddenAttributeNFT.Host) :
  (forall to tokenId auth s previousOwner s',
      HiddenAttributeNFT._update host to tokenId auth s = inr (previousOwner, s') ->
      HiddenAttributeNFT._tokenMessages s' = HiddenAttributeNFT._tokenMessages s
      /\ HiddenAttributeNFT._tokenImageURIs s' = HiddenAttributeNFT._tokenImageURIs s
      /\ (to <> 0 ->
          HiddenAttributeNFT.FHE_isInitialized (HiddenAttributeNFT.message_of s tokenId) = true ->
          (HiddenAttributeNFT.message_of s tokenId, to) ∈ HiddenAttributeNFT.acl s'))
  /\ (forall sender encryptedMessage inputProof imageURI s tokenId s',
        HiddenAttributeNFT.mint host sender encryptedMessage inputProof imageURI s
          = inr (tokenId, s') ->
        ~ HiddenAttributeNFT.exists_token s tokenId
        /\ HiddenAttributeNFT.exists_token s' tokenId
        /\ HiddenAttributeNFT.FHE_fromExternal host encryptedMessage inputProof sender
           = Some (HiddenAttributeNFT.message_of s' tokenId)
        /\ HiddenAttributeNFT.imageURI_of s' tokenId = imageURI)
  /\ (forall txs s tokenId,
        HiddenAttributeNFT.exists_token s tokenId ->
        kept s (HiddenAttributeNFT.execute_all host txs s) tokenId).
Proof.
  split; [|split].
  - intros to tokenId auth s previousOwner s' Hupd.
    apply _update_spec in Hupd. tauto.
  - intros sender encryptedMessage inputProof imageURI s tokenId s' Hmint.
    apply mint_spec in Hmint. tauto.
  - intros txs s tokenId Hex. apply execute_all_keeps. exact Hex.
Qed.

Lemma ciphertext_handle_written_once_witness :
  let minted := HiddenAttributeNFT.execute_all Sample.host Sample.mint_by_17
                  (HiddenAttributeNFT.deployed 17 []) in
  let sent := HiddenAttributeNFT.execute_all Sample.host Sample.send_to_18 minted in
  HiddenAttributeNFT.message_of minted 1 = 4243
  /\ HiddenAttributeNFT._ownerOf (HiddenAttributeNFT.erc721 sent) 1 = 18
  /\ kept minted sent 1.
Proof.
  cbv zeta. split; [reflexivity|]. split; [reflexivity|].
  apply (ciphertext_handle_written_once Sample.host).
  vm_compute. discriminate.
Defined.

(** ** The reveal of a token without a message *)

(** A reveal whose read of the handle is rejected, or answered with an
    empty handle, stops there. *)
Lemma decryptMessage_stops (cfg : Config) (o : Oracle) (s : HiddenNFTApp.State)
    (w : HiddenNFTApp.World) (t : list Event) (tokenId : Z) :
  match o t (PublicClientReadEncryptedMessage tokenId) with
  | inl _ => True
  | inr handle => HiddenNFTApp.empty_handle handle = true
  end ->
  let r := run o (HiddenNFTApp.decryptMessage cfg s tokenId) w t in
  (events r = t \/ events r = t ++ [Called (PublicClientReadEncryptedMessage tokenId)])
  /\ HiddenNFTApp.decryptedAttributes (component (final r))
     = HiddenNFTApp.decryptedAttributes (component w)
  /\ (HiddenNFTApp.decryptStatus (component (final r)) = "Encryption service is not ready."
      \/ HiddenNFTApp.activeDecrypt (component (final r)) = None
         /\ HiddenNFTApp.decryptStatus (component (final r))
            = match o t (PublicClientReadEncryptedMessage tokenId) with
              | inl e => message_or e "Decryption failed"
              | inr _ => "Message is empty for this token."
              end).
Proof.
  cbv zeta. app_unfold.
  destruct (HiddenNFTApp.instance s) as [instance|]; run_simpl; app_simpl;
    [|intros _; repeat split; auto].
  destruct (negb (HiddenNFTApp.hasWallet s) || negb (HiddenNFTApp.publicClient s));
    run_simpl; app_simpl; [intros _; repeat split; auto|].
  destruct (o t (PublicClientReadEncryptedMessage tokenId)) as [e|handle]; run_simpl; app_simpl.
  - intros _. repeat split; auto.
  - intros ->. run_simpl. app_simpl. repeat split; auto.
Qed.

(** The client's own test knows the empty handles ['0x'] and ['0x00'];
    thirty-two zero bytes, as the client library prints a [bytes32], are
    not among them: for such a token it is the revert of the contract
    that stops the reveal. *)
Example empty_handle_of_zero_bytes32 :
  HiddenNFTApp.empty_handle (js "0x") = true
  /\ HiddenNFTApp.empty_handle (js "0x00") = true
  /\ HiddenNFTApp.empty_handle (HiddenAttributeNFT.bytes32_hex 0) = false.
Proof. repeat split. Qed.

(** C7. For a token whose stored handle is zero the contract's
    [getEncryptedMessage] reverts, with [AttributeNotInitialized] when
    the token exists; the reveal that reads it is rejected at the read
    and makes no call to the decryption collaborator (no key pair, no
    authorization, no decryption), and shows nothing. The client's own
    test does the same for an empty handle. *)
Theorem reveal_of_uninitialized_message_fails_fast (cfg : Config) (o : Oracle)
    (chain : HiddenAttributeNFT.Storage) (s : HiddenNFTApp.State)
    (w : HiddenNFTApp.World) (t : list Event) (tokenId : Z) :
  reads_chain o chain ->
  HiddenAttributeNFT.message_of chain tokenId = 0 ->
  let r := run o (HiddenNFTApp.decryptMessage cfg s tokenId) w t in
  (HiddenAttributeNFT.exists_token chain tokenId ->
   HiddenAttributeNFT.getEncryptedMessage chain tokenId
   = inl (HiddenAttributeNFT.AttributeNotInitialized tokenId))
  /\ (exists revert, HiddenAttributeNFT.getEncryptedMessage chain tokenId = inl revert)
  /\ rejected (o t (PublicClientReadEncryptedMessage tokenId))
  /\ Forall (fun e => HiddenNFTApp.is_decryption e = false) (drop (length t) (events r))
  /\ HiddenNFTApp.decryptedAttributes (component (final r))
     = HiddenNFTApp.decryptedAttributes (component w)
  /\ (forall (o' : Oracle) (handle : jsstring),
        o' t (PublicClientReadEncryptedMessage tokenId) = inr handle ->
        HiddenNFTApp.empty_handle handle = true ->
        Forall (fun e => HiddenNFTApp.is_decryption e = false)
               (drop (length t) (events (run o' (HiddenNFTApp.decryptMessage cfg s tokenId) w t)))).
Proof.
  intros Hreads Hzero. cbv zeta.
  pose proof (getEncryptedMessage_uninitialized chain tokenId Hzero) as Hrevert.
  assert (Hread : rejected (o t (PublicClientReadEncryptedMessage tokenId))).
  { destruct (Hreads t tokenId) as [-> _]. unfold read_encrypted_message.
    rewrite Hrevert. exact I. }
  assert (Hstops : forall o' : Oracle,
             match o' t (PublicClientReadEncryptedMessage tokenId) with
             | inl _ => True
             | inr handle => HiddenNFTApp.empty_handle handle = true
             end ->
             Forall (fun e => HiddenNFTApp.is_decryption e = false)
               (drop (length t)
                  (events (run o' (HiddenNFTApp.decryptMessage cfg s tokenId) w t)))
             /\ HiddenNFTApp.decryptedAttributes
                  (component (final (run o' (HiddenNFTApp.decryptMessage cfg s tokenId) w t)))
                = HiddenNFTApp.decryptedAttributes (component w)).
  { intros o' Ho'.
    destruct (decryptMessage_stops cfg o' s w t tokenId Ho') as ([Hev|Hev] & Hkept & _).
    - split; [|exact Hkept]. rewrite Hev, drop_all. constructor.
    - split; [|exact Hkept]. rewrite Hev, drop_app_length. repeat constructor. }
  split; [|split; [|split; [exact Hread|]]].
  - unfold HiddenAttributeNFT.exists_token. intros Hex. rewrite Hrevert.
    destruct (Z.eqb_spec (HiddenAttributeNFT._ownerOf (HiddenAttributeNFT.erc721 chain) tokenId) 0);
      [contradiction|reflexivity].
  - rewrite Hrevert. eexists. reflexivity.
  - destruct (Hstops o) as [Hnone Hkept].
    { destruct (o t (PublicClientReadEncryptedMessage tokenId)); [exact I|contradiction]. }
    split; [exact Hnone|]. split; [exact Hkept|].
    intros o' handle Hanswer Hempty. apply Hstops. rewrite Hanswer. exact Hempty.
Qed.

Lemma reveal_of_uninitialized_message_fails_fast_witness :
  let r := run (Sample.reading Sample.bare_token)
             (HiddenNFTApp.decryptMessage Sample.cfg Sample.app_ready 1)
             (Sample.browser_of Sample.app_ready ∅) [] in
  HiddenAttributeNFT.getEncryptedMessage Sample.bare_token 1
  = inl (HiddenAttributeNFT.AttributeNotInitialized 1)
  /\ Forall (fun e => HiddenNFTApp.is_decryption e = false) (events r).
Proof.
  cbv zeta.
  destruct (reveal_of_uninitialized_message_fails_fast Sample.cfg
              (Sample.reading Sample.bare_token) Sample.bare_token Sample.app_ready
              (Sample.browser_of Sample.app_ready ∅) [] 1)
    as (Hrevert & _ & _ & Hnone & _).
  - intros t tokenId. split; reflexivity.
  - reflexivity.
  - split; [apply Hrevert; vm_compute; discriminate|exact Hnone].
Defined.

(** ** Reveals in flight *)

(** What the guard on the button does achieve: once a reveal of a token
    waits for its answer, the button of that token is disabled, until
    some reveal (of any token) writes [activeDecrypt] again. *)
Lemma second_click_refused (cfg : Config) (o : Oracle) (pg pg' : V2Simple.Page) (tokenId : Z) :
  V2Simple.step cfg o (V2Simple.ClickReveal tokenId) pg = Some pg' ->
  length (V2Simple.pending pg') = S (length (V2Simple.pending pg)) ->
  V2Simple.step cfg o (V2Simple.ClickReveal tokenId) pg' = None.
Proof.
  unfold V2Simple.step.
  destruct (V2Simple.reveal_enabled (component (V2Simple.browser pg)) tokenId) eqn:Hen;
    [|discriminate].
  intros [= <-]. revert Hen.
  unfold V2Simple.proceed, V2Simple.decryptMessage. reveal_unfold. advance_simpl.
  destruct (find _ _) as [nft|]; advance_simpl.
  - match goal with
    | |- context [truthy_opt ?x] => destruct (truthy_opt x)
    end; advance_simpl; cbn [V2Simple.pending V2Simple.browser].
    + intros _ Hlen. lia.
    + intros Hen _. unfold V2Simple.reveal_enabled in *. world_simpl.
      destruct (V2Simple.activeTab (component (V2Simple.browser pg))); try reflexivity.
      rewrite Z.eqb_refl. cbn [negb]. rewrite andb_false_r. reflexivity.
  - cbn [V2Simple.pending]. intros _ Hlen. lia.
Qed.

(** C8 fails on the code. With the reveal of token 1 waiting for the
    contract, a click on the Reveal button of token 2 moves
    [activeDecrypt] to 2 and the button of token 1 is enabled again: a
    second click on it starts a second reveal of token 1 while the
    first one is still in flight. Both read the handle and both enter
    the decryption with it. *)
Theorem reveal_is_not_single_flight :
  let clicks := [V2Simple.ClickReveal 1; V2Simple.ClickReveal 2; V2Simple.ClickReveal 1] in
  let answers := [V2Simple.Settle 0; V2Simple.Settle 1] in
  V2Simple.in_flight <$> V2Simple.steps Sample.cfg Sample.helpful clicks Sample.two_tokens
    = Some [1; 2; 1]
  /\ (fun pg => filter (fun e => is_chain_read e = true) (V2Simple.history pg))
       <$> V2Simple.steps Sample.cfg Sample.helpful clicks Sample.two_tokens
     = Some [Called (ContractGetEncryptedMessage 1); Called (ContractGetEncryptedMessage 2);
             Called (ContractGetEncryptedMessage 1)]
  /\ (fun pg => filter (fun e => is_decryptUint256 e = true) (V2Simple.history pg))
       <$> V2Simple.steps Sample.cfg Sample.helpful (clicks ++ answers) Sample.two_tokens
     = Some [Did (Enter_decryptUint256 (Sample.handle 1) (CONTRACT_ADDRESS Sample.cfg));
             Did (Enter_decryptUint256 (Sample.handle 1) (CONTRACT_ADDRESS Sample.cfg))].
Proof. vm_compute. repeat split. Qed.

(** Two clicks in a row on the same button: the second is refused. *)
Example double_click_is_coalesced :
  V2Simple.in_flight
    <$> V2Simple.steps Sample.cfg Sample.helpful [V2Simple.ClickReveal 1] Sample.two_tokens
  = Some [1]
  /\ V2Simple.steps Sample.cfg Sample.helpful
       [V2Simple.ClickReveal 1; V2Simple.ClickReveal 1] Sample.two_tokens = None.
Proof. vm_compute. split; reflexivity. Qed.

(** * Further properties of the code *)

Lemma digit_no_space (u : Z) : is_digit u = true -> is_js_space u = false.
Proof. unfold is_digit, is_js_space. intros H. lia. Qed.

Lemma trimStart_digits (s : jsstring) :
  forallb is_digit s = true -> trimStart s = s.
Proof.
  destruct s as [|u s]; [reflexivity|]. cbn [forallb trimStart]. intros H.
  apply andb_true_iff in H as [Hu _]. by rewrite digit_no_space.
Qed.

Lemma trim_digits (s : jsstring) : forallb is_digit s = true -> trim s = s.
Proof.
  intros H. unfold trim, trimEnd. rewrite (trimStart_digits s H).
  rewrite trimStart_digits; [apply rev_involutive|].
  apply forallb_forall. intros u Hu. apply in_rev in Hu.
  revert u Hu. by apply forallb_forall.
Qed.

Lemma digits_value_bounds (ds : jsstring) :
  forallb is_digit ds = true ->
  0 <= digits_value 10 ds < 10 ^ Z.of_nat (length ds).
Proof.
  unfold digits_value. intros H.
  assert (Hacc : forall acc n, 0 <= acc < 10 ^ n -> 0 <= n ->
            0 <= fold_left (fun acc d => acc * 10 + hex_value d) ds acc
            < 10 ^ (n + Z.of_nat (length ds))).
  { induction ds as [|d ds IH]; intros acc n Hacc Hn.
    - cbn. by rewrite Z.add_0_r.
    - cbn [forallb] in H. apply andb_true_iff in H as [Hd H].
      cbn [fold_left length].
      replace (n + Z.of_nat (S (length ds))) with ((n + 1) + Z.of_nat (length ds)) by lia.
      apply IH; [exact H| |lia].
      rewrite Z.pow_add_r by lia. unfold hex_value. rewrite Hd.
      unfold is_digit in Hd. lia. }
  apply (Hacc 0 0); lia.
Qed.

Lemma Number_of_digits (ds : jsstring) :
  forallb is_digit ds = true ->
  exists n, Number_of_string ds = Num n /\ 0 <= n < 10 ^ Z.of_nat (length ds).
Proof.
  intros H. pose proof (digits_value_bounds ds H) as Hv.
  unfold Number_of_string. rewrite (trim_digits ds H).
  destruct ds as [|a [|b [|d ds]]].
  - exists 0. split; [reflexivity|]. cbn. lia.
  - rewrite H. eauto.
  - rewrite H. eauto.
  - assert (Hb : is_digit b = true).
    { cbn [forallb] in H. apply andb_true_iff in H as [_ H].
      by apply andb_true_iff in H as [H _]. }
    replace ((b =? 120) || (b =? 88)) with false by (unfold is_digit in Hb; lia).
    rewrite andb_false_r, H. eauto.
Qed.

Lemma filter_digits (value : jsstring) :
  forallb is_digit (onChange_transferToken value) = true.
Proof.
  apply forallb_forall. intros u Hu. unfold onChange_transferToken in Hu.
  by apply filter_In in Hu as [_ Hu].
Qed.

(** ** Hexadecimal strings *)





(** ** The upload policy *)

Lemma added_app {S A} (t new : list Event) (r : (JsError + A) * S * list Event) :
  events r = t ++ new -> added t r = new.
Proof. unfold added. intros ->. by rewrite drop_app_length. Qed.

(** X3. What a successful upload returns. The file is an image of at most
    10 MB, and either the pinning service was called, with both
    credentials of the configuration, and the result is the [ipfs://]
    URI of the hash it answered, previewed through the gateway; or the
    file has at most 100 KB and the result is, twice, the data URL read
    from it. Nothing larger than 100 KB is ever inlined. *)
Theorem uploadImage_result (cfg : Config) (o : Oracle) (file : File)
    {S} (s : S) (t : list Event) (result : UploadResult) :
  outcome (run o (ImageUpload.uploadImage cfg file) s t) = inr result ->
  startsWith (file_type file) (js "image/") = true
  /\ file_size file <= ImageUpload.maxSize
  /\ ((exists apiKey apiSecret ipfsHash,
         VITE_PINATA_API_KEY cfg = Some apiKey /\ truthy apiKey = true
         /\ VITE_PINATA_API_SECRET cfg = Some apiSecret /\ truthy apiSecret = true
         /\ o t (AxiosPostPinata file apiKey apiSecret) = inr ipfsHash
         /\ added t (run o (ImageUpload.uploadImage cfg file) s t)
            = [Called (AxiosPostPinata file apiKey apiSecret)]
         /\ result = {| imageUri := js "ipfs://" ++ ipfsHash;
                        previewUrl := ImageUpload.gateway cfg ++ js "/ipfs/" ++ ipfsHash |})
      \/ (exists dataUrl before,
            file_size file <= ImageUpload.maxBase64Size
            /\ o (t ++ before) (FileReaderReadAsDataURL file) = inr dataUrl
            /\ added t (run o (ImageUpload.uploadImage cfg file) s t)
               = before ++ [Called (FileReaderReadAsDataURL file)]
            /\ Forall (fun e => is_pinata_call e = true) before
            /\ result = {| imageUri := dataUrl; previewUrl := dataUrl |})).
Proof.
  unfold ImageUpload.uploadImage, ImageUpload.uploadToPinata, ImageUpload.uploadAsBase64.
  destruct (startsWith (file_type file) (js "image/")) eqn:Htype; run_simpl;
    [|discriminate].
  destruct (Z.gtb_spec (file_size file) ImageUpload.maxSize) as [Hbig|Hbig]; run_simpl;
    [discriminate|].
  intros Hrun. split; [reflexivity|]. split; [exact Hbig|]. revert Hrun.
  destruct (VITE_PINATA_API_KEY cfg) as [apiKey|] eqn:Hkey; cbn [truthy_opt show_opt];
    [destruct (truthy apiKey) eqn:HapiKey|]; run_simpl.
  1: destruct (VITE_PINATA_API_SECRET cfg) as [apiSecret|] eqn:Hsecret;
       cbn [truthy_opt show_opt];
       [destruct (truthy apiSecret) eqn:HapiSecret|]; run_simpl.
  1: destruct (o t (AxiosPostPinata file apiKey apiSecret)) as [e|ipfsHash] eqn:Hpin;
       run_simpl.
  2: { intros [= <-]. left. exists apiKey, apiSecret, ipfsHash.
       repeat split; try assumption; try reflexivity.
       apply added_app. reflexivity. }
  all: match goal with
       | |- context [Z.gtb ?a ?b] =>
           destruct (Z.gtb_spec a b) as [Hsize|Hsize]
       end; run_simpl; [discriminate|].
  all: match goal with
       | |- context [?f ?t' (FileReaderReadAsDataURL ?x)] =>
           destruct (f t' (FileReaderReadAsDataURL x)) as [e'|dataUrl] eqn:Hread
       end; run_simpl; [discriminate|].
  all: intros [= <-]; right.
  1: exists dataUrl, [Called (AxiosPostPinata file apiKey apiSecret)].
  2-5: exists dataUrl, []; rewrite ?app_nil_r in *.
  all: repeat split; try assumption; try reflexivity;
    try (apply added_app; rewrite <- ?app_assoc; reflexivity);
    repeat constructor.
Qed.

Lemma uploadImage_result_witness :
  startsWith (file_type (Sample.png 51200)) (js "image/") = true
  /\ file_size (Sample.png 51200) <= ImageUpload.maxSize
  /\ ((exists apiKey apiSecret ipfsHash,
         VITE_PINATA_API_KEY Sample.cfg = Some apiKey /\ truthy apiKey = true
         /\ VITE_PINATA_API_SECRET Sample.cfg = Some apiSecret /\ truthy apiSecret = true
         /\ Sample.helpful [] (AxiosPostPinata (Sample.png 51200) apiKey apiSecret) = inr ipfsHash
         /\ added [] (run Sample.helpful (ImageUpload.uploadImage Sample.cfg (Sample.png 51200)) tt [])
            = [Called (AxiosPostPinata (Sample.png 51200) apiKey apiSecret)]
         /\ {| imageUri := Sample.data_url; previewUrl := Sample.data_url |}
            = {| imageUri := js "ipfs://" ++ ipfsHash;
                 previewUrl := ImageUpload.gateway Sample.cfg ++ js "/ipfs/" ++ ipfsHash |})
      \/ (exists dataUrl before,
            file_size (Sample.png 51200) <= ImageUpload.maxBase64Size
            /\ Sample.helpful ([] ++ before) (FileReaderReadAsDataURL (Sample.png 51200)) = inr dataUrl
            /\ added [] (run Sample.helpful (ImageUpload.uploadImage Sample.cfg (Sample.png 51200)) tt [])
               = before ++ [Called (FileReaderReadAsDataURL (Sample.png 51200))]
            /\ Forall (fun e => is_pinata_call e = true) before
            /\ {| imageUri := Sample.data_url; previewUrl := Sample.data_url |}
               = {| imageUri := dataUrl; previewUrl := dataUrl |})).
Proof.
  apply (uploadImage_result Sample.cfg Sample.helpful (Sample.png 51200) tt []).
  reflexivity.
Defined.

(** X4. A pinning service that is half configured, or whose call is
    rejected, is handled as no pinning service at all: the upload goes
    on exactly as the upload without the keys does, after the one call
    to the service if it was made. The call is made exactly when the
    file passes the two checks and both keys are set. *)
Theorem uploadImage_falls_back (cfg : Config) (o : Oracle) (file : File)
    {S} (s : S) (t : list Event) :
  (forall apiKey apiSecret,
      VITE_PINATA_API_KEY cfg = Some apiKey -> truthy apiKey = true ->
      VITE_PINATA_API_SECRET cfg = Some apiSecret -> truthy apiSecret = true ->
      rejected (o t (AxiosPostPinata file apiKey apiSecret))) ->
  exists before,
    Forall (fun e => is_pinata_call e = true) before
    /\ (length before <= 1)%nat
    /\ run o (ImageUpload.uploadImage cfg file) s t
       = run o (ImageUpload.uploadImage (without_pinata cfg) file) s (t ++ before)
    /\ (forall apiKey apiSecret,
          startsWith (file_type file) (js "image/") = true ->
          file_size file <= ImageUpload.maxSize ->
          VITE_PINATA_API_KEY cfg = Some apiKey -> truthy apiKey = true ->
          VITE_PINATA_API_SECRET cfg = Some apiSecret -> truthy apiSecret = true ->
          before = [Called (AxiosPostPinata file apiKey apiSecret)])
    /\ (before <> [] ->
        truthy_opt (VITE_PINATA_API_KEY cfg) = true
        /\ truthy_opt (VITE_PINATA_API_SECRET cfg) = true).
Proof.
  intros Hpin.
  unfold ImageUpload.uploadImage, ImageUpload.uploadToPinata, ImageUpload.uploadAsBase64.
  cbn [without_pinata VITE_PINATA_API_KEY truthy_opt].
  destruct (startsWith (file_type file) (js "image/")) eqn:Htype; run_simpl.
  2: { exists []. rewrite app_nil_r. repeat split; auto; try discriminate; congruence. }
  destruct (file_size file >? ImageUpload.maxSize) eqn:Hbig; run_simpl.
  { exists []. rewrite app_nil_r. repeat split; auto; try congruence. intros; lia. }
  destruct (VITE_PINATA_API_KEY cfg) as [apiKey|] eqn:Hkey; cbn [truthy_opt show_opt];
    [destruct (truthy apiKey) eqn:HapiKey|]; run_simpl.
  1: destruct (VITE_PINATA_API_SECRET cfg) as [apiSecret|] eqn:Hsecret;
       cbn [truthy_opt show_opt];
       [destruct (truthy apiSecret) eqn:HapiSecret|]; run_simpl.
  1: { specialize (Hpin apiKey apiSecret eq_refl HapiKey eq_refl HapiSecret).
       destruct (o t (AxiosPostPinata file apiKey apiSecret)) as [e|ipfsHash] eqn:Hanswer;
         [|destruct Hpin].
       run_simpl. exists [Called (AxiosPostPinata file apiKey apiSecret)].
       split; [repeat constructor|]. split; [cbn; lia|]. split; [reflexivity|].
       split; [|auto].
       intros apiKey' apiSecret' _ _ [= <-] _ [= <-] _. reflexivity. }
  all: exists []; rewrite app_nil_r.
  all: split; [constructor|]; split; [cbn; lia|]; split; [reflexivity|].
  all: split; [|congruence].
  all: intros apiKey' apiSecret' _ _ Hk Hk' Hs Hs'; congruence.
Qed.

Lemma uploadImage_falls_back_witness :
  let file := Sample.png 51200 in
  let call := Called (AxiosPostPinata file (js "key") (js "secret")) in
  (run Demo.pinata_down (ImageUpload.uploadImage Demo.pinned_cfg file) tt []
   = run Demo.pinata_down (ImageUpload.uploadImage (without_pinata Demo.pinned_cfg) file) tt
       [call]
   /\ run Demo.pinata_down (ImageUpload.uploadImage Demo.pinned_cfg file) tt []
      = (inr {| imageUri := Sample.data_url; previewUrl := Sample.data_url |}, tt,
         [call; Called (FileReaderReadAsDataURL file)]))
  /\ exists before,
       Forall (fun e => is_pinata_call e = true) before
       /\ run Sample.helpful (ImageUpload.uploadImage Demo.half_cfg file) tt []
          = run Sample.helpful (ImageUpload.uploadImage (without_pinata Demo.half_cfg) file) tt
              ([] ++ before).
Proof.
  intros file call. split.
  - destruct (uploadImage_falls_back Demo.pinned_cfg Demo.pinata_down file tt [])
      as (before & _ & _ & Hrun & Hcalled & _).
    { intros apiKey apiSecret _ _ _ _. exact I. }
    rewrite (Hcalled (js "key") (js "secret")) in Hrun by (reflexivity || (vm_compute; congruence)).
    split; [exact Hrun|reflexivity].
  - destruct (uploadImage_falls_back Demo.half_cfg Sample.helpful file tt [])
      as (before & Hpinata & _ & Hrun & _).
    { intros apiKey apiSecret _ _ Hsecret. discriminate Hsecret. }
    exists before. split; [exact Hpinata|exact Hrun].
Defined.

(** X5. The two copies of [imageUpload.ts] in the repository differ in the
    ceiling of the inline path only. With the default gateway, on every
    file on which the upload does not stop at that ceiling they run
    alike; where it stops, above 100 KB, the other copy goes on to read
    the file and inlines it. *)
Theorem uploadImage_copies_agree (cfg : Config) (o : Oracle) (file : File)
    {S} (s : S) (t : list Event) :
  truthy_opt (VITE_PINATA_GATEWAY cfg) = false ->
  run o (ImageUploadCopy.uploadImage cfg file) s t
  = run o (ImageUpload.uploadImage cfg file) s t
  \/ (file_size file > ImageUpload.maxBase64Size
      /\ outcome (run o (ImageUpload.uploadImage cfg file) s t)
         = inl (Error_ (ImageUpload.too_large_message file))
      /\ run o (ImageUploadCopy.uploadImage cfg file) s t
         = run o (ImageUpload.uploadAsBase64 file) s
             (events (run o (ImageUpload.uploadImage cfg file) s t))).
Proof.
  intros Hgateway.
  assert (Hurl : forall h, js "https://gateway.pinata.cloud/ipfs/" ++ h
                           = ImageUpload.gateway cfg ++ js "/ipfs/" ++ h).
  { intros h. unfold ImageUpload.gateway. rewrite Hgateway. reflexivity. }
  unfold ImageUploadCopy.uploadImage, ImageUploadCopy.uploadToPinata,
    ImageUpload.uploadImage, ImageUpload.uploadToPinata, ImageUpload.uploadAsBase64.
  destruct (startsWith (file_type file) (js "image/")) eqn:Htype; run_simpl;
    [|left; reflexivity].
  destruct (file_size file >? ImageUpload.maxSize) eqn:Hbig; run_simpl;
    [left; reflexivity|].
  destruct (VITE_PINATA_API_KEY cfg) as [apiKey|] eqn:Hkey; cbn [truthy_opt show_opt];
    [destruct (truthy apiKey) eqn:HapiKey|]; run_simpl.
  1: destruct (VITE_PINATA_API_SECRET cfg) as [apiSecret|] eqn:Hsecret;
       cbn [truthy_opt show_opt];
       [destruct (truthy apiSecret) eqn:HapiSecret|]; run_simpl.
  1: destruct (o t (AxiosPostPinata file apiKey apiSecret)) as [e|ipfsHash] eqn:Hpin;
       run_simpl.
  2: { left. rewrite Hurl. reflexivity. }
  all: destruct (Z.gtb_spec (file_size file) ImageUpload.maxBase64Size) as [Hsize|Hsize];
    run_simpl; [right; split; [lia|split; reflexivity] | left; reflexivity].
Qed.

Lemma uploadImage_copies_agree_witness :
  run Sample.helpful (ImageUploadCopy.uploadImage Sample.cfg (Sample.png 5000000)) tt []
  = run Sample.helpful (ImageUpload.uploadImage Sample.cfg (Sample.png 5000000)) tt []
  \/ (file_size (Sample.png 5000000) > ImageUpload.maxBase64Size
      /\ outcome (run Sample.helpful (ImageUpload.uploadImage Sample.cfg (Sample.png 5000000)) tt [])
         = inl (Error_ (ImageUpload.too_large_message (Sample.png 5000000)))
      /\ run Sample.helpful (ImageUploadCopy.uploadImage Sample.cfg (Sample.png 5000000)) tt []
         = run Sample.helpful (ImageUpload.uploadAsBase64 (Sample.png 5000000)) tt
             (events (run Sample.helpful
                        (ImageUpload.uploadImage Sample.cfg (Sample.png 5000000)) tt []))).
Proof.
  apply (uploadImage_copies_agree Sample.cfg Sample.helpful (Sample.png 5000000) tt []).
  reflexivity.
Defined.

(** X6. The gallery shows what the mint previewed. For the result of a
    successful upload, [getImageUrl] of the URI that goes on chain is the
    preview URL, given that the file reader answers with a [data:] URL. *)
Theorem getImageUrl_of_upload (cfg : Config) (o : Oracle) (file : File)
    {S} (s : S) (t : list Event) (result : UploadResult) :
  (forall t' dataUrl,
      o t' (FileReaderReadAsDataURL file) = inr dataUrl ->
      startsWith dataUrl (js "data:") = true) ->
  outcome (run o (ImageUpload.uploadImage cfg file) s t) = inr result ->
  ImageUpload.getImageUrl cfg (imageUri result) = previewUrl result.
Proof.
  intros Hreader. upload_unfold. run_simpl. repeat next_cond.
  all: try discriminate.
  all: intros [= <-]; cbn [imageUri previewUrl]; unfold ImageUpload.getImageUrl.
  all: try match goal with
           | H : _ _ (FileReaderReadAsDataURL _) = inr ?d |- _ =>
               apply Hreader in H; destruct d as [|u d]; [discriminate H|];
               assert (u = 100) as ->
                   by (change (js "data:") with [100; 97; 116; 97; 58] in H;
                       cbn [startsWith] in H; apply andb_true_iff in H as [Hu _]; lia);
               reflexivity
           end.
  all: match goal with
       | r : resp (AxiosPostPinata _ _ _) |- _ => destruct r; reflexivity
       end.
Qed.

Lemma getImageUrl_of_upload_witness :
  ImageUpload.getImageUrl Sample.cfg Sample.data_url = Sample.data_url.
Proof.
  apply (getImageUrl_of_upload Sample.cfg Sample.helpful (Sample.png 51200) tt []
           {| imageUri := Sample.data_url; previewUrl := Sample.data_url |}).
  - intros t' dataUrl [= <-]. reflexivity.
  - reflexivity.
Defined.

(** ** The image picker *)

(** X2. The picker and the upload check a file alike. [handleFile] never
    throws; where it alerts, [uploadImage] refuses the same file before
    it calls anything, whatever the configuration; a file it hands to
    the form, with the data URL read from it as the preview, passes
    both checks of [uploadImage], whose upload can then fail in two
    ways only: the file cannot be read, or it is too large to be
    inlined. *)
Theorem picker_checks_what_upload_checks (cfg : Config) (o : Oracle) (file : File)
    {S} (s : S) (t : list Event) :
  match outcome (run o (ImagePicker.handleFile (Some file)) s t) with
  | inl _ => False
  | inr ImagePicker.Nothing =>
      exists e, o t (FileReaderReadAsDataURL file) = inl e
  | inr (ImagePicker.Alert text) =>
      exists refusal,
        (text, refusal) ∈ [("Please select an image file", "File must be an image");
                           ("Image must be less than 10MB", "Image must be less than 10MB")]
        /\ forall o' t',
             run o' (ImageUpload.uploadImage cfg file) tt t' = (inl (Error_ refusal), tt, t')
  | inr (ImagePicker.Selected file' previewUrl) =>
      file' = file
      /\ o t (FileReaderReadAsDataURL file) = inr previewUrl
      /\ forall o' t',
           match outcome (run o' (ImageUpload.uploadImage cfg file) tt t') with
           | inr _ => True
           | inl e => e = Error_ "Failed to read file"
                      \/ e = Error_ (ImageUpload.too_large_message file)
           end
  end.
Proof.
  unfold ImagePicker.handleFile, ImageUpload.uploadImage.
  destruct (startsWith (file_type file) (js "image/")) eqn:Htype; run_simpl.
  2:{ exists "File must be an image"%string. split; [apply list_elem_of_here|].
      intros o' t'. reflexivity. }
  destruct (file_size file >? ImageUpload.maxSize) eqn:Hsize; run_simpl.
  { exists "Image must be less than 10MB"%string.
    split; [apply list_elem_of_further, list_elem_of_here|].
    intros o' t'. reflexivity. }
  destruct (o t (FileReaderReadAsDataURL file)) as [e|previewUrl] eqn:Hread; run_simpl.
  { by exists e. }
  split; [reflexivity|]. split; [reflexivity|].
  intros o' t'. upload_unfold. run_simpl.
  repeat first [next_answer o' | next_cond]; auto.
Qed.

(** ** The SDK instance *)


Lemma encryptMessage_leaves_instance (cfg : Config) {C} (o : Oracle) (w : Browser C)
    (t : list Event) (message : jsstring) (encrypted : FheEncryption.EncryptedMessage) :
  outcome (run o (FheEncryption.encryptMessage cfg message) w t) = inr encrypted ->
  exists instance,
    fhevmInstance (final (run o (FheEncryption.encryptMessage cfg message) w t))
    = Some instance.
Proof.
  encrypt_unfold. run_simpl.
  destruct (fhevmInstance w) as [instance|] eqn:Hinstance; run_simpl.
  - repeat next_answer o; try discriminate; repeat next_cond; try discriminate;
      intros _; eauto.
  - destruct (window_ethereum w); run_simpl; [|discriminate].
    repeat next_answer o; try discriminate; repeat next_cond; try discriminate;
      intros _; eauto.
Qed.

(** X8. The SDK is set up once. After an encryption that succeeded, a
    later encryption on the same page, of any message and whatever the
    collaborators answer, makes none of the calls that load the SDK,
    read the network or create the instance. *)
Theorem encryptMessage_sets_up_once (cfg : Config) {C} (o : Oracle) (w : Browser C)
    (t : list Event) (message : jsstring) (encrypted : FheEncryption.EncryptedMessage) :
  outcome (run o (FheEncryption.encryptMessage cfg message) w t) = inr encrypted ->
  forall (o' : Oracle) (t' : list Event) (message' : jsstring),
    Forall (fun e => is_sdk_setup e = false)
      (added t' (run o' (FheEncryption.encryptMessage cfg message')
                   (final (run o (FheEncryption.encryptMessage cfg message) w t)) t')).
Proof.
  intros Hfirst o' t' message'.
  destruct (encryptMessage_leaves_instance cfg o w t message encrypted Hfirst)
    as [instance Hinstance].
  revert Hinstance.
  generalize (final (run o (FheEncryption.encryptMessage cfg message) w t)).
  intros w1 Hinstance. unfold added.
  encrypt_unfold. run_simpl. rewrite Hinstance. run_simpl.
  repeat next_answer o'; repeat next_cond.
  all: rewrite <- ?app_assoc, drop_app_length; repeat constructor.
Qed.

Lemma encryptMessage_sets_up_once_witness :
  Forall (fun e => is_sdk_setup e = false)
    (added [] (run Sample.helpful (FheEncryption.encryptMessage Sample.cfg (js "again"))
                 (final (run Sample.helpful
                           (FheEncryption.encryptMessage Sample.cfg (js "hello"))
                           (Sample.browser_of Sample.mounted ∅) [])) [])).
Proof.
  apply (encryptMessage_sets_up_once Sample.cfg Sample.helpful
           (Sample.browser_of Sample.mounted ∅) [] (js "hello")
           {| FheEncryption.encryptedMessage := js "0xabcd";
              FheEncryption.inputProof_hex := js "0x010203" |}).
  reflexivity.
Defined.

(** The last call of a list of new events. *)
Ltac ends_with :=
  lazymatch goal with
  | |- exists before c, ?l = before ++ [Called c] /\ _ =>
      lazymatch l with
      | [Called ?c0] => exists [], c0
      | [?a; Called ?c0] => exists [a], c0
      | [?a; ?b; Called ?c0] => exists [a; b], c0
      | [?a; ?b; ?c; Called ?c0] => exists [a; b; c], c0
      | [?a; ?b; ?c; ?d; Called ?c0] => exists [a; b; c; d], c0
      | [?a; ?b; ?c; ?d; ?e; Called ?c0] => exists [a; b; c; d; e], c0
      end
  end.

Ltac ends_with_encrypt :=
  lazymatch goal with
  | |- exists before instance contractAddress userAddress value encrypted, ?l = _ /\ _ =>
      match goal with
      | H : _ _ (EncryptedInputEncrypt ?i ?a ?u ?v) = inr ?enc |- _ =>
          exists (removelast l), i, a, u, v, enc
      end
  end; cbn [removelast].

Ltac use_answer :=
  match goal with
  | H : _ = _ |- _ =>
      rewrite <- ?app_assoc in H; cbn [app] in H; rewrite ?app_nil_r; exact H
  end.

(** X9. Whatever goes wrong in [encryptMessage] (no wallet provider, a
    rejected call of the SDK or of the wallet, no handle in the answer)
    comes out as one [Error], without a [reason] of its own, whose
    message is ['Failed to encrypt message: '] followed by the message
    of the cause when the cause is an [Error], and by ['Unknown error']
    when a call was rejected with something else; no call follows the
    one that was rejected. Without a handle the cause is the
    [TypeError] of the browser's engine for [Array.from(undefined)],
    whatever its wording. *)
Theorem encryptMessage_wraps_errors (cfg : Config) {C} (o : Oracle) (w : Browser C)
    (t : list Event) (message : jsstring) (error : JsError) :
  outcome (run o (FheEncryption.encryptMessage cfg message) w t) = inl error ->
  exists cause,
    error = Error_ ("Failed to encrypt message: "
                    ++ message_or cause "Unknown error")%string
    /\ let new := added t (run o (FheEncryption.encryptMessage cfg message) w t) in
       (new = [] /\ window_ethereum w = false /\ cause = Error_ "MetaMask not found")
       \/ (exists before c, new = before ++ [Called c] /\ o (t ++ before) c = inl cause)
       \/ (exists before instance contractAddress userAddress value encrypted,
              new = before ++ [Called (EncryptedInputEncrypt instance contractAddress
                                         userAddress value)]
              /\ o (t ++ before) (EncryptedInputEncrypt instance contractAddress
                                    userAddress value) = inr encrypted
              /\ handles encrypted = []
              /\ cause = Error_ (Array_from_undefined w)).
Proof.
  unfold added. encrypt_unfold. run_simpl.
  destruct (fhevmInstance w) as [instance|] eqn:Hinstance; run_simpl.
  2: destruct (window_ethereum w) eqn:Hwallet; run_simpl.
  3: { intros [= <-]. exists (Error_ "MetaMask not found"). split; [reflexivity|]. left.
       rewrite drop_all. auto. }
  all: repeat next_answer o; repeat next_cond; try discriminate.
  all: intros [= <-];
       match goal with
       | |- context [message_or ?c _] => exists c
       | _ => exists (Error_ (Array_from_undefined w))
       end; (split; [reflexivity|]).
  all: rewrite <- ?app_assoc, drop_app_length; cbn [app].
  all: first [ right; left; ends_with; (split; [reflexivity|]); use_answer
             | right; right; ends_with_encrypt; repeat split; try reflexivity;
               first [assumption | use_answer] ].
Qed.

Lemma encryptMessage_wraps_errors_witness :
  let w := Sample.browser_of Sample.mounted ∅ in
  let r := run Demo.no_handle (FheEncryption.encryptMessage Sample.cfg (js "hello")) w [] in
  outcome r = inl (Error_ "Failed to encrypt message: undefined is not iterable")
  /\ exists cause,
       Error_ "Failed to encrypt message: undefined is not iterable"
       = Error_ ("Failed to encrypt message: "
                 ++ message_or cause "Unknown error")%string
       /\ ((added [] r = [] /\ window_ethereum w = false
            /\ cause = Error_ "MetaMask not found")
           \/ (exists before c, added [] r = before ++ [Called c]
                                /\ Demo.no_handle ([] ++ before) c = inl cause)
           \/ (exists before instance contractAddress userAddress value encrypted,
                  added [] r = before ++ [Called (EncryptedInputEncrypt instance
                                                    contractAddress userAddress value)]
                  /\ Demo.no_handle ([] ++ before)
                       (EncryptedInputEncrypt instance contractAddress userAddress value)
                     = inr encrypted
                  /\ handles encrypted = []
                  /\ cause = Error_ (Array_from_undefined w))).
Proof.
  split; [reflexivity|].
  apply (encryptMessage_wraps_errors Sample.cfg Demo.no_handle
           (Sample.browser_of Sample.mounted ∅) [] (js "hello")).
  reflexivity.
Defined.

(** ** The handlers of [HiddenNFTAppV2Simple] *)

(** X10. No handler leaves its busy flag set. After [handleMint] the
    [minting] flag is down, unless the form was refused before any call
    and the flag was already up; the same for [handleTransfer] and
    [transferring]; after [decryptMessage] no reveal is marked active.
    This holds whatever the collaborators answer. *)
Theorem handlers_release_their_flags (cfg : Config) (o : Oracle) (s : V2Simple.State)
    (w : V2Simple.World) (t : list Event) (tokenId : Z) :
  (V2Simple.minting (component (final (run o (V2Simple.handleMint cfg s) w t))) = true ->
   V2Simple.minting (component w) = true
   /\ events (run o (V2Simple.handleMint cfg s) w t) = t)
  /\ (V2Simple.transferring (component (final (run o (V2Simple.handleTransfer s) w t))) = true ->
      V2Simple.transferring (component w) = true
      /\ events (run o (V2Simple.handleTransfer s) w t) = t)
  /\ V2Simple.activeDecrypt
       (component (final (run o (V2Simple.decryptMessage cfg s tokenId) w t))) = None.
Proof.
  split; [|split].
  - mint_unfold. run_simpl. repeat next_cond; world_simpl; cbn [V2Simple.minting];
      solve [discriminate | auto].
  - transfer_unfold. run_simpl.
    destruct (V2Simple.connected s); run_simpl; [|world_simpl; cbn [V2Simple.transferring]; auto].
    destruct (ZERO_ADDRESS_test (trim (V2Simple.transferAddress s))); run_simpl;
      [|world_simpl; cbn [V2Simple.transferring]; auto].
    destruct (Number_of_string (V2Simple.transferToken s)) as [|n]; run_simpl;
      [world_simpl; cbn [V2Simple.transferring]; auto|].
    destruct (n <? 0); run_simpl; [world_simpl; cbn [V2Simple.transferring]; auto|].
    repeat next_cond; world_simpl; cbn [V2Simple.transferring]; discriminate.
  - reveal_unfold. run_simpl. repeat next_cond; reflexivity.
Qed.

(** Names the run the goal speaks about, so that it is unfolded once. *)
Ltac name_run r :=
  match goal with
  | r := run ?o ?p ?w ?t |- _ =>
      let H := fresh "Hrun" in
      assert (H : r = run o p w t) by reflexivity; clearbody r; revert H
  end.

(** Splits a list of new events at the wait for the confirmation. *)
Ltac split_at_wait pre l :=
  lazymatch l with
  | Called (TxWait ?tx) :: ?rest => exists pre, tx; eexists; exists rest
  | ?x :: ?rest =>
      let pre' := eval cbn [app] in (pre ++ [x]) in split_at_wait pre' rest
  end.

(** X11. A mint either goes through or leaves the form as it was. The
    success line is shown only after the wait for the confirmation
    returned a receipt, and then the form is cleared and the gallery
    opened. In every other case (refused form, failed upload, failed
    encryption, rejected or reverted transaction, no receipt) the
    message, the selected image and the open tab are what they were and
    the local cache is untouched, so the mint can be submitted again. *)
Theorem handleMint_succeeds_or_keeps_form (cfg : Config) (o : Oracle) (s : V2Simple.State)
    (w : V2Simple.World) (t : list Event) :
  let r := run o (V2Simple.handleMint cfg s) w t in
  let c := component (final r) in
  (V2Simple.mintStatus c = mint_succeeded
   /\ V2Simple.mintValue c = [] /\ V2Simple.selectedImage c = None
   /\ V2Simple.activeTab c = V2Simple.TabGallery
   /\ exists before tx receipt after,
        added t r = before ++ Called (TxWait tx) :: after
        /\ o (t ++ before) (TxWait tx) = inr (Some receipt))
  \/ (V2Simple.mintStatus c <> mint_succeeded
      /\ V2Simple.mintValue c = V2Simple.mintValue (component w)
      /\ V2Simple.selectedImage c = V2Simple.selectedImage (component w)
      /\ V2Simple.activeTab c = V2Simple.activeTab (component w)
      /\ localStorage (final r) = localStorage w).
Proof.
  intros r c. subst c. unfold added, mint_succeeded. name_run r.
  mint_unfold. run_simpl. repeat next_cond.
  all: intros ->; run_simpl; world_simpl; cbn [V2Simple.mintValue V2Simple.selectedImage].
  all: first
         [ right; split; [cbn [String.append]; discriminate|repeat split; reflexivity]
         | left; do 4 (split; [reflexivity|]);
           rewrite <- ?app_assoc, drop_app_length; cbn [app];
           match goal with
           | |- exists before tx receipt after, ?l = _ /\ _ => split_at_wait (@nil Event) l
           end;
           (split; [reflexivity|]); use_answer ].
Qed.

(** X12. What a reveal can show. [decryptMessage] never writes the local
    cache and never changes what is shown for another token. For its
    own token it shows the cached text, without calling anything, when
    the cache has a non-empty entry for the connected account; else,
    when the contract returns the handle, it enters the decryption stub
    once and shows the placeholder; else (token not in the gallery, read
    rejected) it shows what was shown before. No run shows anything
    else. *)
Theorem decryptMessage_shows_cache_or_placeholder (cfg : Config) (o : Oracle)
    (s : V2Simple.State) (w : V2Simple.World) (t : list Event) (tokenId : Z) :
  let r := run o (V2Simple.decryptMessage cfg s tokenId) w t in
  let key := Number_toString (Num tokenId) in
  let shown := V2Simple.decryptedAttributes (component (final r)) in
  let cached :=
    localStorage w !! V2Simple.cache_key (V2Simple.wallet_address s) (Num tokenId) in
  localStorage (final r) = localStorage w
  /\ (forall k, k <> key ->
        shown !! k = V2Simple.decryptedAttributes (component w) !! k)
  /\ ((exists text,
         cached = Some text /\ truthy text = true
         /\ shown !! key = Some text /\ added t r = [])
      \/ (truthy_opt cached = false
          /\ shown !! key = Some V2Simple.encrypted_placeholder
          /\ exists handle,
               o t (ContractGetEncryptedMessage tokenId) = inr handle
               /\ added t r
                  = [Called (ContractGetEncryptedMessage tokenId);
                     Did (Enter_decryptUint256 handle (CONTRACT_ADDRESS cfg))])
      \/ (shown = V2Simple.decryptedAttributes (component w)
          /\ (find (fun n => V2Simple.nft_tokenId n =? tokenId) (V2Simple.nfts s) = None
              \/ truthy_opt cached = false
                 /\ rejected (o t (ContractGetEncryptedMessage tokenId))))).
Proof.
  intros r key shown cached. subst key shown cached. unfold added. name_run r.
  reveal_unfold. run_simpl.
  destruct (find (fun n => V2Simple.nft_tokenId n =? tokenId) (V2Simple.nfts s))
    as [nft|] eqn:Hfind; run_simpl.
  2: { intros ->. run_simpl. world_simpl. split; [reflexivity|]. split; [reflexivity|].
       right. right. split; [reflexivity|]. left. reflexivity. }
  world_simpl.
  destruct (localStorage w !! V2Simple.cache_key (V2Simple.wallet_address s) (Num tokenId))
    as [text|] eqn:Hcached; cbn [truthy_opt show_opt];
    [destruct (truthy text) eqn:Htext|]; run_simpl.
  1: { intros ->. run_simpl. world_simpl. split; [reflexivity|].
       split; [intros k Hk; apply lookup_insert_ne; congruence|].
       left. exists text. rewrite drop_all.
       repeat split; try reflexivity; try assumption. apply lookup_insert_eq. }
  all: destruct (o t (ContractGetEncryptedMessage tokenId)) as [e|handle] eqn:Hread;
    run_simpl; intros ->; run_simpl; world_simpl; (split; [reflexivity|]).
  all: first
         [ split; [reflexivity|]; right; right; split; [reflexivity|];
           right; split; [reflexivity|exact I]
         | split; [intros k Hk; apply lookup_insert_ne; congruence|];
           right; left; split; [reflexivity|]; split; [apply lookup_insert_eq|];
           exists handle; split; [reflexivity|];
           rewrite <- ?app_assoc, drop_app_length; reflexivity ].
Qed.

(** ** The keys of the local cache *)

Lemma js_inj (s s' : string) : js s = js s' -> s = s'.
Proof.
  unfold js. intros H.
  rewrite <- (string_of_list_ascii_of_string s), <- (string_of_list_ascii_of_string s').
  f_equal. revert H.
  generalize (list_ascii_of_string s) (list_ascii_of_string s'). clear s s'.
  induction l as [|a l IH]; intros [|a' l'] H; try discriminate; [reflexivity|].
  cbn [map] in H. injection H as Ha Hl. f_equal; [|by apply IH].
  apply N2Z.inj in Ha.
  rewrite <- (ascii_N_embedding a), <- (ascii_N_embedding a'). by rewrite Ha.
Qed.

Lemma ZERO_ADDRESS_length (address : jsstring) :
  ZERO_ADDRESS_test address = true -> length address = 42%nat.
Proof.
  destruct address as [|a [|b digits]]; try discriminate.
  cbn [ZERO_ADDRESS_test length]. intros H.
  apply andb_true_iff in H as [H _]. apply andb_true_iff in H as [_ H].
  apply Nat.eqb_eq in H. lia.
Qed.

Lemma cache_key_inj (a a' : jsstring) (n n' : Z) :
  length a = length a' ->
  V2Simple.cache_key (Some a) (Num n) = V2Simple.cache_key (Some a') (Num n') ->
  a = a' /\ n = n'.
Proof.
  unfold V2Simple.cache_key. cbn [show_opt Number_toString]. intros Hlen H.
  apply app_inv_head in H. apply app_inj_1 in H as [Ha H]; [|exact Hlen].
  split; [exact Ha|]. apply app_inv_head in H. apply js_inj in H.
  by apply (inj pretty) in H.
Qed.

(** X13. The cache keys of different (account, token) pairs are different:
    for account addresses of the 42-character form the key
    [nft_message_<address>_<tokenId>] determines the address and the
    token identifier. *)
Theorem cache_key_injective (a a' : jsstring) (n n' : Z) :
  ZERO_ADDRESS_test a = true -> ZERO_ADDRESS_test a' = true ->
  V2Simple.cache_key (Some a) (Num n) = V2Simple.cache_key (Some a') (Num n') ->
  a = a' /\ n = n'.
Proof.
  intros Ha Ha'. apply cache_key_inj.
  by rewrite (ZERO_ADDRESS_length a), (ZERO_ADDRESS_length a').
Qed.

Lemma cache_key_injective_witness :
  Sample.alice = Sample.alice /\ 3 = 3.
Proof.
  apply (cache_key_injective Sample.alice Sample.alice 3 3); reflexivity.
Defined.

(** X14. A reveal reads the cache entry of the connected account and of
    its own token only: an entry stored for another account, or for
    another token, changes nothing in what the reveal calls, shows and
    reports. *)
Theorem decryptMessage_ignores_other_entries (cfg : Config) (o : Oracle)
    (s : V2Simple.State) (w : V2Simple.World) (t : list Event) (tokenId : Z)
    (account other : jsstring) (n : Z) (text : jsstring) :
  V2Simple.wallet_address s = Some account ->
  ZERO_ADDRESS_test account = true -> ZERO_ADDRESS_test other = true ->
  other <> account \/ n <> tokenId ->
  let w' := store_item (V2Simple.cache_key (Some other) (Num n)) text w in
  let r := run o (V2Simple.decryptMessage cfg s tokenId) w t in
  let r' := run o (V2Simple.decryptMessage cfg s tokenId) w' t in
  outcome r' = outcome r /\ events r' = events r
  /\ component (final r') = component (final r).
Proof.
  intros Hwallet Haccount Hother Hne w' r r'. subst w' r r'.
  assert (Hkey : V2Simple.cache_key (Some other) (Num n)
                 <> V2Simple.cache_key (V2Simple.wallet_address s) (Num tokenId)).
  { rewrite Hwallet. intros Heq. apply cache_key_inj in Heq as [-> ->]; [tauto|].
    by rewrite (ZERO_ADDRESS_length account), (ZERO_ADDRESS_length other). }
  reveal_unfold. run_simpl.
  destruct (find (fun n0 => V2Simple.nft_tokenId n0 =? tokenId) (V2Simple.nfts s));
    run_simpl; [|repeat split; reflexivity].
  world_simpl. rewrite (lookup_insert_ne _ _ _ _ Hkey).
  destruct (truthy_opt (localStorage w
              !! V2Simple.cache_key (V2Simple.wallet_address s) (Num tokenId)));
    run_simpl; [repeat split; reflexivity|].
  destruct (o t (ContractGetEncryptedMessage tokenId)); run_simpl;
    repeat split; reflexivity.
Qed.

Lemma decryptMessage_ignores_other_entries_witness :
  let w := Sample.browser_of (Sample.gallery [3] ∅) ∅ in
  let w' := store_item (V2Simple.cache_key (Some Sample.bob) (Num 3)) (js "hello") w in
  let r := run Sample.helpful (V2Simple.decryptMessage Sample.cfg (Sample.gallery [3] ∅) 3) w [] in
  let r' := run Sample.helpful (V2Simple.decryptMessage Sample.cfg (Sample.gallery [3] ∅) 3) w' [] in
  outcome r' = outcome r /\ events r' = events r
  /\ component (final r') = component (final r).
Proof.
  apply (decryptMessage_ignores_other_entries Sample.cfg Sample.helpful
           (Sample.gallery [3] ∅) (Sample.browser_of (Sample.gallery [3] ∅) ∅) [] 3
           Sample.alice Sample.bob 3 (js "hello")).
  - reflexivity.
  - reflexivity.
  - reflexivity.
  - left. intros H. discriminate H.
Defined.

(** ** The transfer form *)

(** X15. The token field keeps digits only, so its content is always read
    as a token identifier: whatever was typed, with up to 15 digits
    left in the field, [Number] of the field is a non-negative integer
    (zero for the empty field), and [handleTransfer] never answers
    "Enter a valid token ID". *)
Theorem typed_token_is_a_token_id (o : Oracle) (s : V2Simple.State)
    (w : V2Simple.World) (t : list Event) (typed : jsstring) :
  V2Simple.transferToken s = onChange_transferToken typed ->
  (length (onChange_transferToken typed) <= 15)%nat ->
  (exists n, Number_of_string (V2Simple.transferToken s) = Num n
             /\ 0 <= n < 2 ^ 53
             /\ (V2Simple.transferToken s = [] -> n = 0))
  /\ transferStatus_after (run o (V2Simple.handleTransfer s) w t)
     <> "Enter a valid token ID (must be a number)"%string.
Proof.
  intros Htoken Hlen.
  destruct (Number_of_digits _ (filter_digits typed)) as (n & Hn & Hrange).
  rewrite <- Htoken in Hn.
  assert (Hbound : 10 ^ Z.of_nat (length (onChange_transferToken typed)) <= 10 ^ 15)
    by (apply (Z.pow_le_mono_r 10 _ 15); lia).
  split.
  { exists n. split; [exact Hn|]. split; [lia|].
    intros Hempty. rewrite Hempty in Hn. cbn in Hn. congruence. }
  unfold transferStatus_after. transfer_unfold. run_simpl.
  destruct (V2Simple.connected s); run_simpl; [|world_simpl; discriminate].
  destruct (ZERO_ADDRESS_test (trim (V2Simple.transferAddress s))); run_simpl;
    [|world_simpl; discriminate].
  rewrite Hn. cbn [Number_isInteger negb orb].
  replace (n <? 0) with false by lia. run_simpl.
  repeat next_cond; world_simpl; cbn [String.append]; discriminate.
Qed.

Lemma typed_token_is_a_token_id_witness :
  (exists n, Number_of_string (js "42") = Num n /\ 0 <= n < 2 ^ 53
             /\ (js "42" = [] -> n = 0))
  /\ transferStatus_after
       (run Sample.helpful
          (V2Simple.handleTransfer (Sample.transfer_form (js "42") Sample.bob Sample.mounted))
          (Sample.browser_of Sample.mounted ∅) [])
     <> "Enter a valid token ID (must be a number)"%string.
Proof.
  apply (typed_token_is_a_token_id Sample.helpful
           (Sample.transfer_form (js "42") Sample.bob Sample.mounted)
           (Sample.browser_of Sample.mounted ∅) [] (js "4x2 ")).
  - reflexivity.
  - vm_compute. lia.
Defined.

(** X16. What [handleTransfer] sends, for a token field as the form
    leaves it (digits only) that holds at most 15 digits, so that
    [Number] of it is the integer written. It submits at most one
    transaction; the transfer is from the address of the connected
    wallet, of the token whose number stands in the token field, to the
    recipient as typed, which matches the address pattern once
    trimmed. *)
Theorem handleTransfer_sends_own_token (o : Oracle) (s : V2Simple.State)
    (w : V2Simple.World) (t : list Event) (typed : jsstring) :
  V2Simple.transferToken s = onChange_transferToken typed ->
  (length (onChange_transferToken typed) <= 15)%nat ->
  let new := added t (run o (V2Simple.handleTransfer s) w t) in
  (length (List.filter (fun e => match e with
                                 | Called (ContractTransferFrom _ _ _ _) => true
                                 | _ => false
                                 end) new) <= 1)%nat
  /\ forall signer from to tokenId,
       In (Called (ContractTransferFrom signer from to tokenId)) new ->
       V2Simple.wallet_isConnected s = true
       /\ V2Simple.wallet_address s = Some from
       /\ to = V2Simple.transferAddress s
       /\ ZERO_ADDRESS_test (trim to) = true
       /\ exists n, tokenId = Num n /\ 0 <= n < 2 ^ 53
                    /\ n = digits_value 10 (V2Simple.transferToken s)
                    /\ Number_of_string (V2Simple.transferToken s) = Num n.
Proof.
  intros Htyped Hlen new. subst new.
  destruct (Number_of_digits _ (filter_digits typed)) as (n & Hn & Hrange).
  assert (Hvalue : n = digits_value 10 (onChange_transferToken typed)).
  { pose proof (filter_digits typed) as Hdigits. revert Hn.
    unfold Number_of_string. rewrite (trim_digits _ Hdigits).
    destruct (onChange_transferToken typed) as [|a [|b [|d ds]]]; cbn [forallb] in *.
    - intros [= <-]. reflexivity.
    - rewrite Hdigits. intros [= <-]. reflexivity.
    - rewrite Hdigits. intros [= <-]. reflexivity.
    - apply andb_true_iff in Hdigits as [Ha Hrest].
      apply andb_true_iff in Hrest as [Hb Hrest].
      replace ((a =? 48) && ((b =? 120) || (b =? 88))) with false
        by (unfold is_digit in Hb; lia).
      cbn [forallb]. rewrite Ha, Hb, Hrest. intros [= <-]. reflexivity. }
  rewrite <- Htyped in Hn, Hvalue.
  assert (Hbound : 10 ^ Z.of_nat (length (onChange_transferToken typed)) <= 10 ^ 15)
    by (apply (Z.pow_le_mono_r 10 _ 15); lia).
  assert (Hsafe : 0 <= n < 2 ^ 53) by lia.
  unfold added. transfer_unfold. run_simpl.
  unfold V2Simple.connected.
  destruct (V2Simple.wallet_isConnected s) eqn:Hconnected; cbn [andb negb]; run_simpl.
  2: { rewrite drop_all. split; [cbn; lia|]. intros ? ? ? ? []. }
  destruct (V2Simple.wallet_address s) as [address|] eqn:Haddress; cbn [truthy_opt show_opt].
  2: { run_simpl. rewrite drop_all. split; [cbn; lia|]. intros ? ? ? ? []. }
  destruct (truthy address); cbn [negb]; run_simpl.
  2: { rewrite drop_all. split; [cbn; lia|]. intros ? ? ? ? []. }
  destruct (ZERO_ADDRESS_test (trim (V2Simple.transferAddress s))) eqn:Hto; run_simpl.
  2: { rewrite drop_all. split; [cbn; lia|]. intros ? ? ? ? []. }
  rewrite Hn. cbn [Number_isInteger negb orb]. run_simpl.
  destruct (Z.ltb_spec n 0) as [Hneg|Hpos]; run_simpl; [lia|].
  repeat next_cond;
    rewrite <- ?app_assoc, drop_app_length; cbn [app List.filter length];
    (split; [lia|]);
    intros signer from to tokenId Hin; cbn [In] in Hin;
    repeat match goal with
           | H : _ \/ _ |- _ => destruct H as [H|H]
           | H : False |- _ => destruct H
           end; try discriminate;
    match goal with
    | H : Called _ = Called _ |- _ => injection H as <- <- <- <-
    end;
    repeat split; try reflexivity; try assumption; eauto 6.
Qed.

Lemma handleTransfer_sends_own_token_witness :
  let s := Sample.transfer_form (js "42") Sample.bob Sample.mounted in
  let new := added [] (run Sample.helpful (V2Simple.handleTransfer s)
                         (Sample.browser_of Sample.mounted ∅) []) in
  In (Called (ContractTransferFrom {| signer_id := 1 |} Sample.alice Sample.bob (Num 42))) new
  /\ V2Simple.wallet_address s = Some Sample.alice
  /\ ZERO_ADDRESS_test (trim Sample.bob) = true
  /\ exists n, Num 42 = Num n /\ 0 <= n < 2 ^ 53
               /\ n = digits_value 10 (V2Simple.transferToken s)
               /\ Number_of_string (V2Simple.transferToken s) = Num n.
Proof.
  intros s new.
  assert (Hsent : In (Called (ContractTransferFrom {| signer_id := 1 |} Sample.alice
                                Sample.bob (Num 42))) new)
    by (vm_compute; auto).
  split; [exact Hsent|].
  destruct (handleTransfer_sends_own_token Sample.helpful s
              (Sample.browser_of Sample.mounted ∅) [] (js "4x2 "))
    as [_ Hsends].
  - reflexivity.
  - vm_compute. lia.
  - destruct (Hsends _ _ _ _ Hsent) as (_ & Hfrom & _ & Hto & Hid).
    split; [exact Hfrom|]. split; [exact Hto|exact Hid].
Defined.

(** ** The contract: access list, token identifiers, administration *)

Section ContractInvariants.
Import HiddenAttributeNFT ContractInvariant.
Context (host : Host).

(** What [_update] leaves alone. *)
Lemma _update_frame to tokenId auth s previousOwner s' :
  _update host to tokenId auth s = inr (previousOwner, s') ->
  _owner s' = _owner s /\ _baseTokenURI s' = _baseTokenURI s
  /\ _nextTokenId s' = _nextTokenId s
  /\ _tokenApprovals (erc721 s')
     = (if _ownerOf (erc721 s) tokenId =? 0 then _tokenApprovals (erc721 s)
        else delete tokenId (_tokenApprovals (erc721 s)))
  /\ _operatorApprovals (erc721 s') = _operatorApprovals (erc721 s)
  /\ (FHE_isInitialized (message_of s tokenId) = true -> to <> 0 ->
      (message_of s tokenId, this host) ∈ acl s').
Proof.
  unfold _update, super_update.
  destruct (negb (auth =? 0)
            && negb (_isAuthorized (erc721 s) (_ownerOf (erc721 s) tokenId) auth tokenId)).
  { destruct (_ownerOf (erc721 s) tokenId =? 0); discriminate. }
  intros [= <- <-].
  change (message_of (with_erc721 ?e s) tokenId) with (message_of s tokenId).
  destruct (Z.eqb_spec to 0) as [->|Hto]; cbn [negb].
  - cbn. repeat split; try reflexivity. intros _ []. reflexivity.
  - destruct (FHE_isInitialized (message_of s tokenId)) eqn:Hinit; cbn.
    + repeat split; try reflexivity. intros _ _.
      apply elem_of_union_l, elem_of_singleton. reflexivity.
    + repeat split; try reflexivity. intros [=].
Qed.

(** What a mint adds. *)
Lemma mint_effects sender encryptedMessage inputProof imageURI s tokenId s' :
  mint host sender encryptedMessage inputProof imageURI s = inr (tokenId, s') ->
  sender <> 0
  /\ _ownerOf (erc721 s') tokenId = sender
  /\ _nextTokenId s' = uint256 (tokenId + 1)
  /\ _owner s' = _owner s /\ _baseTokenURI s' = _baseTokenURI s
  /\ _tokenApprovals (erc721 s') = _tokenApprovals (erc721 s)
  /\ _operatorApprovals (erc721 s') = _operatorApprovals (erc721 s)
  /\ acl s ⊆ acl s'
  /\ (message_of s' tokenId, sender) ∈ acl s'
  /\ (message_of s' tokenId, this host) ∈ acl s'.
Proof.
  unfold mint, _safeMint, _mint.
  destruct (Z.eqb_spec sender 0) as [|Hsender]; [discriminate|].
  match goal with
  | |- context [_update host sender ?tok0 0 ?s0] =>
      destruct (_update host sender tok0 0 s0) as [r|[prev s2]] eqn:Hupd; [discriminate|]
  end.
  pose proof (_update_frame _ _ _ _ _ _ Hupd) as (Ho & Hb & Hn & Happ & Hops & _).
  apply _update_spec in Hupd.
  cbn [acl erc721 _tokenMessages _owner _baseTokenURI _nextTokenId] in Hupd, Ho, Hb, Hn, Happ, Hops.
  destruct Hupd as (Hprev & Howners & _ & _ & _ & Hacl & _).
  destruct (Z.eqb_spec prev 0) as [Hzero|]; cbn [negb]; [|discriminate].
  destruct (onERC721Received host sender (_nextTokenId s)); [|discriminate].
  destruct (FHE_fromExternal host encryptedMessage inputProof sender) as [message|];
    [|discriminate].
  intros [= <- <-].
  unfold FHE_allowThis, FHE_allow, message_of, _ownerOf.
  cbn [acl erc721 _tokenMessages _owner _baseTokenURI _nextTokenId].
  rewrite Howners, !lookup_insert_eq. cbn [default].
  rewrite <- Hprev, Hzero in Happ. rewrite Z.eqb_refl in Happ.
  split; [exact Hsender|]. split; [reflexivity|]. split; [exact Hn|].
  split; [exact Ho|]. split; [exact Hb|]. split; [exact Happ|]. split; [exact Hops|].
  split; [|split].
  - intros x Hx. apply elem_of_union_r, elem_of_union_r, Hacl, Hx.
  - apply elem_of_union_l, elem_of_singleton. reflexivity.
  - apply elem_of_union_r, elem_of_union_l, elem_of_singleton. reflexivity.
Qed.

(** A successful call, seen from the storage: what it may change. *)
Lemma execute_spec sender m s s' :
  execute host sender m s = inr s' ->
  acl s ⊆ acl s'
  /\ (forall tokenId,
        _ownerOf (erc721 s') tokenId = _ownerOf (erc721 s) tokenId
        /\ message_of s' tokenId = message_of s tokenId
        \/ _ownerOf (erc721 s') tokenId <> 0
           /\ (FHE_isInitialized (message_of s' tokenId) = true ->
               (message_of s' tokenId, _ownerOf (erc721 s') tokenId) ∈ acl s'
               /\ (message_of s' tokenId, this host) ∈ acl s')).
Proof.
  assert (Hsame : forall s1 : Storage,
             acl s1 ⊆ acl s1
             /\ forall tokenId : Z,
                 _ownerOf (erc721 s1) tokenId = _ownerOf (erc721 s1) tokenId
                 /\ message_of s1 tokenId = message_of s1 tokenId
                 \/ _ownerOf (erc721 s1) tokenId <> 0
                    /\ (FHE_isInitialized (message_of s1 tokenId) = true ->
                        (message_of s1 tokenId, _ownerOf (erc721 s1) tokenId) ∈ acl s1
                        /\ (message_of s1 tokenId, this host) ∈ acl s1))
    by (intros s1; split; [reflexivity|intros; left; split; reflexivity]).
  assert (Htransfer : forall from to tok s1,
             transferFrom host sender from to tok s = inr s1 ->
             acl s ⊆ acl s1
             /\ forall tokenId,
                 _ownerOf (erc721 s1) tokenId = _ownerOf (erc721 s) tokenId
                 /\ message_of s1 tokenId = message_of s tokenId
                 \/ _ownerOf (erc721 s1) tokenId <> 0
                    /\ (FHE_isInitialized (message_of s1 tokenId) = true ->
                        (message_of s1 tokenId, _ownerOf (erc721 s1) tokenId) ∈ acl s1
                        /\ (message_of s1 tokenId, this host) ∈ acl s1)).
  { intros from to tok s1. unfold transferFrom.
    destruct (Z.eqb_spec to 0) as [|Hto]; [discriminate|].
    destruct (_update host to tok sender s) as [r|[prev s2]] eqn:Hupd; [discriminate|].
    destruct (negb (prev =? from)); [discriminate|]. intros [= <-].
    pose proof (_update_frame _ _ _ _ _ _ Hupd) as (_ & _ & _ & _ & _ & Hthis).
    apply _update_spec in Hupd.
    destruct Hupd as (_ & Howners & Hmsg & _ & _ & Hacl & Hallow).
    split; [exact Hacl|]. intros tokenId. unfold _ownerOf, message_of.
    rewrite Howners, Hmsg.
    destruct (decide (tok = tokenId)) as [->|Hne].
    - right. rewrite lookup_insert_eq. cbn [default]. split; [exact Hto|].
      intros Hinit. split; [apply Hallow|apply Hthis]; assumption.
    - left. rewrite lookup_insert_ne by exact Hne. split; reflexivity. }
  destruct m as [encryptedMessage inputProof imageURI|from to tok|from to tok|to tok
                |operator approved|newBaseURI|newOwner|]; cbn [execute].
  - destruct (mint host sender encryptedMessage inputProof imageURI s)
      as [r|[tok s1]] eqn:Hmint; [discriminate|].
    intros [= <-]. pose proof Hmint as Hspec. apply mint_spec in Hspec.
    destruct Hspec as (_ & _ & Hexists & _ & _ & Hother).
    apply mint_effects in Hmint.
    destruct Hmint as (_ & Howner & _ & _ & _ & _ & _ & Hacl & Hsender & Hthis).
    split; [exact Hacl|].
    intros tokenId. destruct (decide (tokenId = tok)) as [->|Hne].
    + right. split; [exact Hexists|]. intros _. rewrite Howner. split; assumption.
    + left. destruct (Hother tokenId Hne) as (Ho & Hm & _). split; assumption.
  - apply Htransfer.
  - unfold safeTransferFrom.
    destruct (transferFrom host sender from to tok s) as [r|s1] eqn:Ht; [discriminate|].
    destruct (onERC721Received host to tok); [|discriminate].
    intros [= <-]. eapply Htransfer; eassumption.
  - unfold approve. destruct (ownerOf s tok); [discriminate|].
    match goal with |- context [if ?b then _ else _] => destruct b end; [discriminate|].
    intros [= <-]. apply (Hsame s).
  - unfold setApprovalForAll. destruct (operator =? 0); [discriminate|].
    intros [= <-]. apply (Hsame s).
  - unfold setBaseTokenURI. destruct (negb (_owner s =? sender)); [discriminate|].
    intros [= <-]. apply (Hsame s).
  - unfold transferOwnership. destruct (negb (_owner s =? sender)); [discriminate|].
    destruct (newOwner =? 0); [discriminate|].
    intros [= <-]. apply (Hsame s).
  - unfold renounceOwnership. destruct (negb (_owner s =? sender)); [discriminate|].
    intros [= <-]. apply (Hsame s).
Qed.








End ContractInvariants.

(** ** The contract, with the calls made from callbacks *)

Section Callbacks.
Import HiddenAttributeNFT ContractInvariant.
Context (host : Host).

(** A call of a receiver that does not call back keeps the owners
    allowed. *)
Lemma execute_allowed (h : Host) sender m s s' :
  this h = this host ->
  owner_allowed host s -> execute h sender m s = inr s' -> owner_allowed host s'.
Proof.
  intros Hthis Hs Hexec. apply execute_spec in Hexec. destruct Hexec as [Hacl Hstep].
  intros tok Hinit. destruct (Hstep tok) as [[Ho Hm]|[_ Hnew]].
  - rewrite Ho, Hm. rewrite Hm in Hinit. destruct (Hs tok Hinit) as [H1 H2].
    split; apply Hacl; assumption.
  - rewrite <- Hthis. apply Hnew. exact Hinit.
Qed.

(** Without calls from the callback, [Reentrancy.run] is [execute] for
    a receiver that gives the same answer. *)
Lemma run_without_callback sender m accepts s :
  Reentrancy.run host (Reentrancy.invoke sender m [] accepts) s
  = execute {| this := this host; FHE_fromExternal := FHE_fromExternal host;
               onERC721Received := fun _ _ => accepts |} sender m s.
Proof.
  destruct m as [encryptedMessage proof imageURI| | | | | | |];
    cbn [Reentrancy.run execute fold_left]; try reflexivity.
  unfold mint, _safeMint. cbn [onERC721Received FHE_fromExternal].
  match goal with |- context [_mint host sender ?tok ?s1] =>
    change (_mint {| this := this host; FHE_fromExternal := FHE_fromExternal host;
                     onERC721Received := fun _ _ => accepts |} sender tok s1)
      with (_mint host sender tok s1);
    destruct (_mint host sender tok s1) as [r|minted]; [reflexivity|]
  end.
  destruct accepts; cbn [negb]; [|reflexivity].
  destruct (FHE_fromExternal host encryptedMessage proof sender); reflexivity.
Qed.

Lemma run_allowed (n : nat) :
  forall c s s',
    (Reentrancy.depth c <= n)%nat ->
    Reentrancy.quiet_mints c = true ->
    owner_allowed host s -> Reentrancy.run host c s = inr s' -> owner_allowed host s'.
Proof.
  induction n as [|n IH]; intros [sender m callback accepts] s s' Hdepth Hquiet Hs Hrun;
    cbn [Reentrancy.depth] in Hdepth; [lia|].
  assert (Hduring : forall s0,
             Reentrancy.quiet_mints (Reentrancy.invoke sender m callback accepts) = true ->
             (forall encryptedMessage inputProof imageURI,
                 m <> Mint encryptedMessage inputProof imageURI) ->
             owner_allowed host s0 ->
             owner_allowed host
               (fold_left (fun st c' => match Reentrancy.run host c' st with
                                        | inl _ => st
                                        | inr st' => st'
                                        end) callback s0)).
  { intros s0 Hq Hm.
    assert (Hall : forallb Reentrancy.quiet_mints callback = true).
    { destruct m; try exact Hq. exfalso. eapply Hm. reflexivity. }
    clear Hq Hrun Hquiet. apply le_S_n in Hdepth. revert s0 Hdepth Hall.
    induction callback as [|c' callback IHc]; intros s0 Hdepth Hall Hs0; [exact Hs0|].
    cbn [fold_left fold_right forallb] in *.
    apply andb_true_iff in Hall as [Hc' Hall].
    apply IHc; [lia|exact Hall|].
    destruct (Reentrancy.run host c' s0) as [r|s1] eqn:Hrun'; [exact Hs0|].
    eapply (IH c' s0 s1); [lia|exact Hc'|exact Hs0|exact Hrun']. }
  destruct m as [encryptedMessage inputProof imageURI|from to tok|from to tok|to tok
                |operator approved|newBaseURI|newOwner|].
  - cbn [Reentrancy.quiet_mints] in Hquiet. destruct callback; [|discriminate].
    rewrite run_without_callback in Hrun.
    eapply execute_allowed; [|exact Hs|exact Hrun]. reflexivity.
  - eapply (execute_allowed host); [reflexivity|exact Hs|exact Hrun].
  - cbn [Reentrancy.run] in Hrun.
    destruct (transferFrom host sender from to tok s) as [r|transferred] eqn:Ht;
      [discriminate|].
    destruct accepts; [|discriminate]. injection Hrun as <-.
    apply Hduring; [exact Hquiet|discriminate|].
    eapply (execute_allowed host sender (TransferFrom from to tok));
      [reflexivity|exact Hs|exact Ht].
  - eapply (execute_allowed host); [reflexivity|exact Hs|exact Hrun].
  - eapply (execute_allowed host); [reflexivity|exact Hs|exact Hrun].
  - eapply (execute_allowed host); [reflexivity|exact Hs|exact Hrun].
  - eapply (execute_allowed host); [reflexivity|exact Hs|exact Hrun].
  - eapply (execute_allowed host); [reflexivity|exact Hs|exact Hrun].
Qed.

(** [_update] goes through for the mint and for an authorized sender,
    and leaves the access list alone while the token has no message. *)
Lemma _update_without_message to tokenId auth s :
  auth = 0 \/ _isAuthorized (erc721 s) (_ownerOf (erc721 s) tokenId) auth tokenId = true ->
  FHE_isInitialized (message_of s tokenId) = false ->
  exists s',
    _update host to tokenId auth s = inr (_ownerOf (erc721 s) tokenId, s')
    /\ _owners (erc721 s') = <[tokenId := to]> (_owners (erc721 s))
    /\ _tokenMessages s' = _tokenMessages s
    /\ acl s' = acl s.
Proof.
  intros Hauth Hinit. unfold _update, super_update.
  replace (negb (auth =? 0)
           && negb (_isAuthorized (erc721 s) (_ownerOf (erc721 s) tokenId) auth tokenId))
    with false.
  2: { destruct Hauth as [-> | ->]; [reflexivity|]. apply eq_sym, andb_false_r. }
  change (message_of (with_erc721 ?e s) tokenId) with (message_of s tokenId).
  rewrite Hinit. eexists. split; [reflexivity|].
  destruct (negb (to =? 0)); repeat split; reflexivity.
Qed.

(** A mint whose callback passes the token on. *)
Lemma forwarding_mint (deployer : address) (baseTokenURI_ : jsstring)
    (sender to : address) (encryptedMessage : Z) (proof : list Z) (imageURI : jsstring)
    (message : Z) :
  sender <> 0 -> to <> 0 -> to <> sender -> to <> this host ->
  FHE_fromExternal host encryptedMessage proof sender = Some message ->
  FHE_isInitialized message = true ->
  let s := Reentrancy.run_all host
             [Reentrancy.invoke sender (Mint encryptedMessage proof imageURI)
                [Reentrancy.invoke sender (TransferFrom sender to 1) [] true] true]
             (deployed deployer baseTokenURI_) in
  _ownerOf (erc721 s) 1 = to
  /\ FHE_isInitialized (message_of s 1) = true
  /\ ((message_of s 1, _ownerOf (erc721 s) 1) ∉ acl s).
Proof.
  intros Hsender Hto Hother Hthis Hmessage Hinitialized s. subst s.
  unfold Reentrancy.run_all.
  cbn [fold_left Reentrancy.run execute negb]. unfold _mint, transferFrom.
  destruct (Z.eqb_spec sender 0) as [|_]; [contradiction|].
  destruct (Z.eqb_spec to 0) as [|_]; [contradiction|].
  match goal with
  | |- context [_update host sender ?tok 0 ?s1] =>
      destruct (_update_without_message sender tok 0 s1) as (s2 & -> & Howners2 & Hmsg2 & Hacl2);
        [left; reflexivity|reflexivity|]
  end.
  cbn [deployed _nextTokenId erc721 _owners _tokenMessages acl _ownerOf] in *.
  assert (Hfresh : _ownerOf {| _owners := ∅; _balances := ∅; _tokenApprovals := ∅;
                               _operatorApprovals := ∅ |} 1 = 0) by reflexivity.
  rewrite Hfresh. cbn [Z.eqb negb].
  destruct (_update_without_message to 1 sender s2) as (s3 & Hupd3 & Howners3 & Hmsg3 & Hacl3).
  { right. unfold _isAuthorized, _ownerOf. rewrite Howners2, lookup_insert_eq. cbn [default].
    rewrite Z.eqb_refl. destruct (Z.eqb_spec sender 0); [contradiction|reflexivity]. }
  { unfold message_of. rewrite Hmsg2, lookup_empty. reflexivity. }
  rewrite Hmessage, Hupd3.
  assert (Hheld : _ownerOf (erc721 s2) 1 = sender)
    by (unfold _ownerOf; rewrite Howners2, lookup_insert_eq; reflexivity).
  rewrite Hheld, Z.eqb_refl. cbn [negb].
  unfold _ownerOf, message_of, FHE_allowThis, FHE_allow.
  cbn [erc721 _owners _tokenMessages acl].
  rewrite Howners3, !lookup_insert_eq, Hacl3, Hacl2. cbn [default].
  split; [reflexivity|]. split; [exact Hinitialized|].
  unfold id. rewrite !not_elem_of_union, !not_elem_of_singleton.
  split; [congruence|]. split; [congruence|]. apply not_elem_of_empty.
Qed.

(** X17. The owner can decrypt, as long as no mint is re-entered. In
    every storage reached from the deployment by any calls, whoever
    sends them and whatever the receivers of safe transfers do from
    their callbacks, each token that has an encrypted message has its
    current owner, and the contract itself, on the access list of that
    message, provided that no callback of a mint calls the contract
    back. The proviso is needed: a contract that mints the first token
    and passes it on from the callback of the mint does so before the
    message is stored, and the account that then owns the token is not
    on the access list of its message. *)
Theorem owner_is_always_allowed :
  (forall (deployer : address) (baseTokenURI_ : jsstring)
          (calls : list Reentrancy.Invocation) (tokenId : Z),
      forallb Reentrancy.quiet_mints calls = true ->
      let s := Reentrancy.run_all host calls (deployed deployer baseTokenURI_) in
      FHE_isInitialized (message_of s tokenId) = true ->
      (message_of s tokenId, _ownerOf (erc721 s) tokenId) ∈ acl s
      /\ (message_of s tokenId, this host) ∈ acl s)
  /\ (forall (deployer : address) (baseTokenURI_ : jsstring) (sender to : address)
             (encryptedMessage : Z) (proof : list Z) (imageURI : jsstring) (message : Z),
        sender <> 0 -> to <> 0 -> to <> sender -> to <> this host ->
        FHE_fromExternal host encryptedMessage proof sender = Some message ->
        FHE_isInitialized message = true ->
        let s := Reentrancy.run_all host
                   [Reentrancy.invoke sender (Mint encryptedMessage proof imageURI)
                      [Reentrancy.invoke sender (TransferFrom sender to 1) [] true] true]
                   (deployed deployer baseTokenURI_) in
        _ownerOf (erc721 s) 1 = to
        /\ FHE_isInitialized (message_of s 1) = true
        /\ ((message_of s 1, _ownerOf (erc721 s) 1) ∉ acl s)).
Proof.
  split; [|exact forwarding_mint].
  intros deployer baseTokenURI_ calls tokenId Hquiet s. subst s.
  assert (Hinv : forall s0, owner_allowed host s0 ->
                            owner_allowed host (Reentrancy.run_all host calls s0)).
  { unfold Reentrancy.run_all. induction calls as [|c calls' IH]; intros s0 Hs0;
      [exact Hs0|].
    cbn [fold_left forallb] in *. apply andb_true_iff in Hquiet as [Hc Hquiet].
    apply (IH Hquiet).
    destruct (Reentrancy.run host c s0) as [r|s1] eqn:Hrun; [exact Hs0|].
    exact (run_allowed (Reentrancy.depth c) c s0 s1 (le_n _) Hc Hs0 Hrun). }
  apply Hinv. intros tok. unfold message_of, deployed. cbn.
  rewrite lookup_empty. discriminate.
Qed.

End Callbacks.

Lemma owner_is_always_allowed_witness :
  let deployed := HiddenAttributeNFT.deployed 17 [] in
  let s := Reentrancy.run_all Sample.host Reentrancy.forwarded_on_receipt deployed in
  let s' := Reentrancy.run_all Sample.host Reentrancy.forwarded_while_minted deployed in
  (HiddenAttributeNFT._ownerOf (HiddenAttributeNFT.erc721 s) 1 = 18
   /\ (HiddenAttributeNFT.message_of s 1, 18) ∈ HiddenAttributeNFT.acl s
   /\ (HiddenAttributeNFT.message_of s 1, HiddenAttributeNFT.this Sample.host)
      ∈ HiddenAttributeNFT.acl s)
  /\ (HiddenAttributeNFT._ownerOf (HiddenAttributeNFT.erc721 s') 1 = 18
      /\ HiddenAttributeNFT.FHE_isInitialized (HiddenAttributeNFT.message_of s' 1) = true
      /\ ((HiddenAttributeNFT.message_of s' 1,
           HiddenAttributeNFT._ownerOf (HiddenAttributeNFT.erc721 s') 1)
          ∉ HiddenAttributeNFT.acl s')).
Proof.
  intros deployed s s'. split.
  - assert (Howner : HiddenAttributeNFT._ownerOf (HiddenAttributeNFT.erc721 s) 1 = 18)
      by (vm_compute; reflexivity).
    split; [exact Howner|]. rewrite <- Howner at 1.
    apply (proj1 (owner_is_always_allowed Sample.host) 17 []
             Reentrancy.forwarded_on_receipt 1).
    + reflexivity.
    + vm_compute. reflexivity.
  - apply (proj2 (owner_is_always_allowed Sample.host) 17 [] 50 18 4242 [1; 2]
             Sample.data_url 4243); try reflexivity; discriminate.
Defined.



(** ** Running scripts *)

Lemma perform_then {S A B} (o : Remote.Answers) (p : Remote.script S A)
    (f : A -> Remote.script S B) s t :
  Remote.perform o (Remote.then_ f p) s t
  = match Remote.perform o p s t with
    | (inr a, s', t') => Remote.perform o (f a) s' t'
    | (inl e, s', t') => (inl e, s', t')
    end.
Proof.
  revert s t. induction p as [a|e|g k IH|k IH|a k IH|q k IH]; intros s t;
    cbn [Remote.then_ Remote.perform]; auto.
Qed.

Lemma perform_catch {S A} (o : Remote.Answers) (p : Remote.script S A)
    (h : JsError -> Remote.script S A) s t :
  Remote.perform o (Remote.catch p h) s t
  = match Remote.perform o p s t with
    | (inr a, s', t') => (inr a, s', t')
    | (inl e, s', t') => Remote.perform o (h e) s' t'
    end.
Proof.
  revert s t. induction p as [a|e|g k IH|k IH|a k IH|q k IH]; intros s t;
    cbn [Remote.catch Remote.perform]; auto.
Qed.

(** A program of the workflow runs as a script the way it runs on its
    own, against the collaborators behind the answers. *)
Lemma perform_lift {S A} (o : Remote.Answers) (p : prog S A) s t seen :
  Remote.perform o (Remote.lift p) s (t ++ map Remote.happening seen)
  = let r := run (Remote.behind o t) p s seen in
    (outcome r, final r, t ++ map Remote.happening (events r)).
Proof.
  revert s seen. induction p as [a|e|g k IH|k IH|a k IH|c k IH]; intros s seen;
    cbn [Remote.lift Remote.perform run]; try reflexivity.
  - apply IH.
  - apply IH.
  - rewrite <- app_assoc.
    change [Remote.Noted a] with (map Remote.happening [Did a]).
    rewrite <- map_app. apply IH.
  - rewrite <- app_assoc.
    change [Remote.Asked (Remote.Workflow c)] with (map Remote.happening [Called c]).
    rewrite <- map_app. apply (IH (Remote.behind o t seen c)).
Qed.

(** The upload, run inside a script. *)
Lemma perform_uploadImage {S} (cfg : Config) (o : Remote.Answers) (file : File) (s : S) t :
  Remote.perform o (Remote.lift (ImageUpload.uploadImage cfg file)) s t
  = let r := run (Remote.behind o t) (ImageUpload.uploadImage cfg file) tt [] in
    (outcome r, s, t ++ map Remote.happening (events r)).
Proof.
  pose proof (perform_lift o (ImageUpload.uploadImage cfg file) s t []) as H.
  cbn [map] in H. rewrite app_nil_r in H. rewrite H. cbv zeta.
  rewrite (uploadImage_run cfg (Remote.behind o t) file s []). reflexivity.
Qed.

Ltac perform_simpl :=
  cbn [Remote.perform Remote.then_ Remote.catch Remote.ensure Remote.ask Remote.sleep
       Remote.update Remote.lift mbind mret Remote.script_bind Remote.script_ret
       Remote.result Remote.state Remote.trace fst snd negb andb orb].

Ltac forms_simpl :=
  cbn [HiddenNFTAppForms.on_forms HiddenNFTAppForms.on_app HiddenNFTAppForms.app
       HiddenNFTAppForms.forms
       HiddenNFTAppForms.with_mintValue HiddenNFTAppForms.with_selectedImage
       HiddenNFTAppForms.with_minting HiddenNFTAppForms.with_mintStatus
       HiddenNFTAppForms.with_transferToken HiddenNFTAppForms.with_transferAddress
       HiddenNFTAppForms.with_transferring HiddenNFTAppForms.with_transferStatus
       HiddenNFTAppForms.mintValue HiddenNFTAppForms.selectedImage
       HiddenNFTAppForms.minting HiddenNFTAppForms.mintStatus
       HiddenNFTAppForms.transferToken HiddenNFTAppForms.transferAddress
       HiddenNFTAppForms.transferring HiddenNFTAppForms.transferStatus
       HiddenNFTApp.with_decryptedAttributes HiddenNFTApp.decryptedAttributes
       HiddenNFTApp.address HiddenNFTApp.isConnected HiddenNFTApp.instance].

Ltac forms_unfold :=
  unfold HiddenNFTAppForms.handleTransfer, HiddenNFTAppForms.handleMint,
    HiddenNFTAppForms.setMintValue, HiddenNFTAppForms.setSelectedImage,
    HiddenNFTAppForms.setMinting, HiddenNFTAppForms.setMintStatus,
    HiddenNFTAppForms.setTransferToken, HiddenNFTAppForms.setTransferAddress,
    HiddenNFTAppForms.setTransferring, HiddenNFTAppForms.setTransferStatus,
    HiddenNFTAppForms.updateDecryptedAttributes.

Ltac next_reply :=
  match goal with
  | |- context [match ?o ?t ?q with inl _ => _ | inr _ => _ end] =>
      let E := fresh "Hreply" in
      destruct (o t q) eqn:E; perform_simpl
  end.

(** One more step of the run named by [name_script]: by cases on the
    next answer, or on the next test. *)
Ltac next_turn :=
  match goal with
  | |- _ = ?rhs -> _ =>
      match rhs with
      | context [match ?o ?t ?q with inl _ => _ | inr _ => _ end] =>
          let E := fresh "Hreply" in destruct (o t q) eqn:E
      | context [match ?x with Some _ => _ | None => _ end] => destruct x eqn:?
      | context [match ?x with [] => _ | _ :: _ => _ end] => destruct x eqn:?
      | context [if ?b then _ else _] => destruct b eqn:?
      end; perform_simpl
  end.

Ltac name_script r :=
  match goal with
  | r := Remote.perform ?o ?p ?w ?t |- _ =>
      let H := fresh "Hrun" in
      assert (H : r = Remote.perform o p w t) by reflexivity; clearbody r; revert H
  end.

(** ** The forms of [HiddenNFTApp] *)

Lemma BigInt_of_digits (ds : jsstring) :
  forallb is_digit ds = true ->
  exists n, BigInt_of_string ds = Some n /\ 0 <= n.
Proof.
  intros H. pose proof (digits_value_bounds ds H) as Hv.
  unfold BigInt_of_string. rewrite (trim_digits ds H).
  destruct ds as [|a rest]; [exists 0; split; [reflexivity|lia]|].
  assert (Ha : is_digit a = true)
    by (cbn [forallb] in H; apply andb_true_iff in H; tauto).
  replace (a =? 43) with false by (unfold is_digit in Ha; lia).
  replace (a =? 45) with false by (unfold is_digit in Ha; lia).
  destruct rest as [|b ds].
  - unfold digits_opt. rewrite H. exists (digits_value 10 [a]). split; [reflexivity|lia].
  - assert (Hb : is_digit b = true).
    { cbn [forallb] in H. apply andb_true_iff in H as [_ H].
      apply andb_true_iff in H. tauto. }
    replace ((b =? 120) || (b =? 88)) with false by (unfold is_digit in Hb; lia).
    replace ((b =? 111) || (b =? 79)) with false by (unfold is_digit in Hb; lia).
    replace ((b =? 98) || (b =? 66)) with false by (unfold is_digit in Hb; lia).
    rewrite !andb_false_r. unfold digits_opt. rewrite H.
    exists (digits_value 10 (a :: b :: ds)). split; [reflexivity|lia].
Qed.

(** X21. In [HiddenNFTApp] a confirmed transfer hides the message that
    was revealed for the token: when the wait for the confirmation
    returned, the entry of the token is gone from the revealed
    messages, every other entry is kept and the form is cleared, also
    when the refetch that follows fails; when the transfer was refused,
    rejected or not confirmed, the revealed messages and the form are
    what they were. *)
Theorem transfer_hides_the_revealed_message (o : Remote.Answers)
    (s w : HiddenNFTAppForms.State) (t : list Remote.Happening) :
  let r := Remote.perform o (HiddenNFTAppForms.handleTransfer s) w t in
  let before := HiddenNFTApp.decryptedAttributes (HiddenNFTAppForms.app w) in
  let after := HiddenNFTApp.decryptedAttributes (HiddenNFTAppForms.app (Remote.state r)) in
  let form := HiddenNFTAppForms.forms (Remote.state r) in
  if Remote.confirmed o t (Remote.asked t r) then
    exists tokenId,
      BigInt_of_string (HiddenNFTAppForms.transferToken (HiddenNFTAppForms.forms s))
      = Some tokenId
      /\ after = delete (js (pretty tokenId)) before
      /\ HiddenNFTAppForms.decryptedMessage (Remote.state r) tokenId = None
      /\ HiddenNFTAppForms.transferToken form = []
      /\ HiddenNFTAppForms.transferAddress form = []
  else
    after = before
    /\ HiddenNFTAppForms.transferToken form
       = HiddenNFTAppForms.transferToken (HiddenNFTAppForms.forms w)
    /\ HiddenNFTAppForms.transferAddress form
       = HiddenNFTAppForms.transferAddress (HiddenNFTAppForms.forms w).
Proof.
  intros r before after form. subst before after form. unfold Remote.asked.
  name_script r. forms_unfold. perform_simpl.
  destruct (HiddenNFTApp.hasWallet (HiddenNFTAppForms.app s)); perform_simpl.
  2: { intros ->. perform_simpl. rewrite drop_all. cbn. auto. }
  destruct (ZERO_ADDRESS_test
              (trim (HiddenNFTAppForms.transferAddress (HiddenNFTAppForms.forms s))));
    perform_simpl.
  2: { intros ->. perform_simpl. rewrite drop_all. cbn. auto. }
  destruct (BigInt_of_string (HiddenNFTAppForms.transferToken (HiddenNFTAppForms.forms s)))
    as [tokenId|] eqn:Htoken; perform_simpl.
  2: { intros ->. perform_simpl. rewrite drop_all. cbn. auto. }
  repeat next_turn.
  all: intros ->; perform_simpl; rewrite <- ?app_assoc, drop_app_length;
    cbn [app Remote.confirmed];
    repeat match goal with
           | H : ?x = _ |- context [match ?x with inl _ => _ | inr _ => _ end] =>
               rewrite H
           end; forms_simpl.
  all: try solve [repeat split; reflexivity].
  all: exists tokenId; split; [reflexivity|]; split; [reflexivity|].
  all: unfold HiddenNFTAppForms.decryptedMessage; forms_simpl;
    rewrite lookup_delete_eq; repeat split; reflexivity.
Qed.

(** X22. What [HiddenNFTApp] sends for a transfer. The token field keeps
    digits only, and [BigInt] reads any such text, so with a wallet and
    a recipient of the address form a typed token always gets as far as
    the wallet; and a transfer that is submitted is from the connected
    account, of that token, to the recipient with the blanks around it
    removed, which is then exactly of the address form. *)
Theorem HiddenNFTApp_transfer_request (o : Remote.Answers)
    (s w : HiddenNFTAppForms.State) (t : list Remote.Happening) :
  let r := Remote.perform o (HiddenNFTAppForms.handleTransfer s) w t in
  (forall typed,
      HiddenNFTAppForms.transferToken (HiddenNFTAppForms.forms s)
      = onChange_transferToken typed ->
      HiddenNFTApp.hasWallet (HiddenNFTAppForms.app s) = true ->
      ZERO_ADDRESS_test
        (trim (HiddenNFTAppForms.transferAddress (HiddenNFTAppForms.forms s))) = true ->
      exists tokenId rest,
        BigInt_of_string (onChange_transferToken typed) = Some tokenId /\ 0 <= tokenId
        /\ Remote.asked t r = Remote.Asked (Remote.Workflow SignerPromise) :: rest)
  /\ forall signer from to tokenId,
       In (Remote.Asked (Remote.ContractTransferFromBigInt signer from to tokenId))
          (Remote.asked t r) ->
       from = HiddenNFTApp.address (HiddenNFTAppForms.app s)
       /\ HiddenNFTApp.hasWallet (HiddenNFTAppForms.app s) = true
       /\ to = trim (HiddenNFTAppForms.transferAddress (HiddenNFTAppForms.forms s))
       /\ ZERO_ADDRESS_test to = true
       /\ BigInt_of_string (HiddenNFTAppForms.transferToken (HiddenNFTAppForms.forms s))
          = Some tokenId.
Proof.
  intros r. unfold Remote.asked. name_script r. forms_unfold. perform_simpl.
  destruct (HiddenNFTApp.hasWallet (HiddenNFTAppForms.app s)) eqn:Hwallet; perform_simpl.
  2: { intros ->. perform_simpl. rewrite drop_all.
       split; [discriminate|]. intros ? ? ? ? []. }
  destruct (ZERO_ADDRESS_test
              (trim (HiddenNFTAppForms.transferAddress (HiddenNFTAppForms.forms s))))
    eqn:Hto; perform_simpl.
  2: { intros ->. perform_simpl. rewrite drop_all.
       split; [discriminate|]. intros ? ? ? ? []. }
  destruct (BigInt_of_string (HiddenNFTAppForms.transferToken (HiddenNFTAppForms.forms s)))
    as [tokenId|] eqn:Htoken; perform_simpl.
  2: { intros ->. perform_simpl. rewrite drop_all. split.
       - intros typed Htyped. rewrite Htyped in Htoken.
         destruct (BigInt_of_digits _ (filter_digits typed)) as (n & Hn & _). congruence.
       - intros ? ? ? ? []. }
  assert (Hfirst : forall rest typed,
             HiddenNFTAppForms.transferToken (HiddenNFTAppForms.forms s)
             = onChange_transferToken typed ->
             true = true -> true = true ->
             exists tokenId0 rest0,
               BigInt_of_string (onChange_transferToken typed) = Some tokenId0
               /\ 0 <= tokenId0
               /\ Remote.Asked (Remote.Workflow SignerPromise) :: rest
                  = Remote.Asked (Remote.Workflow SignerPromise) :: rest0).
  { intros rest typed Htyped _ _.
    destruct (BigInt_of_digits _ (filter_digits typed)) as (n & Hn & Hpos).
    exists n, rest. auto. }
  repeat next_turn.
  all: intros ->; perform_simpl; rewrite <- ?app_assoc, drop_app_length; cbn [app].
  all: split; [apply Hfirst|].
  all: intros signer from to tok Hin; cbn [In] in Hin;
    repeat match goal with
           | H : _ \/ _ |- _ => destruct H as [H|H]
           | H : False |- _ => destruct H
           end; try discriminate.
  all: match goal with
       | H : Remote.Asked _ = Remote.Asked _ |- _ => injection H as <- <- <- <-
       end; repeat split; assumption.
Qed.

(** The upload waits for no confirmation. *)
Lemma confirmed_after_upload (o : Remote.Answers) (up : list Event)
    (t rest : list Remote.Happening) :
  Forall (fun e => mint_step e = Some UploadImage) up ->
  Remote.confirmed o t (map Remote.happening up ++ rest)
  = Remote.confirmed o (t ++ map Remote.happening up) rest.
Proof.
  intros Hup. revert t. induction Hup as [|e up He Hup IH]; intros t; cbn [map app].
  - by rewrite app_nil_r.
  - replace (t ++ Remote.happening e :: map Remote.happening up)
      with ((t ++ [Remote.happening e]) ++ map Remote.happening up)
      by (rewrite <- app_assoc; reflexivity).
    rewrite <- IH.
    destruct e as [c|a]; [destruct c|]; try discriminate He; reflexivity.
Qed.

(** X23. A mint of [HiddenNFTApp] clears its form exactly when the
    transaction was confirmed. When the wait for the confirmation
    returned, the message and the image are cleared and the status is
    "Minted successfully.", unless the refetch of the token list that
    follows was rejected: then the status is the message of that
    rejection (or "Mint failed", if what it was rejected with is not an
    [Error]) although the token was minted. In every other case the
    message and the image are kept. After a confirmed mint the flag
    [minting] is down; the hooks and the revealed messages are never
    touched. *)
Theorem HiddenNFTApp_mint_outcome (cfg : Config) (o : Remote.Answers)
    (s w : HiddenNFTAppForms.State) (t : list Remote.Happening) :
  let r := Remote.perform o (HiddenNFTAppForms.handleMint cfg s) w t in
  let form := HiddenNFTAppForms.forms (Remote.state r) in
  HiddenNFTAppForms.app (Remote.state r) = HiddenNFTAppForms.app w
  /\ if Remote.confirmed o t (Remote.asked t r) then
       HiddenNFTAppForms.mintValue form = []
       /\ HiddenNFTAppForms.selectedImage form = None
       /\ HiddenNFTAppForms.minting form = false
       /\ (HiddenNFTAppForms.mintStatus form = "Minted successfully."%string
           \/ exists before e,
                Remote.asked t r = before ++ [Remote.Asked Remote.RefetchTokens]
                /\ o (t ++ before) Remote.RefetchTokens = inl e
                /\ HiddenNFTAppForms.mintStatus form = message_or e "Mint failed")
     else
       HiddenNFTAppForms.mintValue form
       = HiddenNFTAppForms.mintValue (HiddenNFTAppForms.forms w)
       /\ HiddenNFTAppForms.selectedImage form
          = HiddenNFTAppForms.selectedImage (HiddenNFTAppForms.forms w).
Proof.
  intros r form. subst form. unfold Remote.asked. name_script r.
  forms_unfold. perform_simpl.
  destruct (HiddenNFTApp.instance (HiddenNFTAppForms.app s)) as [instance|]; perform_simpl.
  2: { intros ->. perform_simpl. rewrite drop_all. cbn. auto. }
  destruct (HiddenNFTApp.hasWallet (HiddenNFTAppForms.app s)); perform_simpl.
  2: { intros ->. perform_simpl. rewrite drop_all. cbn. auto. }
  destruct (HiddenNFTAppForms.selectedImage (HiddenNFTAppForms.forms s)) as [image|];
    perform_simpl.
  2: { intros ->. perform_simpl. rewrite drop_all. cbn. auto. }
  destruct (truthy (trim (HiddenNFTAppForms.mintValue (HiddenNFTAppForms.forms s))));
    perform_simpl.
  2: { intros ->. perform_simpl. rewrite drop_all. cbn. auto. }
  unfold mbind, Remote.script_bind.
  rewrite perform_then, perform_catch, perform_then, perform_catch, perform_then,
    perform_uploadImage. cbv zeta.
  destruct (uploadImage_events cfg (Remote.behind o t) image []) as (up & Hup & Hstage).
  cbn [app] in Hup. rewrite Hup.
  destruct (outcome (run (Remote.behind o t) (ImageUpload.uploadImage cfg image) tt []))
    as [e|uploaded]; perform_simpl.
  { intros ->. perform_simpl. rewrite drop_app_length, <- (app_nil_r (map _ up)).
    rewrite confirmed_after_upload by exact Hstage. cbn. auto. }
  repeat next_turn.
  all: intros ->; perform_simpl; rewrite <- ?app_assoc, drop_app_length;
    rewrite confirmed_after_upload by exact Hstage;
    cbn [app Remote.confirmed];
    repeat match goal with
           | H : ?x = _ |- context [match ?x with inl _ => _ | inr _ => _ end] =>
               rewrite H
           end; forms_simpl.
  all: split; [reflexivity|].
  all: try solve [repeat split; reflexivity].
  all: try solve [do 3 (split; [reflexivity|]); left; reflexivity].
  all: do 3 (split; [reflexivity|]); right.
  all: match goal with
       | H : _ ?t0 Remote.RefetchTokens = inl ?e |- _ =>
           exists (drop (length t) t0), e
       end.
  all: rewrite <- ?app_assoc, drop_app_length.
  all: split; [rewrite <- ?app_assoc; reflexivity|].
  all: split; [|reflexivity].
  all: rewrite ?app_assoc in *; assumption.
Qed.

(** One more step of the run named by [name_run]. *)
Ltac next_step :=
  match goal with
  | |- _ = ?rhs -> _ =>
      match rhs with
      | context [match ?o ?t ?c with inl _ => _ | inr _ => _ end] =>
          let E := fresh "Hanswer" in destruct (o t c) eqn:E
      | context [match ?x with Some _ => _ | None => _ end] => destruct x eqn:?
      | context [match ?x with [] => _ | _ :: _ => _ end] => destruct x eqn:?
      | context [if ?b then _ else _] => destruct b eqn:?
      end; run_simpl
  end.

(** ** The reveal of [HiddenNFTApp] *)

(** X24. What the reveal of [HiddenNFTApp] shows. A run either leaves the
    revealed messages as they were, or adds for its token the value that
    the SDK's [userDecrypt] returned, non-empty, for the handle that the
    contract returned for this token: requested for the contract of the
    configuration and the connected account, with the key pair the SDK
    generated, the wallet's signature without its [0x], and a window of
    7 days from the second the clock gave. *)
Theorem HiddenNFTApp_reveal_shows_the_decryption (cfg : Config) (o : Oracle)
    (s : HiddenNFTApp.State) (w : HiddenNFTApp.World) (t : list Event) (tokenId : Z) :
  let r := run o (HiddenNFTApp.decryptMessage cfg s tokenId) w t in
  let before := HiddenNFTApp.decryptedAttributes (component w) in
  let after := HiddenNFTApp.decryptedAttributes (component (final r)) in
  after = before
  \/ exists instance handle keypair now signature value asked,
       HiddenNFTApp.instance s = Some instance
       /\ o t (PublicClientReadEncryptedMessage tokenId) = inr handle
       /\ HiddenNFTApp.empty_handle handle = false
       /\ (exists t1, o t1 (InstanceGenerateKeypair instance) = inr keypair)
       /\ (exists t2, o t2 DateNow = inr now)
       /\ (exists t3 signer eip712, o t3 (SignerSignTypedData signer eip712) = inr signature)
       /\ events r
          = asked ++ [Called (InstanceUserDecrypt instance handle (CONTRACT_ADDRESS cfg)
                                keypair (HiddenNFTApp.strip_0x signature)
                                (show_opt (HiddenNFTApp.address s) "null")
                                (js (pretty (now / 1000))) (js "7"))]
       /\ o asked (InstanceUserDecrypt instance handle (CONTRACT_ADDRESS cfg)
                     keypair (HiddenNFTApp.strip_0x signature)
                     (show_opt (HiddenNFTApp.address s) "null")
                     (js (pretty (now / 1000))) (js "7")) = inr (Some value)
       /\ truthy value = true
       /\ after = <[js (pretty tokenId) := value]> before.
Proof.
  intros r before after. subst before after. name_run r. app_unfold.
  destruct (HiddenNFTApp.instance s) as [instance|]; run_simpl.
  2: { intros ->. left. reflexivity. }
  destruct (negb (HiddenNFTApp.hasWallet s) || negb (HiddenNFTApp.publicClient s));
    run_simpl.
  { intros ->. left. reflexivity. }
  repeat next_step.
  all: intros ->; run_simpl; app_simpl.
  all: try (left; reflexivity).
  match goal with
  | H : truthy_opt ?x = true |- _ =>
      destruct x as [value|]; [|discriminate H]; cbn [truthy_opt] in H;
      cbn [show_opt]
  end.
  right.
  match goal with
  | Hread : o t (PublicClientReadEncryptedMessage tokenId) = inr ?handle,
    Hempty : HiddenNFTApp.empty_handle _ = false,
    Hkey : o _ (InstanceGenerateKeypair instance) = inr ?keypair,
    Hnow : o _ DateNow = inr ?now,
    Hsign : o _ (SignerSignTypedData _ _) = inr ?signature,
    Hdec : o ?asked (InstanceUserDecrypt _ _ _ _ _ _ _ _) = inr (Some value),
    Hvalue : truthy value = true |- _ =>
      exists instance, handle, keypair, now, signature, value, asked;
      split; [reflexivity|]; split; [first [exact Hread|reflexivity]|];
      split; [exact Hempty|];
      split; [eexists; exact Hkey|]; split; [eexists; exact Hnow|];
      split; [eexists _, _, _; exact Hsign|];
      split; [reflexivity|]; split; [exact Hdec|];
      split; [exact Hvalue|reflexivity]
  end.
Qed.

(** ** The gallery of [HiddenNFTAppV2Simple] *)

Lemma perform_read_images {S} (o : Remote.Answers) (tokenIds : list Z) (s : S)
    (t : list Remote.Happening) :
  exists settled,
    Remote.perform o (V2SimpleGallery.read_images tokenIds) s t
    = (inr settled, s,
       t ++ map (fun id => Remote.Asked (Remote.ContractGetTokenImageURI id)) tokenIds)
    /\ length settled = length tokenIds
    /\ forall i tokenId,
         tokenIds !! i = Some tokenId ->
         settled !! i
         = Some (o (t ++ map (fun id => Remote.Asked (Remote.ContractGetTokenImageURI id))
                           (take i tokenIds))
                   (Remote.ContractGetTokenImageURI tokenId)).
Proof.
  revert t. induction tokenIds as [|tokenId rest IH]; intros t;
    cbn [V2SimpleGallery.read_images Remote.perform map].
  - exists []. rewrite app_nil_r. repeat split. intros i tokenId Hi. discriminate Hi.
  - unfold mbind, Remote.script_bind. rewrite perform_then. cbn [Remote.reply].
    destruct (IH (t ++ [Remote.Asked (Remote.ContractGetTokenImageURI tokenId)]))
      as (settled & -> & Hlen & Hread).
    cbn [Remote.perform]. eexists. split; [rewrite <- app_assoc; reflexivity|].
    split; [cbn; lia|].
    intros [|i] id Hi; cbn in Hi.
    + injection Hi as <-. cbn. rewrite app_nil_r. reflexivity.
    + specialize (Hread i id Hi). rewrite <- app_assoc in Hread. exact Hread.
Qed.

Lemma all_fulfilled_values {A} (settled : list (JsError + A)) (values : list A) :
  V2SimpleGallery.all_fulfilled settled = inr values -> settled = map inr values.
Proof.
  revert values. induction settled as [|[e|a] settled IH]; intros values;
    cbn [V2SimpleGallery.all_fulfilled].
  - intros [= <-]. reflexivity.
  - discriminate.
  - destruct (V2SimpleGallery.all_fulfilled settled) as [e|rest]; [discriminate|].
    intros [= <-]. cbn [map]. f_equal. by apply IH.
Qed.

Ltac gallery_simpl :=
  cbn [component localStorage fhevmInstance window_ethereum set_component
       V2SimpleGallery.with_nfts V2SimpleGallery.with_loadingNFTs
       V2Simple.nfts V2Simple.loadingNFTs V2Simple.decryptedAttributes].

(** X25. [loadNFTs] replaces the gallery as a whole or not at all. Once
    the list of the owner's tokens is answered, the image of every
    token of the list is asked for, in the order of the list, whether
    or not an earlier read fails. Only when every read succeeds is the
    gallery replaced: by one card per token of the list, in that order,
    owned by the connected account and with the image the contract
    answered for it. In every other case the gallery stays as it was.
    The revealed messages, the cache and the SDK instance are never
    touched, and the loading flag is not left set. *)
Theorem loadNFTs_replaces_all_or_nothing (o : Remote.Answers) (s : V2Simple.State)
    (w : V2Simple.World) (t : list Remote.Happening) :
  let r := Remote.perform o (V2SimpleGallery.loadNFTs s) w t in
  let c := component (Remote.state r) in
  let ask_image := fun id => Remote.Asked (Remote.ContractGetTokenImageURI id) in
  (localStorage (Remote.state r) = localStorage w
   /\ fhevmInstance (Remote.state r) = fhevmInstance w
   /\ V2Simple.decryptedAttributes c = V2Simple.decryptedAttributes (component w)
   /\ (V2Simple.loadingNFTs c = true ->
       V2Simple.loadingNFTs (component w) = true /\ Remote.asked t r = []))
  /\ (forall address tokenIds,
        Remote.asked t r <> [] ->
        V2Simple.wallet_address s = Some address ->
        o t (Remote.ContractTokensOfOwner address) = inr tokenIds ->
        Remote.asked t r
        = Remote.Asked (Remote.ContractTokensOfOwner address) :: map ask_image tokenIds)
  /\ (V2Simple.nfts c = V2Simple.nfts (component w)
      \/ exists address tokenIds imageUris,
           V2Simple.wallet_address s = Some address
           /\ o t (Remote.ContractTokensOfOwner address) = inr tokenIds
           /\ V2Simple.nfts c = zip_with (V2SimpleGallery.loaded address) tokenIds imageUris
           /\ length imageUris = length tokenIds
           /\ forall i tokenId,
                tokenIds !! i = Some tokenId ->
                exists imageUri,
                  imageUris !! i = Some imageUri
                  /\ o (t ++ Remote.Asked (Remote.ContractTokensOfOwner address)
                          :: map ask_image (take i tokenIds))
                       (Remote.ContractGetTokenImageURI tokenId) = inr imageUri).
Proof.
  intros r c ask_image. subst c ask_image. unfold Remote.asked. name_script r.
  unfold V2SimpleGallery.loadNFTs, V2SimpleGallery.setNfts, V2SimpleGallery.setLoadingNFTs.
  assert (Hnone : forall w' : V2Simple.World,
             (V2Simple.loadingNFTs (component w') = true ->
              V2Simple.loadingNFTs (component w) = true) ->
             localStorage w' = localStorage w ->
             fhevmInstance w' = fhevmInstance w ->
             V2Simple.decryptedAttributes (component w')
             = V2Simple.decryptedAttributes (component w) ->
             V2Simple.nfts (component w') = V2Simple.nfts (component w) ->
             (localStorage w' = localStorage w
              /\ fhevmInstance w' = fhevmInstance w
              /\ V2Simple.decryptedAttributes (component w')
                 = V2Simple.decryptedAttributes (component w)
              /\ (V2Simple.loadingNFTs (component w') = true ->
                  V2Simple.loadingNFTs (component w) = true /\ @nil Remote.Happening = []))
             /\ (forall address tokenIds,
                   @nil Remote.Happening <> [] ->
                   V2Simple.wallet_address s = Some address ->
                   o t (Remote.ContractTokensOfOwner address) = inr tokenIds ->
                   [] = Remote.Asked (Remote.ContractTokensOfOwner address)
                        :: map (fun id => Remote.Asked (Remote.ContractGetTokenImageURI id))
                             tokenIds)
             /\ (V2Simple.nfts (component w') = V2Simple.nfts (component w)
                 \/ exists address tokenIds imageUris,
                      V2Simple.wallet_address s = Some address
                      /\ o t (Remote.ContractTokensOfOwner address) = inr tokenIds
                      /\ V2Simple.nfts (component w')
                         = zip_with (V2SimpleGallery.loaded address) tokenIds imageUris
                      /\ length imageUris = length tokenIds
                      /\ forall i tokenId,
                           tokenIds !! i = Some tokenId ->
                           exists imageUri,
                             imageUris !! i = Some imageUri
                             /\ o (t ++ Remote.Asked (Remote.ContractTokensOfOwner address)
                                     :: map (fun id =>
                                               Remote.Asked (Remote.ContractGetTokenImageURI id))
                                          (take i tokenIds))
                                  (Remote.ContractGetTokenImageURI tokenId) = inr imageUri)).
  { intros w' Hflag Hstore Hinstance Hshown Hnfts.
    split; [repeat split; auto|]. split; [intros ? ? H; contradiction|].
    left. exact Hnfts. }
  destruct (V2Simple.wallet_address s) as [address|]; perform_simpl.
  2: { intros ->. perform_simpl. rewrite drop_all. apply Hnone; auto. }
  destruct (truthy address); perform_simpl.
  2: { intros ->. perform_simpl. rewrite drop_all. apply Hnone; auto. }
  clear Hnone. gallery_simpl.
  destruct (window_ethereum w); perform_simpl.
  2: { intros ->. perform_simpl. rewrite drop_all. gallery_simpl.
       split; [repeat split; auto; discriminate|].
       split; [intros ? ? H; contradiction|]. left. reflexivity. }
  destruct (o t (Remote.ContractTokensOfOwner address)) as [e|tokenIds] eqn:Htokens;
    perform_simpl.
  { intros ->. perform_simpl. rewrite drop_app_length. gallery_simpl.
    split; [repeat split; auto; discriminate|].
    split; [intros a ids _ [= <-] H; rewrite Htokens in H; discriminate H|].
    left. reflexivity. }
  unfold mbind, Remote.script_bind.
  rewrite perform_then, perform_catch, perform_then, perform_catch, perform_then.
  match goal with
  | |- context [Remote.perform o (V2SimpleGallery.read_images tokenIds) ?w1 ?t1] =>
      destruct (perform_read_images o tokenIds w1 t1) as (settled & -> & Hlen & Hread)
  end.
  destruct (V2SimpleGallery.all_fulfilled settled) as [e|imageUris] eqn:Hall;
    perform_simpl; intros ->; perform_simpl; rewrite <- ?app_assoc, drop_app_length;
    gallery_simpl.
  - split; [repeat split; auto; discriminate|].
    split; [intros a ids _ [= <-] H; rewrite Htokens in H; injection H as <-;
            reflexivity|]. left. reflexivity.
  - split; [repeat split; auto; discriminate|].
    split; [intros a ids _ [= <-] H; rewrite Htokens in H; injection H as <-;
            reflexivity|]. right.
    apply all_fulfilled_values in Hall. subst settled.
    exists address, tokenIds, imageUris.
    split; [reflexivity|]. split; [exact Htokens|]. split; [reflexivity|].
    split; [by rewrite length_map in Hlen|].
    intros i tokenId Hi. specialize (Hread i tokenId Hi).
    rewrite list_lookup_fmap in Hread.
    destruct (imageUris !! i) as [imageUri|]; [|discriminate].
    exists imageUri. split; [reflexivity|].
    cbn in Hread. injection Hread as Hread. rewrite <- app_assoc in Hread.
    symmetry. exact Hread.
Qed.

(** ** The card of a token *)

Ltac card_unfold :=
  unfold NFTCard.fetchImageUri, NFTCard.setImageUrl, NFTCard.setLoadingImage,
    NFTCard.setImageError.

(** X26. What the card of a token shows after [fetchImageUri]. The image
    of the token is read once; when the read succeeds the card shows
    [getImageUrl] of the URI (no image when that is empty), when it is
    rejected the card shows no image, whatever it showed before; the
    spinner is gone in both cases. Without a public client nothing is
    read and the card is left as it is, a freshly mounted one with its
    spinner. *)
Theorem card_shows_the_image_read (cfg : Config) (o : Remote.Answers)
    (card : NFTCard.State) (t : list Remote.Happening) (tokenId : Z) :
  let r := Remote.perform o (NFTCard.fetchImageUri cfg true tokenId) card t in
  let idle := Remote.perform o (NFTCard.fetchImageUri cfg false tokenId) card t in
  Remote.asked t r = [Remote.Asked (Remote.PublicClientReadTokenImageURI tokenId)]
  /\ NFTCard.image_box (Remote.state r)
     = match o t (Remote.PublicClientReadTokenImageURI tokenId) with
       | inr uri =>
           if truthy (ImageUpload.getImageUrl cfg uri)
           then NFTCard.Image (ImageUpload.getImageUrl cfg uri)
           else NFTCard.NoImage
       | inl _ => NFTCard.NoImage
       end
  /\ idle = (inr tt, card, t)
  /\ NFTCard.image_box NFTCard.mounted = NFTCard.Spinner.
Proof.
  intros r idle. subst r idle. unfold Remote.asked. card_unfold. perform_simpl.
  destruct (o t (Remote.PublicClientReadTokenImageURI tokenId)) as [e|uri];
    perform_simpl; rewrite drop_app_length.
  - repeat split; reflexivity.
  - split; [reflexivity|]. split; [|split; reflexivity].
    unfold NFTCard.image_box. cbn [NFTCard.loadingImage NFTCard.imageError NFTCard.imageUrl orb].
    destruct (truthy (ImageUpload.getImageUrl cfg uri)); reflexivity.
Qed.

(** ** The wallet hook *)

Ltac wallet_unfold :=
  unfold UseSimpleWallet.handler, UseSimpleWallet.checkConnection,
    UseSimpleWallet.accountsChanged, UseSimpleWallet.connect, UseSimpleWallet.disconnect,
    UseSimpleWallet.setWallet.

Ltac wallet_simpl :=
  cbn [component window_ethereum set_component
       UseSimpleWallet.address UseSimpleWallet.isConnected UseSimpleWallet.isLoading
       UseSimpleWallet.error UseSimpleWallet.connected_as UseSimpleWallet.disconnected].

(** X27. The wallet state is consistent: whatever the user and the wallet
    do, in any order, and whatever the wallet answers, the hook says
    "connected" exactly when it holds an address; so the components'
    test [isConnected && address] fails only for a wallet that is not
    connected or whose address is the empty text. *)
Theorem wallet_state_is_consistent (o : Remote.Answers) (ops : list UseSimpleWallet.Op)
    (w : UseSimpleWallet.World) (t : list Remote.Happening) :
  (UseSimpleWallet.isConnected (component w) = true
   <-> UseSimpleWallet.address (component w) <> None) ->
  let w' := fst (UseSimpleWallet.play o ops w t) in
  window_ethereum w' = window_ethereum w
  /\ (UseSimpleWallet.isConnected (component w') = true
      <-> UseSimpleWallet.address (component w') <> None).
Proof.
  cbv zeta. revert w t. induction ops as [|op ops IH]; intros w t Hw;
    cbn [UseSimpleWallet.play fst]; [split; [reflexivity|exact Hw]|].
  assert (Hstep : window_ethereum (Remote.state (Remote.perform o (UseSimpleWallet.handler op) w t))
                  = window_ethereum w
                  /\ (UseSimpleWallet.isConnected
                        (component (Remote.state
                                      (Remote.perform o (UseSimpleWallet.handler op) w t))) = true
                      <-> UseSimpleWallet.address
                            (component (Remote.state
                                          (Remote.perform o (UseSimpleWallet.handler op) w t)))
                          <> None)).
  { destruct op as [|accounts| |]; wallet_unfold; perform_simpl.
    - destruct (window_ethereum w) eqn:Hprovider; perform_simpl;
        [|split; [exact Hprovider|exact Hw]].
      destruct (o t Remote.ProviderListAccounts) as [e|[|account accounts]];
        perform_simpl; wallet_simpl; (split; [assumption|]); try exact Hw.
      split; [discriminate|reflexivity].
    - destruct accounts as [|account accounts]; perform_simpl; wallet_simpl;
        (split; [reflexivity|]); split; try discriminate; try reflexivity.
      intros H. contradiction.
    - wallet_simpl. destruct (window_ethereum w) eqn:Hprovider; perform_simpl; wallet_simpl.
      + destruct (o t Remote.EthRequestAccounts) as [e|[|account accounts]];
          perform_simpl; wallet_simpl; (split; [assumption|]); try exact Hw.
        split; [discriminate|reflexivity].
      + split; [exact Hprovider|exact Hw].
    - wallet_simpl. split; [reflexivity|]. split; [discriminate|]. intros H. contradiction. }
  destruct Hstep as [Hprovider Hconsistent].
  destruct (IH _ (Remote.trace (Remote.perform o (UseSimpleWallet.handler op) w t))
              Hconsistent) as [Hp Hc].
  split; [rewrite Hp; exact Hprovider|exact Hc].
Qed.

Lemma wallet_state_is_consistent_witness :
  let o : Remote.Answers :=
    fun _ q =>
      match q return JsError + Remote.reply q with
      | Remote.EthRequestAccounts => inr [Sample.alice]
      | _ => inl (Error_ "unavailable")
      end in
  let w' := fst (UseSimpleWallet.play o
                   [UseSimpleWallet.Mount; UseSimpleWallet.Connect;
                    UseSimpleWallet.AccountsChanged []]
                   (Sample.browser_of UseSimpleWallet.disconnected ∅) []) in
  window_ethereum w' = true
  /\ (UseSimpleWallet.isConnected (component w') = true
      <-> UseSimpleWallet.address (component w') <> None).
Proof.
  cbv zeta.
  apply (wallet_state_is_consistent _
           [UseSimpleWallet.Mount; UseSimpleWallet.Connect;
            UseSimpleWallet.AccountsChanged []]
           (Sample.browser_of UseSimpleWallet.disconnected ∅) []).
  cbn. split; [discriminate|]. intros H. contradiction.
Defined.

(** X28. How [connect] ends. It asks the wallet for its accounts once,
    unless there is no wallet provider. The hook is left loading, its
    button disabled, exactly when the wallet answered with an empty
    list of accounts; an error is reported exactly when there is no
    provider or the request was rejected, and then the connection that
    was there is kept. *)
Theorem connect_outcome (o : Remote.Answers) (w : UseSimpleWallet.World)
    (t : list Remote.Happening) :
  let r := Remote.perform o UseSimpleWallet.connect w t in
  let wallet := component (Remote.state r) in
  (UseSimpleWallet.isLoading wallet = true
   <-> window_ethereum w = true /\ o t Remote.EthRequestAccounts = inr [])
  /\ (UseSimpleWallet.error wallet <> None
      <-> window_ethereum w = false \/ rejected (o t Remote.EthRequestAccounts))
  /\ (UseSimpleWallet.error wallet <> None \/ UseSimpleWallet.isLoading wallet = true ->
      UseSimpleWallet.address wallet = UseSimpleWallet.address (component w)
      /\ UseSimpleWallet.isConnected wallet = UseSimpleWallet.isConnected (component w))
  /\ Remote.asked t r
     = (if window_ethereum w then [Remote.Asked Remote.EthRequestAccounts] else [])
  /\ forall account accounts,
       window_ethereum w = true ->
       o t Remote.EthRequestAccounts = inr (account :: accounts) ->
       wallet = UseSimpleWallet.connected_as account.
Proof.
  intros r wallet. subst r wallet. unfold Remote.asked. wallet_unfold. perform_simpl.
  wallet_simpl.
  destruct (window_ethereum w); perform_simpl; wallet_simpl;
    [destruct (o t Remote.EthRequestAccounts) as [e|[|account accounts]];
     perform_simpl; wallet_simpl; rewrite drop_app_length; cbn [rejected]
    |rewrite drop_all].
  all: repeat match goal with
              | |- _ /\ _ => split
              | |- _ <-> _ => split
              | |- forall _, _ => intro
              | H : _ /\ _ |- _ => destruct H
              | H : _ \/ _ |- _ => destruct H
              | H : False |- _ => destruct H
              | H : inr _ = inr (_ :: _) |- _ => injection H as <- <-
              end;
    try solve [reflexivity | discriminate | congruence | tauto | auto].
Qed.

(** ** The component that keeps the tokens in memory *)

Ltac mock_unfold :=
  unfold V2Mock.handleMint, V2Mock.handleTransfer, V2Mock.decryptMessage,
    V2Mock.setMintValue, V2Mock.setSelectedImage, V2Mock.setMinting, V2Mock.setMintStatus,
    V2Mock.setTransferToken, V2Mock.setTransferAddress, V2Mock.setTransferring,
    V2Mock.setTransferStatus, V2Mock.setActiveDecrypt, V2Mock.setDecryptStatus,
    V2Mock.setNfts, V2Mock.setNextTokenId, V2Mock.setActiveTab,
    V2Mock.updateDecryptedAttributes.

Ltac mock_simpl :=
  cbn [V2Mock.on_forms V2Mock.with_decryptedAttributes V2Mock.with_activeDecrypt
       V2Mock.with_decryptStatus V2Mock.with_nfts V2Mock.with_nextTokenId
       V2Mock.with_activeTab V2Mock.address V2Mock.isConnected V2Mock.forms
       V2Mock.decryptedAttributes V2Mock.activeDecrypt V2Mock.decryptStatus
       V2Mock.nfts V2Mock.nextTokenId V2Mock.activeTab].

Lemma find_fresh (tokenId : Z) (old : list V2Mock.NFTItem) (new : V2Mock.NFTItem) :
  Forall (fun n => 0 < V2Mock.nft_tokenId n < tokenId) old ->
  V2Mock.nft_tokenId new = tokenId ->
  find (fun n => V2Mock.nft_tokenId n =? tokenId) (old ++ [new]) = Some new.
Proof.
  intros Hold Hnew. induction Hold as [|n old Hn Hold IH]; cbn [app find].
  - rewrite Hnew, Z.eqb_refl. reflexivity.
  - destruct (Z.eqb_spec (V2Mock.nft_tokenId n) tokenId); [lia|exact IH].
Qed.

Lemma fresh_ids_snoc (s : V2Mock.State) (new : V2Mock.NFTItem) :
  V2Mock.fresh_ids s ->
  V2Mock.nft_tokenId new = V2Mock.nextTokenId s ->
  0 < V2Mock.nextTokenId s ->
  Forall (fun n => 0 < V2Mock.nft_tokenId n < V2Mock.nextTokenId s + 1)
    (V2Mock.nfts s ++ [new])
  /\ NoDup (V2Mock.nft_tokenId <$> V2Mock.nfts s ++ [new]).
Proof.
  intros [Hbelow Hdup] Hnew Hpos. split.
  - apply Forall_app. split.
    + eapply Forall_impl; [exact Hbelow|]. cbn. intros n Hn. lia.
    + constructor; [lia|constructor].
  - rewrite fmap_app. apply NoDup_app. split; [exact Hdup|]. split.
    + intros id Hid Hin. cbn in Hin. apply list_elem_of_singleton in Hin.
      apply list_elem_of_fmap in Hid. destruct Hid as (n & Hn & Hmem).
      rewrite Forall_forall in Hbelow. specialize (Hbelow n Hmem). lia.
    + cbn. apply NoDup_singleton.
Qed.

(** X29. In the component that keeps the tokens in memory, a mint
    followed by a decryption shows the message. A mint whose upload
    succeeds appends one token, numbered with the next identifier, owned
    by the connected account, with the uploaded image and the message
    of the form, and moves the next identifier on, so that identifiers
    stay different from each other; decrypting that token afterwards
    shows the message as it was typed. The next identifier is a
    [number] in the range where adding one is exact. *)
Theorem mock_mint_then_decrypt (cfg : Config) (o : Remote.Answers) (s : V2Mock.State)
    (t : list Remote.Happening) (image : File) (uploaded : UploadResult) :
  V2Mock.hasWallet s = true ->
  HiddenNFTAppForms.selectedImage (V2Mock.forms s) = Some image ->
  truthy (trim (HiddenNFTAppForms.mintValue (V2Mock.forms s))) = true ->
  V2Mock.fresh_ids s ->
  0 < V2Mock.nextTokenId s < 2 ^ 53 - 1 ->
  outcome (run (Remote.behind o t) (ImageUpload.uploadImage cfg image) tt []) = inr uploaded ->
  let minted := Remote.state (Remote.perform o (V2Mock.handleMint cfg s) s t) in
  V2Mock.nfts minted
  = V2Mock.nfts s
    ++ [{| V2Mock.nft_tokenId := V2Mock.nextTokenId s;
           V2Mock.nft_owner := show_opt (V2Mock.address s) "undefined";
           V2Mock.nft_imageUri := imageUri uploaded;
           V2Mock.nft_message := HiddenNFTAppForms.mintValue (V2Mock.forms s) |}]
  /\ V2Mock.address s = Some (show_opt (V2Mock.address s) "undefined")
  /\ V2Mock.fresh_ids minted
  /\ forall o' t',
       V2Mock.decrypted
         (Remote.state (Remote.perform o' (V2Mock.decryptMessage minted (V2Mock.nextTokenId s))
                          minted t'))
         (V2Mock.nextTokenId s)
       = Some (HiddenNFTAppForms.mintValue (V2Mock.forms s)).
Proof.
  intros Hwallet Himage Hmessage Hfresh Hrange Hupload minted.
  assert (Hminted : minted
            = V2Mock.with_activeTab V2Simple.TabGallery
                (V2Mock.on_forms
                   (fun f => HiddenNFTAppForms.with_minting false
                     (HiddenNFTAppForms.with_mintStatus "✅ NFT minted successfully!"
                       (HiddenNFTAppForms.with_selectedImage None
                         (HiddenNFTAppForms.with_mintValue []
                           (HiddenNFTAppForms.with_mintStatus "Creating your NFT..."
                             (HiddenNFTAppForms.with_mintStatus "Uploading image..."
                               (HiddenNFTAppForms.with_minting true
                                 (HiddenNFTAppForms.with_mintStatus EmptyString f))))))))
                   (V2Mock.with_nextTokenId (V2Mock.nextTokenId s + 1)
                      (V2Mock.with_nfts
                         (V2Mock.nfts s
                          ++ [{| V2Mock.nft_tokenId := V2Mock.nextTokenId s;
                                 V2Mock.nft_owner := show_opt (V2Mock.address s) "undefined";
                                 V2Mock.nft_imageUri := imageUri uploaded;
                                 V2Mock.nft_message :=
                                   HiddenNFTAppForms.mintValue (V2Mock.forms s) |}]) s)))).
  { subst minted. mock_unfold. perform_simpl. rewrite Hwallet, Himage, Hmessage.
    perform_simpl. unfold mbind, Remote.script_bind.
    rewrite perform_then, perform_catch, perform_then, perform_catch, perform_then,
      perform_uploadImage. cbv zeta. rewrite Hupload. perform_simpl. reflexivity. }
  clearbody minted. subst minted. mock_simpl.
  split; [reflexivity|]. split.
  { unfold V2Mock.hasWallet in Hwallet. apply andb_true_iff in Hwallet as [_ Hwallet].
    destruct (V2Mock.address s); [reflexivity|discriminate]. }
  split; [unfold V2Mock.fresh_ids; mock_simpl; apply fresh_ids_snoc; [exact Hfresh|reflexivity|lia]|].
  intros o' t'. mock_unfold. perform_simpl. mock_simpl.
  rewrite find_fresh; [|apply Hfresh|reflexivity].
  perform_simpl. unfold V2Mock.decrypted. mock_simpl.
  rewrite lookup_insert_eq. cbn [V2Mock.nft_message].
  by rewrite (trim_truthy _ Hmessage).
Qed.

Lemma mock_mint_then_decrypt_witness :
  let s := Demo.mock_form (js "hello") (Sample.png 51200) in
  let minted := Remote.state (Remote.perform Demo.answers (V2Mock.handleMint Sample.cfg s) s []) in
  V2Mock.decrypted
    (Remote.state (Remote.perform Demo.answers (V2Mock.decryptMessage minted 1) minted [])) 1
  = Some (js "hello").
Proof.
  refine (proj2 (proj2 (proj2
            (mock_mint_then_decrypt Sample.cfg Demo.answers
               (Demo.mock_form (js "hello") (Sample.png 51200)) [] (Sample.png 51200)
               {| imageUri := Sample.data_url; previewUrl := Sample.data_url |}
               _ _ _ _ _ _))) Demo.answers []).
  - reflexivity.
  - reflexivity.
  - reflexivity.
  - split; [constructor|constructor].
  - cbn. lia.
  - reflexivity.
Defined.

Lemma no_match_fmap (id : Z) (g : V2Mock.NFTItem -> V2Mock.NFTItem)
    (l : list V2Mock.NFTItem) :
  id ∉ V2Mock.nft_tokenId <$> l ->
  (fun n => if V2Mock.nft_tokenId n =? id then g n else n) <$> l = l.
Proof.
  induction l as [|x l IH]; [reflexivity|]. rewrite !fmap_cons, not_elem_of_cons.
  intros [Hx Hl]. f_equal; [|exact (IH Hl)].
  destruct (Z.eqb_spec (V2Mock.nft_tokenId x) id); congruence.
Qed.

Lemma alter_first_match (id : Z) (g : V2Mock.NFTItem -> V2Mock.NFTItem)
    (l : list V2Mock.NFTItem) :
  NoDup (V2Mock.nft_tokenId <$> l) ->
  match V2Mock.findIndex (V2Mock.is_token (Num id)) l with
  | Some i => alter g i l
  | None => l
  end
  = (fun n => if V2Mock.nft_tokenId n =? id then g n else n) <$> l.
Proof.
  induction l as [|x l IH]; [reflexivity|]. rewrite !fmap_cons, NoDup_cons.
  intros [Hx Hl]. cbn [V2Mock.findIndex V2Mock.is_token].
  destruct (Z.eqb_spec (V2Mock.nft_tokenId x) id) as [Hid|Hid].
  - cbn. f_equal. symmetry. apply no_match_fmap. by rewrite <- Hid.
  - specialize (IH Hl). cbn [V2Mock.is_token] in IH.
    destruct (V2Mock.findIndex _ l) as [i|]; cbn; by f_equal.
Qed.

Lemma fresh_ids_owner (to : jsstring) (id bound : Z) (l : list V2Mock.NFTItem) :
  Forall (fun n => 0 < V2Mock.nft_tokenId n < bound) l
  /\ NoDup (V2Mock.nft_tokenId <$> l) ->
  Forall (fun n => 0 < V2Mock.nft_tokenId n < bound)
    ((fun n => if V2Mock.nft_tokenId n =? id then V2Mock.with_owner to n else n) <$> l)
  /\ NoDup (V2Mock.nft_tokenId
              <$> ((fun n => if V2Mock.nft_tokenId n =? id then V2Mock.with_owner to n else n)
                     <$> l)).
Proof.
  intros [Hbelow Hdup].
  assert (Hids : V2Mock.nft_tokenId
                   <$> ((fun n => if V2Mock.nft_tokenId n =? id
                                  then V2Mock.with_owner to n else n) <$> l)
                 = V2Mock.nft_tokenId <$> l).
  { rewrite <- list_fmap_compose. apply list_fmap_ext. intros i n _. cbn.
    by destruct (V2Mock.nft_tokenId n =? id). }
  split; [|by rewrite Hids].
  apply Forall_fmap. eapply Forall_impl; [exact Hbelow|]. cbn. intros n Hn.
  by destruct (V2Mock.nft_tokenId n =? id).
Qed.

(** X30. A transfer in the component that keeps the tokens in memory. The
    token field holds digits only and the identifiers in use are
    different from each other, in the range where [number]s are exact.
    If the wallet is connected and the
    recipient, trimmed, is an address, the token whose identifier was
    typed, if it is listed, gets the recipient as its owner, whoever
    owned it before, and the message decrypted for it is dropped; every
    other token, every image and every message stays as it was. In
    every other case the list is untouched. The identifiers stay
    different from each other and the next one never changes. *)
Theorem mock_transfer_moves_one_token (o : Remote.Answers) (s : V2Mock.State)
    (t : list Remote.Happening) (typed : jsstring) :
  HiddenNFTAppForms.transferToken (V2Mock.forms s) = onChange_transferToken typed ->
  V2Mock.fresh_ids s ->
  V2Mock.nextTokenId s <= 2 ^ 53 ->
  let s' := Remote.state (Remote.perform o (V2Mock.handleTransfer s) s t) in
  let to := trim (HiddenNFTAppForms.transferAddress (V2Mock.forms s)) in
  exists id,
    Number_of_string (HiddenNFTAppForms.transferToken (V2Mock.forms s)) = Num id
    /\ 0 <= id
    /\ V2Mock.nfts s'
       = (if V2Mock.hasWallet s && ZERO_ADDRESS_test to
          then (fun n => if V2Mock.nft_tokenId n =? id then V2Mock.with_owner to n else n)
                 <$> V2Mock.nfts s
          else V2Mock.nfts s)
    /\ V2Mock.decryptedAttributes s'
       = (if V2Mock.hasWallet s && ZERO_ADDRESS_test to
             && existsb (fun n => V2Mock.nft_tokenId n =? id) (V2Mock.nfts s)
          then delete (Number_toString (Num id)) (V2Mock.decryptedAttributes s)
          else V2Mock.decryptedAttributes s)
    /\ V2Mock.nextTokenId s' = V2Mock.nextTokenId s
    /\ V2Mock.fresh_ids s'.
Proof.
  intros Htyped Hfresh _ s' to.
  destruct (Number_of_digits _ (filter_digits typed)) as (id & Hid & Hrange).
  rewrite <- Htyped in Hid. exists id. split; [exact Hid|]. split; [lia|].
  pose proof (alter_first_match id (V2Mock.with_owner to) (V2Mock.nfts s) (proj2 Hfresh))
    as Halter.
  pose proof (fresh_ids_owner to id (V2Mock.nextTokenId s) (V2Mock.nfts s) Hfresh) as Hkept.
  subst s'. mock_unfold. perform_simpl.
  destruct (V2Mock.hasWallet s) eqn:Hwallet; perform_simpl; mock_simpl;
    [|by repeat split; try apply Hfresh].
  fold to. destruct (ZERO_ADDRESS_test to) eqn:Hto; perform_simpl; mock_simpl;
    [|by repeat split; try apply Hfresh].
  rewrite Hid. cbn [andb].
  assert (Hexists : existsb (fun n => V2Mock.nft_tokenId n =? id) (V2Mock.nfts s)
                    = match V2Mock.findIndex (V2Mock.is_token (Num id)) (V2Mock.nfts s) with
                      | Some _ => true
                      | None => false
                      end).
  { clear. induction (V2Mock.nfts s) as [|x l IH]; [reflexivity|].
    cbn [existsb V2Mock.findIndex V2Mock.is_token].
    destruct (V2Mock.nft_tokenId x =? id); [reflexivity|]. cbn [orb]. rewrite IH.
    cbn [V2Mock.is_token]. by destruct (V2Mock.findIndex _ l). }
  rewrite Hexists. rewrite <- Halter in Hkept |- *.
  destruct (V2Mock.findIndex _ (V2Mock.nfts s)) as [i|] eqn:Hfind; perform_simpl; mock_simpl;
    repeat split; apply Hkept.
Qed.

Lemma mock_transfer_moves_one_token_witness :
  let s := Demo.mock_transfer
             [{| V2Mock.nft_tokenId := 1; V2Mock.nft_owner := Sample.alice;
                 V2Mock.nft_imageUri := Sample.data_url; V2Mock.nft_message := js "hello" |}]
             (js "1") Sample.bob in
  map V2Mock.nft_owner
    (V2Mock.nfts (Remote.state (Remote.perform Demo.answers (V2Mock.handleTransfer s) s [])))
  = [Sample.bob].
Proof.
  intros s.
  destruct (mock_transfer_moves_one_token Demo.answers s [] (js "token 1"))
    as (id & Hid & _ & Hnfts & _).
  - reflexivity.
  - split; [repeat constructor|]. cbn. apply NoDup_singleton.
  - cbn. lia.
  - rewrite Hnfts. injection Hid as <-. reflexivity.
Defined.
